(** * hemp-data-populator: discovery scoring, extraction, validation, deduplication

    A shallow embedding of the TypeScript sources
    - [src/modules/DataProcessor.ts]  (class [DataProcessor], on records of the
                                       declared type and on objects of any type)
    - [src/modules/Scraper.ts]        (class [Scraper]: CSV line parser, JSON items,
                                       plant-part and industry heuristics)
    - [src/modules/Discovery.ts]      (class [Discovery]: scoring and selection)
    - [src/core/DataHarvester.ts]     (class [DataHarvester]: one harvest run)
    - [src/services/DatabaseService.ts] and [src/config.ts]

    Conventions of the embedding.

    - A JavaScript string is a Rocq [string]; a character stands for the UTF-16
      code unit with the same number (0..255).  The character classes [\s],
      [\d], [\w], [\W] and the control range [\u0000-\u001F\u007F-\u009F] are
      the restrictions of the JavaScript classes to that range.  Case mapping
      is that of JavaScript on the range: A-Z and U+00C0-U+00DE against a-z
      and U+00E0-U+00FE, the sharp s upper-cased to SS; only the upper-case
      forms of U+00B5 and U+00FF lie outside the range, like the bullet and
      dash characters U+2022, U+2013, U+2014.
    - JavaScript numbers that hold scores are binary64 floats ([PrimFloat]);
      counters are [nat].
    - [Set<string>] is a [gset string].
    - Network, clock and the hosted datastore are an explicit environment
      record handed to the orchestrator. *)

From Stdlib Require Import ZArith List Bool Lia Floats.
From Stdlib Require Import Strings.String Strings.Ascii DecimalString.
From Stdlib Require Import Sorting.Sorted Sorting.Permutation.
From stdpp Require Import gmap strings.
Import ListNotations.

Set Warnings "-inexact-float,-register-all,-clear-no-such-hyp".
Local Open Scope string_scope.
Local Open Scope list_scope.

(* ===================================================================== *)
(** ** JavaScript string primitives                                        *)
(* ===================================================================== *)

Module JS.

Definition code (c : ascii) : N := N_of_ascii c.

Definition in_range (lo hi : N) (c : ascii) : bool :=
  (lo <=? code c)%N && (code c <=? hi)%N.

(** [\s]: TAB, LF, VT, FF, CR, SPACE and U+00A0. *)
Definition isSpace (c : ascii) : bool :=
  in_range 9 13 c || (code c =? 32)%N || (code c =? 160)%N.

(** [\d] *)
Definition isDigit (c : ascii) : bool := in_range 48 57 c.

Definition isUpper (c : ascii) : bool := in_range 65 90 c.
Definition isLower (c : ascii) : bool := in_range 97 122 c.

(** [\w] is [A-Za-z0-9_]; [\W] is its complement. *)
Definition isWord (c : ascii) : bool :=
  isUpper c || isLower c || isDigit c || (code c =? 95)%N.

(** [\u0000-\u001F\u007F-\u009F] *)
Definition isControl (c : ascii) : bool :=
  in_range 0 31 c || in_range 127 159 c.

(** The letters of the range with a lower-case form of their own: A-Z and
    U+00C0-U+00DE but the multiplication sign U+00D7. *)
Definition hasLowerForm (c : ascii) : bool :=
  isUpper c || (in_range 192 222 c && negb (code c =? 215)%N).

(** The letters whose upper-case form is one code unit of the range: a-z
    and U+00E0-U+00FE but the division sign U+00F7. *)
Definition hasUpperForm (c : ascii) : bool :=
  isLower c || (in_range 224 254 c && negb (code c =? 247)%N).

Definition lowerChar (c : ascii) : ascii :=
  if hasLowerForm c then ascii_of_N (code c + 32) else c.

Definition upperChar (c : ascii) : ascii :=
  if hasUpperForm c then ascii_of_N (code c - 32) else c.

(** The sharp s, U+00DF, whose upper-case form is the two letters SS. *)
Definition isSharpS (c : ascii) : bool := (code c =? 223)%N.

(** The micro sign U+00B5 and the y with diaeresis U+00FF have their
    upper-case forms, U+039C and U+0178, outside the range: [upperChar]
    leaves them in place, and what is stated about upper-casing is stated
    for texts that hold neither. *)
Definition upperInRange (c : ascii) : bool :=
  negb ((code c =? 181)%N || (code c =? 255)%N).

Fixpoint smap (f : ascii -> ascii) (s : string) : string :=
  match s with
  | EmptyString => EmptyString
  | String c s' => String (f c) (smap f s')
  end.

(** [s.toLowerCase()] *)
Definition toLowerCase (s : string) : string := smap lowerChar s.

(** [s.toUpperCase()] *)
Fixpoint toUpperCase (s : string) : string :=
  match s with
  | EmptyString => EmptyString
  | String c s' =>
      if isSharpS c then String "S" (String "S" (toUpperCase s'))
      else String (upperChar c) (toUpperCase s')
  end.

Fixpoint sfilter (p : ascii -> bool) (s : string) : string :=
  match s with
  | EmptyString => EmptyString
  | String c s' => if p c then String c (sfilter p s') else sfilter p s'
  end.

Fixpoint sall (p : ascii -> bool) (s : string) : bool :=
  match s with
  | EmptyString => true
  | String c s' => p c && sall p s'
  end.

Fixpoint dropWhile (p : ascii -> bool) (s : string) : string :=
  match s with
  | EmptyString => EmptyString
  | String c s' => if p c then dropWhile p s' else s
  end.

(** Removes the longest suffix made of characters satisfying [p]. *)
Fixpoint dropWhileEnd (p : ascii -> bool) (s : string) : string :=
  match s with
  | EmptyString => EmptyString
  | String c s' =>
      match dropWhileEnd p s' with
      | EmptyString => if p c then EmptyString else String c EmptyString
      | r => String c r
      end
  end.

(** [s.trim()] *)
Definition trim (s : string) : string := dropWhileEnd isSpace (dropWhile isSpace s).

Definition isEmpty (s : string) : bool :=
  match s with EmptyString => true | _ => false end.

(** [s.startsWith(p)] *)
Fixpoint startsWith (p s : string) : bool :=
  match p, s with
  | EmptyString, _ => true
  | String a p', String b s' => Ascii.eqb a b && startsWith p' s'
  | String _ _, EmptyString => false
  end.

(** [s.includes(sub)] *)
Fixpoint includes (s sub : string) : bool :=
  startsWith sub s ||
  match s with
  | EmptyString => false
  | String _ s' => includes s' sub
  end.

(** [/^\d+$/.test(s)] *)
Definition isNumeric (s : string) : bool := negb (isEmpty s) && sall isDigit s.

(** [s.replace(/\s+/g, ' ')]: every maximal run of white space becomes one
    space.  [inRun] tells that the previous character was white space. *)
Fixpoint collapseFrom (inRun : bool) (s : string) : string :=
  match s with
  | EmptyString => EmptyString
  | String c s' =>
      if isSpace c
      then (if inRun then collapseFrom true s' else String " " (collapseFrom true s'))
      else String c (collapseFrom false s')
  end.

Definition collapseSpaces (s : string) : string := collapseFrom false s.

(** [s.replace(/\s+/g, '')] *)
Definition removeSpaces (s : string) : string := sfilter (fun c => negb (isSpace c)) s.

(** [s.split(sep)] for a one-character separator: empty pieces are kept. *)
Fixpoint splitChar (sep : ascii) (s : string) : list string :=
  match s with
  | EmptyString => [EmptyString]
  | String c s' =>
      if Ascii.eqb c sep then EmptyString :: splitChar sep s'
      else match splitChar sep s' with
           | [] => [String c EmptyString]
           | w :: ws => String c w :: ws
           end
  end.

(** [s.split(/[class]+/)]: the separators are the maximal runs of characters
    of the class; a run at the start or at the end leaves an empty piece.
    [inRun] tells that the previous character was a separator. *)
Fixpoint splitRunsFrom (p : ascii -> bool) (inRun : bool) (s : string) : list string :=
  match s with
  | EmptyString => [EmptyString]
  | String c s' =>
      if p c
      then (if inRun then splitRunsFrom p true s'
            else EmptyString :: splitRunsFrom p true s')
      else match splitRunsFrom p false s' with
           | [] => [String c EmptyString]
           | w :: ws => String c w :: ws
           end
  end.

Definition splitRuns (p : ascii -> bool) (s : string) : list string :=
  splitRunsFrom p false s.

(** [parts.join(sep)] *)
Fixpoint join (sep : string) (parts : list string) : string :=
  match parts with
  | [] => EmptyString
  | [w] => w
  | w :: ws => w +:+ sep +:+ join sep ws
  end.

(** [[...new Set(xs)]]: first occurrences, in order. *)
Fixpoint uniqFrom (seen xs : list string) : list string :=
  match xs with
  | [] => []
  | x :: xs' =>
      if existsb (String.eqb x) seen then uniqFrom seen xs'
      else x :: uniqFrom (x :: seen) xs'
  end.

Definition uniq (xs : list string) : list string := uniqFrom [] xs.

(** [xs.some(f)] *)
Definition some {A} (f : A -> bool) (xs : list A) : bool := existsb f xs.

(** [s.endsWith(suffix)] *)
Fixpoint endsWith (s suffix : string) : bool :=
  String.eqb s suffix ||
  match s with
  | EmptyString => false
  | String _ s' => endsWith s' suffix
  end.

(** [s.split(/[class]/)]: every character of the class is a separator of
    its own; empty pieces are kept. *)
Fixpoint splitAt (p : ascii -> bool) (s : string) : list string :=
  match s with
  | EmptyString => [EmptyString]
  | String c s' =>
      if p c then EmptyString :: splitAt p s'
      else match splitAt p s' with
           | [] => [String c EmptyString]
           | w :: ws => String c w :: ws
           end
  end.

(** [xs.findIndex(f)]; [None] is [-1]. *)
Fixpoint findIndex {A} (f : A -> bool) (xs : list A) : option nat :=
  match xs with
  | [] => None
  | x :: xs' => if f x then Some 0 else option_map S (findIndex f xs')
  end.

End JS.

(* ===================================================================== *)
(** ** The regular expressions of the sources                              *)
(* ===================================================================== *)

(** A backtracking matcher for the fragment of JavaScript regular expressions
    the sources use, always under the flags [gi]: literals (compared without
    case), character classes, sequence, ordered alternation, greedy [?],
    greedy [*], [+] and [{n}] over a character class, and numbered capture
    groups. *)
Module Regex.
Import JS.

Inductive re : Type :=
| Lit (s : string)
| Cls (p : ascii -> bool)
| Seq (r1 r2 : re)
| Alt (r1 r2 : re)
| Opt (r : re)
| Star (p : ascii -> bool)
| Plus (p : ascii -> bool)
| Rep (n : nat) (p : ascii -> bool)
| Group (n : nat) (r : re).

(** Captures: group number and captured text, most recent first. *)
Definition captures : Type := list (nat * string).

Section Matcher.
Context {R : Type}.
Definition cont : Type := string -> captures -> option R.

(** Literal text, case-insensitively. *)
Fixpoint mLit (l s : string) (caps : captures) (k : cont) : option R :=
  match l, s with
  | EmptyString, _ => k s caps
  | String a l', String b s' =>
      if Ascii.eqb (lowerChar a) (lowerChar b) then mLit l' s' caps k else None
  | String _ _, EmptyString => None
  end.

(** Greedy [class*]: take as many as possible, give back one at a time. *)
Fixpoint mStar (p : ascii -> bool) (s : string) (caps : captures) (k : cont) : option R :=
  match s with
  | String c s' =>
      if p c then
        match mStar p s' caps k with
        | Some r => Some r
        | None => k s caps
        end
      else k s caps
  | EmptyString => k s caps
  end.

Fixpoint mRep (n : nat) (p : ascii -> bool) (s : string) (caps : captures) (k : cont)
  : option R :=
  match n, s with
  | O, _ => k s caps
  | S n', String c s' => if p c then mRep n' p s' caps k else None
  | S _, EmptyString => None
  end.

Fixpoint mRe (r : re) (s : string) (caps : captures) (k : cont) : option R :=
  match r with
  | Lit l => mLit l s caps k
  | Cls p =>
      match s with
      | String c s' => if p c then k s' caps else None
      | EmptyString => None
      end
  | Seq r1 r2 => mRe r1 s caps (fun s' caps' => mRe r2 s' caps' k)
  | Alt r1 r2 =>
      match mRe r1 s caps k with
      | Some x => Some x
      | None => mRe r2 s caps k
      end
  | Opt r1 =>
      match mRe r1 s caps k with
      | Some x => Some x
      | None => k s caps
      end
  | Star p => mStar p s caps k
  | Plus p =>
      match s with
      | String c s' => if p c then mStar p s' caps k else None
      | EmptyString => None
      end
  | Rep n p => mRep n p s caps k
  | Group n r1 =>
      mRe r1 s caps
          (fun s' caps' =>
             k s' ((n, substring 0 (String.length s - String.length s') s) :: caps'))
  end.
End Matcher.

(** One attempt at the start of [s]: the captures and the unread rest. *)
Definition exec (r : re) (s : string) : option (captures * string) :=
  mRe r s [] (fun rest caps => Some (caps, rest)).

(** [match[n]]: [None] is [undefined]. *)
Fixpoint group (n : nat) (caps : captures) : option string :=
  match caps with
  | [] => None
  | (m, t) :: caps' => if Nat.eqb n m then Some t else group n caps'
  end.

(** [s.matchAll(r)] for a global [r]: leftmost matches, each search resuming
    where the previous match ended (one further after an empty match).
    [skip] counts the characters still covered by the previous match. *)
Fixpoint matchAllFrom (r : re) (skip : nat) (s : string) : list captures :=
  match s with
  | EmptyString =>
      match skip, exec r s with
      | O, Some (caps, _) => [caps]
      | _, _ => []
      end
  | String _ s' =>
      match skip with
      | S k => matchAllFrom r k s'
      | O =>
          match exec r s with
          | Some (caps, rest) =>
              caps :: matchAllFrom r (String.length s - String.length rest - 1) s'
          | None => matchAllFrom r 0 s'
          end
      end
  end.

Definition matchAll (r : re) (s : string) : list captures := matchAllFrom r 0 s.

(** Sequence and alternation of several expressions. *)
Fixpoint seqs (rs : list re) : re :=
  match rs with
  | [] => Lit ""
  | [r] => r
  | r :: rs' => Seq r (seqs rs')
  end.

Fixpoint alts (rs : list re) : re :=
  match rs with
  | [] => Cls (fun _ => false)
  | [r] => r
  | r :: rs' => Alt r (alts rs')
  end.

End Regex.

(* ===================================================================== *)
(** ** SHA-256 ([crypto.createHash('sha256').update(key).digest('hex')])   *)
(* ===================================================================== *)

Module Sha256.
Local Open Scope Z_scope.

Definition w32 (x : Z) : Z := x mod 4294967296.
Definition add32 (x y : Z) : Z := w32 (x + y).
Definition rotr (n x : Z) : Z := Z.lor (Z.shiftr x n) (w32 (Z.shiftl x (32 - n))).
Definition not32 (x : Z) : Z := 4294967295 - x.
Definition Ch (x y z : Z) : Z := Z.lxor (Z.land x y) (Z.land (not32 x) z).
Definition Maj (x y z : Z) : Z :=
  Z.lxor (Z.lxor (Z.land x y) (Z.land x z)) (Z.land y z).
Definition bigSigma0 (x : Z) : Z := Z.lxor (Z.lxor (rotr 2 x) (rotr 13 x)) (rotr 22 x).
Definition bigSigma1 (x : Z) : Z := Z.lxor (Z.lxor (rotr 6 x) (rotr 11 x)) (rotr 25 x).
Definition smallSigma0 (x : Z) : Z :=
  Z.lxor (Z.lxor (rotr 7 x) (rotr 18 x)) (Z.shiftr x 3).
Definition smallSigma1 (x : Z) : Z :=
  Z.lxor (Z.lxor (rotr 17 x) (rotr 19 x)) (Z.shiftr x 10).

(** Round constants and initial hash value of FIPS 180-4. *)
Definition roundConstants : list Z :=
  [1116352408; 1899447441; 3049323471; 3921009573; 961987163; 1508970993;
   2453635748; 2870763221; 3624381080; 310598401; 607225278; 1426881987;
   1925078388; 2162078206; 2614888103; 3248222580; 3835390401; 4022224774;
   264347078; 604807628; 770255983; 1249150122; 1555081692; 1996064986;
   2554220882; 2821834349; 2952996808; 3210313671; 3336571891; 3584528711;
   113926993; 338241895; 666307205; 773529912; 1294757372; 1396182291;
   1695183700; 1986661051; 2177026350; 2456956037; 2730485921; 2820302411;
   3259730800; 3345764771; 3516065817; 3600352804; 4094571909; 275423344;
   430227734; 506948616; 659060556; 883997877; 958139571; 1322822218;
   1537002063; 1747873779; 1955562222; 2024104815; 2227730452; 2361852424;
   2428436474; 2756734187; 3204031479; 3329325298].

Definition initialHash : list Z :=
  [1779033703; 3144134277; 1013904242; 2773480762;
   1359893119; 2600822924; 528734635; 1541459225].

(** The [n] low bytes of [x], most significant first. *)
Fixpoint bytesBE (n : nat) (x : Z) : list Z :=
  match n with
  | O => []
  | S n' => bytesBE n' (Z.shiftr x 8) ++ [x mod 256]
  end.

Definition pad (msg : list Z) : list Z :=
  let len := Z.of_nat (length msg) in
  msg ++ [128] ++ repeat 0 (Z.to_nat ((55 - len) mod 64)) ++ bytesBE 8 (8 * len).

Fixpoint toWords (fuel : nat) (bs : list Z) : list Z :=
  match fuel, bs with
  | S f, a :: b :: c :: d :: rest => (((a * 256 + b) * 256 + c) * 256 + d) :: toWords f rest
  | _, _ => []
  end.

(** Message schedule, newest word first while it is being extended. *)
Fixpoint extend (n : nat) (w : list Z) : list Z :=
  match n with
  | O => w
  | S n' =>
      let wt := add32 (add32 (smallSigma1 (nth 1 w 0)) (nth 6 w 0))
                      (add32 (smallSigma0 (nth 14 w 0)) (nth 15 w 0)) in
      extend n' (wt :: w)
  end.

Definition schedule (block : list Z) : list Z := rev (extend 48 (rev block)).

Definition step (st : list Z) (kw : Z * Z) : list Z :=
  match st with
  | [a; b; c; d; e; f; g; h] =>
      let t1 := add32 (add32 (add32 h (bigSigma1 e)) (add32 (Ch e f g) (fst kw))) (snd kw) in
      let t2 := add32 (bigSigma0 a) (Maj a b c) in
      [add32 t1 t2; a; b; c; add32 d t1; e; f; g]
  | _ => st
  end.

Definition compress (h block : list Z) : list Z :=
  let st := fold_left step (combine roundConstants (schedule block)) h in
  map (fun p => add32 (fst p) (snd p)) (combine h st).

Fixpoint toBlocks (fuel : nat) (ws : list Z) : list (list Z) :=
  match fuel, ws with
  | _, [] => []
  | O, _ => []
  | S f, _ => firstn 16 ws :: toBlocks f (skipn 16 ws)
  end.

Definition digest (msg : list Z) : list Z :=
  let bs := pad msg in
  let ws := toWords (length bs) bs in
  fold_left compress (toBlocks (length ws) ws) initialHash.

Definition hexDigit (x : Z) : ascii :=
  ascii_of_nat (Z.to_nat (if x <? 10 then 48 + x else 87 + x)).

Fixpoint hexOf (n : nat) (x : Z) : string :=
  match n with
  | O => EmptyString
  | S n' => hexOf n' (Z.shiftr x 4) +:+ String (hexDigit (x mod 16)) EmptyString
  end.

Definition hex (ws : list Z) : string := String.concat "" (map (hexOf 8) ws).

(** UTF-8 bytes of a string of code units below 256. *)
Definition utf8 (s : string) : list Z :=
  flat_map (fun c => let n := Z.of_N (N_of_ascii c) in
                     if n <? 128 then [n]
                     else [Z.lor 192 (Z.shiftr n 6); Z.lor 128 (Z.land n 63)])
           (list_ascii_of_string s).

Definition sha256_hex (s : string) : string := hex (digest (utf8 s)).

End Sha256.

(* ===================================================================== *)
(** ** Data model ([src/types/index.ts])                                   *)
(* ===================================================================== *)

(** Parsed JSON ([response.data]).  A number is an integer literal, which
    [JSON.parse] reads as the nearest binary64 number; an object is the list
    of the members its text gives, in the order of the text. *)
Inductive json : Type :=
| JNull
| JBool (b : bool)
| JNum (z : Z)
| JStr (s : string)
| JArr (items : list json)
| JObj (props : list (string * json)).

Record HempProduct : Type := mkProduct {
  product_name : string;
  plant_part : string;
  industry : string;
  description : string;
  source_url : string;
  benefits : option (list string);
  technical_specs : option json;
  sustainability_aspects : option (list string);
  keywords : option (list string)
}.

(** The object [parseJSONItem] builds from an item typed [any].  Name and
    description are strings; the other fields hold whatever JSON value the
    item has under the name, [None] being [undefined]. *)
Record RawProduct : Type := mkRaw {
  raw_name : string;
  raw_description : string;
  raw_plant_part : option json;
  raw_industry : option json;
  raw_source_url : string;
  raw_benefits : option json;
  raw_technical_specs : option json;
  raw_keywords : option json
}.

(** An element of [ScrapeResult.products] at run time: an object of the
    declared type, or one built from JSON whose fields may be of any type. *)
Inductive Scraped : Type :=
| Typed (product : HempProduct)
| Untyped (raw : RawProduct).

Inductive SourceType : Type := html | csv | json_t | pdf.

Record DataSource : Type := mkSource {
  url : string;
  type : SourceType;
  score : float;
  license : option string
}.

Record HarvestRunResult : Type := mkResult {
  products_found : nat;
  products_saved : nat;
  companies_saved : nat;
  duplicates_skipped : nat;
  errors : list string;
  duration_ms : Z
}.

Record Company : Type := mkCompany {
  name : string;
  website : option string;
  company_description : option string;
  primary_focus : option string
}.

(* ===================================================================== *)
(** ** Values read from JSON                                               *)
(* ===================================================================== *)

Module Json.
Import JS.

(** The [TypeError]s the code can run into on such values. *)
Inductive TypeError : Type :=
| NotPrimitive                   (* no string form: the object has a member toString *)
| NullToObject                   (* Object.keys(null) *)
| NotAFunction (callee : string) (* a call of what is not a function *)
| UndefinedRead (property : string). (* a property of null or undefined *)

(** How an evaluation ends. *)
Inductive Completion (A : Type) : Type :=
| Normal (value : A)
| Throws (error : TypeError).
Arguments Normal {A} value.
Arguments Throws {A} error.

Definition bind {A B} (m : Completion A) (k : A -> Completion B) : Completion B :=
  match m with
  | Normal a => k a
  | Throws e => Throws e
  end.

(** JavaScript truthiness; [None] is [undefined]. *)
Definition truthy (v : option json) : bool :=
  match v with
  | None | Some JNull => false
  | Some (JBool b) => b
  | Some (JNum z) => negb (z =? 0)%Z
  | Some (JStr s) => negb (isEmpty s)
  | Some (JArr _) | Some (JObj _) => true
  end.

(** [a || b] *)
Definition por (a b : option json) : option json := if truthy a then a else b.

(** The member of an object under a name: the last one, when the text gives
    the name more than once. *)
Definition member (props : list (string * json)) (key : string) : option json :=
  option_map snd (find (fun kv => String.eqb (fst kv) key) (rev props)).

(** [item.key], for the names the code reads (none of them is a property of
    [Object.prototype] or [Array.prototype]). *)
Definition prop (item : json) (key : string) : option json :=
  match item with
  | JObj props => member props key
  | _ => None
  end.

(** An array index: the decimal numeral, without leading zero, of an integer
    below 2^32 - 1. *)
Definition arrayIndex (key : string) : option N :=
  match key with
  | EmptyString => None
  | String c rest =>
      if sall isDigit key && (isEmpty rest || negb (Ascii.eqb c "0"))
         && (String.length key <=? 10)%nat
      then
        let n := fold_left (fun acc d => (acc * 10 + (code d - 48))%N)
                           (list_ascii_of_string key) 0%N in
        if (n <? 4294967295)%N then Some n else None
      else None
  end.

Fixpoint insertIndex (k : N * string) (ks : list (N * string)) : list (N * string) :=
  match ks with
  | [] => [k]
  | k' :: rest => if (fst k <=? fst k')%N then k :: ks else k' :: insertIndex k rest
  end.

(** [Object.keys(obj)]: the array indices in ascending order, then the other
    names in the order of their first appearance. *)
Definition ownKeys (props : list (string * json)) : list string :=
  let names := uniq (map fst props) in
  let indices := flat_map (fun k => match arrayIndex k with
                                    | Some n => [(n, k)]
                                    | None => []
                                    end) names in
  map snd (fold_right insertIndex [] indices)
  ++ List.filter (fun k => match arrayIndex k with Some _ => false | None => true end) names.

Definition decimal (a : Z) : string := NilZero.string_of_int (Z.to_int a).

(** The binary64 number nearest to the integer [a >= 0], ties to even, as an
    integer; [None] is [Infinity]. *)
Definition nearestDouble (a : Z) : option Z :=
  (if a <? 2 ^ 53 then Some a
   else
     let shift := Z.log2 a - 52 in
     let q := Z.shiftr a shift in
     let rest := a - Z.shiftl q shift in
     let half := Z.shiftl 1 (shift - 1) in
     let q' := if (half <? rest) || ((rest =? half) && Z.odd q) then q + 1 else q in
     let d := Z.shiftl q' shift in
     if d <? 2 ^ 1024 then Some d else None)%Z.

Definition readsAs (d v : Z) : bool :=
  match nearestDouble v with
  | Some d' => (d' =? d)%Z
  | None => false
  end.

(** The [s] of [k] digits for which [s * 10^(n-k)] reads as [d], if there is
    one: of two the nearer to [d], and the even one when they are equally
    near. *)
Definition digitsOf (d n k : Z) : option Z :=
  (let unit := 10 ^ (n - k) in
   let lo := d / unit in
   let hi := lo + 1 in
   let fits s := (10 ^ (k - 1) <=? s) && (s <? 10 ^ k) && readsAs d (s * unit) in
   match fits lo, fits hi with
   | true, true =>
       if d - lo * unit <? hi * unit - d then Some lo
       else if hi * unit - d <? d - lo * unit then Some hi
       else Some (if Z.even lo then lo else hi)
   | true, false => Some lo
   | false, true => Some hi
   | false, false => None
   end)%Z.

(** The least number of digits [k] that identifies [d], from [k] upwards. *)
Fixpoint shortest (fuel : nat) (d n k : Z) : Z * Z :=
  match fuel with
  | O => (d, n)
  | S fuel' =>
      match digitsOf d n k with
      | Some s => (s, k)
      | None => shortest fuel' d n (k + 1)%Z
      end
  end.

Fixpoint zeros (n : nat) : string :=
  match n with
  | O => EmptyString
  | S n' => String "0" (zeros n')
  end.

(** [String(x)] for the number [x] an integer literal [z] is read as
    (Number::toString): the shortest digits that identify [x], written out
    when the number has at most 21 digits and with an exponent otherwise. *)
Definition numberToString (z : Z) : string :=
  if (z =? 0)%Z then "0"
  else
    let sign := if (z <? 0)%Z then "-" else EmptyString in
    match nearestDouble (Z.abs z) with
    | None => sign +:+ "Infinity"
    | Some d =>
        let n0 := Z.of_nat (String.length (decimal d)) in
        let '(s, k, n) :=
          match digitsOf d (n0 + 1) 1 with
          | Some s => (s, 1%Z, (n0 + 1)%Z)
          | None => let (s, k) := shortest (Z.to_nat n0) d n0 1 in (s, k, n0)
          end in
        sign +:+
        (if (n <=? 21)%Z then decimal s +:+ zeros (Z.to_nat (n - k))
         else match decimal s with
              | String c EmptyString => String c ("e+" +:+ decimal (n - 1))
              | String c rest => String c ("." +:+ rest +:+ "e+" +:+ decimal (n - 1))
              | EmptyString => EmptyString
              end)
    end.

(** [String(v)], which is also what a template literal, [RegExp.test] and
    [v + ' '] make of [v].  An object with a member [toString] has no string
    form ([None]: the conversion throws a [TypeError]), as the member, not
    being a function, hides [Object.prototype.toString]. *)
Fixpoint toStr (v : json) : option string :=
  match v with
  | JNull => Some "null"
  | JBool true => Some "true"
  | JBool false => Some "false"
  | JNum z => Some (numberToString z)
  | JStr s => Some s
  | JArr items =>
      option_map (join ",")
        ((fix each (es : list json) : option (list string) :=
            match es with
            | [] => Some []
            | e :: es' =>
                match match e with JNull => Some EmptyString | _ => toStr e end, each es' with
                | Some t, Some ts => Some (t :: ts)
                | _, _ => None
                end
            end) items)
  | JObj props =>
      match member props "toString" with
      | Some _ => None
      | None => Some "[object Object]"
      end
  end.

Definition toStrOpt (v : option json) : option string :=
  match v with
  | None => Some "undefined"
  | Some j => toStr j
  end.

(** A field declared [string]. *)
Definition asString (v : option json) : option string :=
  match v with
  | Some (JStr s) => Some s
  | _ => None
  end.

Fixpoint allStrings (items : list json) : option (list string) :=
  match items with
  | [] => Some []
  | JStr s :: rest => option_map (cons s) (allStrings rest)
  | _ :: _ => None
  end.

(** A field declared [string[] | undefined]: the outer option is the typing,
    the inner one the value. *)
Definition asStringList (v : option json) : option (option (list string)) :=
  match v with
  | None | Some JNull => Some None
  | Some (JArr items) => option_map Some (allStrings items)
  | Some _ => None
  end.

End Json.

(* ===================================================================== *)
(** ** [DataProcessor] ([src/modules/DataProcessor.ts])                    *)
(* ===================================================================== *)

Module DataProcessor.
Import JS Regex Json.

Record ProcessResult : Type := mkProcessResult {
  unique : list HempProduct;
  duplicates : nat
}.

Definition validPlantParts : list string :=
  ["seed"; "seeds"; "fiber"; "fibre"; "flower"; "leaves"; "leaf";
   "stem"; "stalk"; "hurds"; "hurd"; "roots"; "root"; "oil";
   "whole plant"; "biomass"; "sprouts"; "extract"].

Definition isValidPlantPart (plantPartLower : string) : bool :=
  some (fun part => includes plantPartLower part || includes part plantPartLower)
       validPlantParts.

Definition isValidProduct (product : HempProduct) : bool :=
  let name := product_name product in
  let desc := description product in
  if isNumeric name then false
  else if isNumeric (plant_part product) then false
  else if isEmpty name || (String.length name <? 3)%nat then false
  else if (isEmpty desc || String.eqb (trim desc) "") && (String.length name <? 5)%nat
  then false
  else
    let lowerName := toLowerCase name in
    let lowerDesc := toLowerCase desc in
    if negb (includes lowerName "hemp") && negb (includes lowerName "cannabis")
       && negb (includes lowerName "cbd") && negb (includes lowerDesc "hemp")
    then false
    else if isEmpty (industry product) || String.eqb (industry product) "Other"
            || isNumeric (industry product)
    then false
    else if negb (isValidPlantPart (toLowerCase (plant_part product))) then false
    else if negb (isEmpty (source_url product))
            && includes (source_url product) "gist.github"
    then (if isEmpty desc || (String.length desc <? 20)%nat then false else true)
    else true.

(** [/^[\s\-...]+/]: white space and the hyphen (the bullet and the long
    dashes of the source are not code units of the model). *)
Definition isLeadingDecoration (c : ascii) : bool :=
  isSpace c || Ascii.eqb c "-".

Definition cleanText (text : string) : string :=
  trim (dropWhile isLeadingDecoration
          (sfilter (fun c => negb (isControl c))
             (collapseSpaces (trim text)))).

(** [word.charAt(0).toUpperCase() + word.slice(1)] *)
Definition capitalize (word : string) : string :=
  match word with
  | EmptyString => EmptyString
  | String c rest =>
      if isSharpS c then String "S" (String "S" rest) else String (upperChar c) rest
  end.

Definition normalizeText (text : string) : string :=
  join " " (map capitalize (splitChar " " (toLowerCase (cleanText text)))).

(** The text handed to the digest. *)
Definition hashKey (product : HempProduct) : string :=
  removeSpaces
    (toLowerCase (product_name product +:+ "|" +:+ plant_part product +:+ "|"
                  +:+ industry product)).

Definition generateHash (product : HempProduct) : string :=
  Sha256.sha256_hex (hashKey product).

Definition stopWords : list string :=
  ["the"; "a"; "an"; "and"; "or"; "but"; "in"; "on"; "at"; "to"; "for";
   "of"; "with"; "by"; "from"; "as"; "is"; "was"; "are"; "were"; "been";
   "be"; "have"; "has"; "had"; "do"; "does"; "did"; "will"; "would";
   "could"; "should"; "may"; "might"; "must"; "shall"; "can"; "cannot"].

Definition isStopWord (w : string) : bool := existsb (String.eqb w) stopWords.

Definition extractKeywords (product : HempProduct) : list string :=
  let text := product_name product +:+ " " +:+ description product +:+ " "
              +:+ plant_part product +:+ " " +:+ industry product in
  let words := splitRuns (fun c => negb (isWord c)) (toLowerCase text) in
  let keywords :=
    uniq (List.filter (fun word => (3 <? String.length word)%nat && negb (isStopWord word)) words) in
  firstn 20 keywords.

Definition cleanProduct (product : HempProduct) : HempProduct :=
  {| product_name := cleanText (product_name product);
     plant_part := normalizeText (plant_part product);
     industry := normalizeText (industry product);
     description := cleanText (description product);
     source_url := source_url product;
     benefits := option_map (map cleanText) (benefits product);
     technical_specs := technical_specs product;
     sustainability_aspects := option_map (map cleanText) (sustainability_aspects product);
     keywords := Some (extractKeywords product) |}.

Definition notDotSemicolon (c : ascii) : bool :=
  negb (Ascii.eqb c "." || Ascii.eqb c ";").

(** [word] followed by an optional [s], as in [benefits?]. *)
Definition plural (word : string) : re := Seq (Lit word) (Opt (Lit "s")).

Definition benefitPatterns : list re :=
  [ seqs [alts [plural "benefit"; plural "advantage"];
          Star isSpace; Opt (Lit ":"); Star isSpace; Group 1 (Plus notDotSemicolon)];
    seqs [alts [plural "help"; plural "provide"; plural "offer"];
          Plus isSpace; Group 1 (Plus notDotSemicolon)];
    seqs [alts [plural "reduce"; plural "improve"; plural "increase"];
          Plus isSpace; Group 1 (Plus notDotSemicolon)] ].

Definition extractBenefits (text : string) : list string :=
  uniq (flat_map
          (fun pattern =>
             flat_map (fun m => match group 1 m with
                                | Some g => if isEmpty g then [] else [cleanText g]
                                | None => []
                                end)
                      (matchAll pattern text))
          benefitPatterns).

Definition sustainKeywords : list string :=
  ["sustainable"; "renewable"; "biodegradable"; "eco-friendly";
   "carbon negative"; "recyclable"; "compostable"; "organic";
   "low impact"; "green"; "environmental"].

Definition isSentenceEnd (c : ascii) : bool :=
  Ascii.eqb c "." || Ascii.eqb c "!" || Ascii.eqb c "?".

Definition extractSustainability (text : string) : list string :=
  let lower := toLowerCase text in
  uniq (flat_map
          (fun keyword =>
             if includes lower keyword then
               match find (fun sentence => includes (toLowerCase sentence) keyword)
                          (splitRuns isSentenceEnd text) with
               | Some sentence => [cleanText sentence]
               | None => []
               end
             else [])
          sustainKeywords).

Definition absentOrEmpty (xs : option (list string)) : bool :=
  match xs with
  | None => true
  | Some [] => true
  | Some (_ :: _) => false
  end.

Definition enrichProduct (product : HempProduct) : HempProduct :=
  {| product_name := product_name product;
     plant_part := plant_part product;
     industry := industry product;
     description := description product;
     source_url := source_url product;
     benefits := if absentOrEmpty (benefits product)
                 then Some (extractBenefits (description product))
                 else benefits product;
     technical_specs := technical_specs product;
     sustainability_aspects :=
       if absentOrEmpty (sustainability_aspects product)
       then Some (extractSustainability (description product))
       else sustainability_aspects product;
     keywords := Some (extractKeywords product) |}.

(** The state of one [DataProcessor] object is its [seenHashes] field. *)
Record LoopState : Type := mkLoop {
  seenHashes : gset string;
  acc_unique : list HempProduct;
  acc_duplicates : nat;
  acc_invalid : nat
}.

(** One iteration of the [for] loop of [process]. *)
Definition processOne (st : LoopState) (product : HempProduct) : LoopState :=
  if negb (isValidProduct product) then
    mkLoop (seenHashes st) (acc_unique st) (acc_duplicates st) (S (acc_invalid st))
  else
    let cleaned := cleanProduct product in
    let hash := generateHash cleaned in
    if bool_decide (hash ∈ seenHashes st) then
      mkLoop (seenHashes st) (acc_unique st) (S (acc_duplicates st)) (acc_invalid st)
    else
      mkLoop ({[hash]} ∪ seenHashes st) (acc_unique st ++ [enrichProduct cleaned])
             (acc_duplicates st) (acc_invalid st).

(** [process(products)] run on a processor whose [seenHashes] is [seen]:
    the result and the [seenHashes] it leaves behind. *)
Definition process (seen : gset string) (products : list HempProduct)
  : ProcessResult * gset string :=
  let st := fold_left processOne products (mkLoop seen [] 0 0) in
  (mkProcessResult (acc_unique st) (acc_duplicates st), seenHashes st).

(** Successive calls of [process] on one processor. *)
Fixpoint processAll (seen : gset string) (batches : list (list HempProduct))
  : list ProcessResult :=
  match batches with
  | [] => []
  | b :: rest => let (r, seen') := process seen b in r :: processAll seen' rest
  end.

(** What the loop body makes of an object: rejected by [isValidProduct],
    a [TypeError] on the way, or validated and cleaned like the typed
    record given. *)
Inductive Verdict : Type :=
| Invalid
| Raises (error : TypeError)
| Valid (product : HempProduct).

(** [product.benefits?.map(b => this.cleanText(b))] on an arbitrary value:
    the list to clean, or the error of the first call that fails. *)
Fixpoint benefitTexts (items : list json) : Completion (list string) :=
  match items with
  | [] => Normal []
  | JStr b :: rest => bind (benefitTexts rest) (fun bs => Normal (b :: bs))
  | JNull :: _ => Throws (UndefinedRead "trim")
  | _ :: _ => Throws (NotAFunction "text.trim")
  end.

Definition rawBenefits (v : option json) : Completion (option (list string)) :=
  match v with
  | None | Some JNull => Normal None
  | Some (JArr items) => bind (benefitTexts items) (fun bs => Normal (Some bs))
  | Some _ => Throws (NotAFunction "product.benefits?.map")
  end.

(** [v === 'Other'] *)
Definition isOther (v : option json) : bool :=
  match v with
  | Some (JStr s) => String.eqb s "Other"
  | _ => false
  end.

(** [isValidProduct(product)] followed by [cleanProduct(product)] on an
    object whose fields hold arbitrary JSON values, test by test in the
    order of the code.  [RegExp.test] and the template literals convert
    their argument to a string; [toLowerCase], [trim] and [map] are called
    as methods and exist on strings (on arrays, for [map]) only.  The
    keywords the object came with are never read. *)
Definition examine (raw : RawProduct) : Verdict :=
  let name := raw_name raw in
  let desc := raw_description raw in
  if isNumeric name then Invalid
  else
    match toStrOpt (raw_plant_part raw) with
    | None => Raises NotPrimitive
    | Some partText =>
        if isNumeric partText then Invalid
        else if isEmpty name || (String.length name <? 3)%nat then Invalid
        else if (isEmpty desc || String.eqb (trim desc) "") && (String.length name <? 5)%nat
        then Invalid
        else if negb (includes (toLowerCase name) "hemp")
                && negb (includes (toLowerCase name) "cannabis")
                && negb (includes (toLowerCase name) "cbd")
                && negb (includes (toLowerCase desc) "hemp")
        then Invalid
        else if negb (truthy (raw_industry raw)) || isOther (raw_industry raw) then Invalid
        else
          match toStrOpt (raw_industry raw) with
          | None => Raises NotPrimitive
          | Some industryText =>
              if isNumeric industryText then Invalid
              else
                match raw_plant_part raw with
                | Some (JStr part) =>
                    if negb (isValidPlantPart (toLowerCase part)) then Invalid
                    else if negb (isEmpty (raw_source_url raw))
                            && includes (raw_source_url raw) "gist.github"
                            && (isEmpty desc || (String.length desc <? 20)%nat)
                    then Invalid
                    else
                      match raw_industry raw with
                      | Some (JStr ind) =>
                          match rawBenefits (raw_benefits raw) with
                          | Normal benefits' =>
                              Valid {| product_name := name;
                                       plant_part := part;
                                       industry := ind;
                                       description := desc;
                                       source_url := raw_source_url raw;
                                       benefits := benefits';
                                       technical_specs := raw_technical_specs raw;
                                       sustainability_aspects := None;
                                       keywords := None |}
                          | Throws e => Raises e
                          end
                      | _ => Raises (NotAFunction "text.trim")
                      end
                | None | Some JNull => Raises (UndefinedRead "toLowerCase")
                | Some _ => Raises (NotAFunction "product.plant_part.toLowerCase")
                end
          end
    end.

(** One iteration of the loop of [process] on an element of the array it is
    given at run time. *)
Definition processScrapedOne (st : LoopState) (item : Scraped) : Completion LoopState :=
  match item with
  | Typed product => Normal (processOne st product)
  | Untyped raw =>
      match examine raw with
      | Invalid =>
          Normal (mkLoop (seenHashes st) (acc_unique st) (acc_duplicates st)
                         (S (acc_invalid st)))
      | Raises e => Throws e
      | Valid product => Normal (processOne st product)
      end
  end.

(** The loop: a [TypeError] ends it, and the hashes added so far stay in
    [seenHashes]. *)
Fixpoint processLoop (st : LoopState) (items : list Scraped)
  : Completion ProcessResult * gset string :=
  match items with
  | [] => (Normal (mkProcessResult (acc_unique st) (acc_duplicates st)), seenHashes st)
  | item :: rest =>
      match processScrapedOne st item with
      | Normal st' => processLoop st' rest
      | Throws e => (Throws e, seenHashes st)
      end
  end.

(** [process(products)] on what [scrape] returns, run on a processor whose
    [seenHashes] is [seen]: how the call ends and the [seenHashes] it
    leaves behind. *)
Definition processScraped (seen : gset string) (items : list Scraped)
  : Completion ProcessResult * gset string :=
  processLoop (mkLoop seen [] 0 0) items.

Definition isLetter (c : ascii) : bool := isUpper c || isLower c.

(** [[\w\s&-]] *)
Definition isNameChar (c : ascii) : bool :=
  isWord c || isSpace c || Ascii.eqb c "&" || Ascii.eqb c "-".

(** [[A-Z][\w\s&-]+] under the flag [i]. *)
Definition companyNameRe : re := Seq (Cls isLetter) (Plus isNameChar).

(** [inc\.?] *)
Definition dotted (word : string) : re := Seq (Lit word) (Opt (Lit ".")).

Definition isCopyrightSign (c : ascii) : bool := (code c =? 169)%N.

Definition companyPatterns : list re :=
  [ seqs [alts [Lit "manufactured by"; Lit "produced by"; Lit "made by"; Lit "from"];
          Plus isSpace; Group 1 companyNameRe];
    seqs [Group 1 companyNameRe; Plus isSpace;
          alts [Lit "brand"; Lit "company"; Lit "corporation";
                dotted "inc"; dotted "ltd"; Lit "llc"]];
    seqs [Cls isCopyrightSign; Star isSpace;
          Opt (Group 1 (Seq (Rep 4 isDigit) (Plus isSpace)));
          Group 2 companyNameRe] ].

(** [match[2] || match[1]] *)
Definition capturedName (m : captures) : option string :=
  match group 2 m with
  | Some g => if isEmpty g then group 1 m else Some g
  | None => group 1 m
  end.

Definition companiesOf (product : HempProduct) : list Company :=
  let text := description product +:+ " " +:+ source_url product in
  flat_map
    (fun pattern =>
       flat_map
         (fun m =>
            match capturedName m with
            | Some g =>
                let companyName := cleanText g in
                if negb (isEmpty companyName) && (2 <? String.length companyName)%nat
                then [mkCompany companyName None None (Some (industry product))]
                else []
            | None => []
            end)
         (matchAll pattern text))
    companyPatterns.

(** The local [Map] keyed by the lower-cased name: first entry wins. *)
Fixpoint uniqueCompanies (keys : list string) (companies : list Company) : list Company :=
  match companies with
  | [] => []
  | c :: rest =>
      let key := toLowerCase (name c) in
      if existsb (String.eqb key) keys then uniqueCompanies keys rest
      else c :: uniqueCompanies (key :: keys) rest
  end.

Definition extractCompanies (products : list HempProduct) : list Company :=
  uniqueCompanies [] (flat_map companiesOf products).

End DataProcessor.

(* ===================================================================== *)
(** ** [Scraper] ([src/modules/Scraper.ts])                                *)
(* ===================================================================== *)

Module Scraper.
Import JS Json.

(** The double quote and the comma of the CSV format. *)
Definition dquote : ascii := ascii_of_N 34.
Definition comma : ascii := ascii_of_N 44.

(** The [for] loop of [parseCSVLine]; [line] is what remains to be read.
    Reading a quote inside quotes with a quote as next character appends
    one quote and skips that next character. *)
Fixpoint parseCSVLoop (result : list string) (current : string) (inQuotes : bool)
         (line : string) : list string :=
  match line with
  | EmptyString => result ++ [trim current]
  | String char rest =>
      if Ascii.eqb char dquote then
        match rest with
        | String nextChar rest' =>
            if inQuotes && Ascii.eqb nextChar dquote
            then parseCSVLoop result (current +:+ String dquote EmptyString) inQuotes rest'
            else parseCSVLoop result current (negb inQuotes) rest
        | EmptyString => parseCSVLoop result current (negb inQuotes) rest
        end
      else if Ascii.eqb char comma && negb inQuotes then
        parseCSVLoop (result ++ [trim current]) EmptyString inQuotes rest
      else parseCSVLoop result (current +:+ String char EmptyString) inQuotes rest
  end.

Definition parseCSVLine (line : string) : list string :=
  parseCSVLoop [] EmptyString false line.

Definition isHempProduct (text : string) : bool :=
  let lower := toLowerCase text in
  some (fun keyword => includes lower keyword)
       ["hemp"; "fiber"; "seed"; "oil"; "cbd"; "cannabinoid"; "industrial"].

Definition extractPlantPart (text : string) : string :=
  let lower := toLowerCase text in
  if includes lower "seed" then "seed"
  else if includes lower "fiber" || includes lower "fibre" then "fiber"
  else if includes lower "flower" || includes lower "bud" then "flower"
  else if includes lower "leaf" || includes lower "leaves" then "leaf"
  else if includes lower "root" then "root"
  else if includes lower "stem" || includes lower "stalk" then "stem"
  else if includes lower "oil" then "seed"
  else if includes lower "whole plant" then "whole plant"
  else "unspecified".

Definition extractIndustry (text : string) : string :=
  let lower := toLowerCase text in
  if includes lower "food" || includes lower "nutrition" then "Food & Nutrition"
  else if includes lower "textile" || includes lower "fabric" || includes lower "clothing"
  then "Textiles"
  else if includes lower "construction" || includes lower "building" then "Construction"
  else if includes lower "automotive" || includes lower "car" then "Automotive"
  else if includes lower "cosmetic" || includes lower "beauty" then "Cosmetics"
  else if includes lower "pharmaceutical" || includes lower "medicine" then "Pharmaceutical"
  else if includes lower "paper" || includes lower "pulp" then "Paper"
  else if includes lower "plastic" || includes lower "bioplastic" then "Bioplastics"
  else if includes lower "energy" || includes lower "fuel" then "Energy"
  else "Other".

(** [parseJSONItem(item, sourceUrl)]; [Normal None] is [null].  [String(name)]
    and [String(description)] throw when the value has no string form. *)
Definition parseJSONItem (item : json) (sourceUrl : string)
  : Completion (option RawProduct) :=
  match item with
  | JObj _ | JArr _ =>
      let name := por (prop item "product")
                      (por (prop item "name") (por (prop item "title") (prop item "item"))) in
      let description :=
        por (prop item "description")
            (por (prop item "details") (por (prop item "use") (Some (JStr EmptyString)))) in
      if negb (truthy name) then Normal None
      else
        match toStrOpt name, toStrOpt description with
        | Some nameText, Some descriptionText =>
            let text := nameText +:+ " " +:+ descriptionText in
            Normal
              (Some
                 {| raw_name := nameText;
                    raw_description := descriptionText;
                    raw_plant_part :=
                      por (prop item "plant_part")
                          (por (prop item "part") (Some (JStr (extractPlantPart text))));
                    raw_industry :=
                      por (prop item "industry")
                          (por (prop item "sector") (Some (JStr (extractIndustry text))));
                    raw_source_url := sourceUrl;
                    raw_benefits := por (prop item "benefits") (prop item "advantages");
                    raw_technical_specs := por (prop item "specifications") (prop item "specs");
                    raw_keywords := por (prop item "keywords") (prop item "tags") |})
        | _, _ => Throws NotPrimitive
        end
  | _ => Normal None
  end.

(** [for (const item of items) { const product = this.parseJSONItem(item, url);
    if (product) products.push(product); }] *)
Fixpoint parseItems (items : list json) (url : string) : Completion (list RawProduct) :=
  match items with
  | [] => Normal []
  | item :: rest =>
      bind (parseJSONItem item url) (fun parsed =>
      bind (parseItems rest url) (fun products =>
      Normal (match parsed with
              | Some product => product :: products
              | None => products
              end)))
  end.

(** The part of [scrapeJSON] that follows the download: [data] is the parsed
    response body.  [typeof null] is ['object'], so a [null] body reaches
    [Object.keys], which throws. *)
Definition scrapeJSONData (data : json) (url : string) : Completion (list RawProduct) :=
  match data with
  | JArr items => parseItems items url
  | JNull => Throws NullToObject
  | JObj props =>
      parseItems (flat_map (fun key => match member props key with
                                       | Some (JArr items) => items
                                       | _ => []
                                       end) (ownKeys props)) url
  | _ => Normal []
  end.

(** The [products] that [scrape(source)] returns for a source of type
    ['json'] whose response body is [data]: when [scrapeJSON] throws, the
    [catch] of [scrape] leaves the list empty. *)
Definition scrapeJSONSource (data : json) (url : string) : list Scraped :=
  match scrapeJSONData data url with
  | Normal raws => map Untyped raws
  | Throws _ => []
  end.

(** The object as a [HempProduct], when every field has the declared
    type. *)
Definition typedProduct (raw : RawProduct) : option HempProduct :=
  match asString (raw_plant_part raw), asString (raw_industry raw),
        asStringList (raw_benefits raw), asStringList (raw_keywords raw) with
  | Some part, Some ind, Some benefits', Some keywords' =>
      Some {| product_name := raw_name raw;
              description := raw_description raw;
              plant_part := part;
              industry := ind;
              source_url := raw_source_url raw;
              benefits := benefits';
              technical_specs := raw_technical_specs raw;
              sustainability_aspects := None;
              keywords := keywords' |}
  | _, _, _, _ => None
  end.

Fixpoint allTyped (raws : list RawProduct) : option (list HempProduct) :=
  match raws with
  | [] => Some []
  | raw :: rest =>
      match typedProduct raw, allTyped rest with
      | Some p, Some ps => Some (p :: ps)
      | _, _ => None
      end
  end.

(** The products, when the scrape returns and every object has the declared
    type. *)
Definition typedProducts (scraped : Completion (list RawProduct))
  : option (list HempProduct) :=
  match scraped with
  | Normal raws => allTyped raws
  | Throws _ => None
  end.

(** [text.split(/[-:...]/)]: the hyphen and the colon (the long dashes of
    the source are not code units of the model). *)
Definition isNameSeparator (c : ascii) : bool :=
  Ascii.eqb c "-" || Ascii.eqb c ":".

Definition parseTextToProduct (text sourceUrl : string) : option HempProduct :=
  let parts := splitAt isNameSeparator text in
  let name := trim (hd EmptyString parts) in
  let description := trim (join " " (tl parts)) in
  if isEmpty name || (String.length name <? 3)%nat then None
  else Some {| product_name := name;
               description := if isEmpty description then name else description;
               plant_part := extractPlantPart text;
               industry := extractIndustry text;
               source_url := sourceUrl;
               benefits := None;
               technical_specs := None;
               sustainability_aspects := None;
               keywords := None |}.

Definition newline : ascii := ascii_of_N 10.

(** [line => line.trim()] as a filter: the lines that are not blank. *)
Definition nonBlank (line : string) : bool := negb (isEmpty (trim line)).

(** The column indices [scrapeCSV] looks up in the header row. *)
Record CsvColumns : Type := mkColumns {
  nameIdx : option nat;
  descIdx : option nat;
  partIdx : option nat;
  industryIdx : option nat;
  benefitsIdx : option nat;
  sourceIdx : option nat
}.

Definition columnsOf (headers : list string) : CsvColumns :=
  {| nameIdx := findIndex (fun h => includes h "product" || includes h "name") headers;
     descIdx := findIndex (fun h => includes h "description" || includes h "use") headers;
     partIdx := findIndex (fun h => includes h "part" || includes h "component") headers;
     industryIdx := findIndex (fun h => includes h "industry" || includes h "sector") headers;
     benefitsIdx := findIndex (fun h => includes h "benefit") headers;
     sourceIdx := findIndex (fun h => includes h "source" || includes h "url") headers |}.

(** [(idx >= 0 ? cells[idx] : '')]; a cell that does not exist is
    [undefined], which [||] treats like the empty string. *)
Definition cellAt (cells : list string) (idx : option nat) : string :=
  match idx with
  | Some i => nth i cells EmptyString
  | None => EmptyString
  end.

(** [s || fallback] on strings. *)
Definition orElse (s fallback : string) : string :=
  if isEmpty s then fallback else s.

(** The body of the loop over the data rows of [scrapeCSV]. *)
Definition parseCSVRow (cols : CsvColumns) (url line : string) : option HempProduct :=
  let cells := parseCSVLine line in
  match nameIdx cols with
  | Some n =>
      if (n <? length cells)%nat && negb (isEmpty (nth n cells EmptyString)) then
        Some {| product_name := orElse (nth n cells EmptyString) "Unknown";
                description := orElse (cellAt cells (descIdx cols)) EmptyString;
                plant_part := orElse (cellAt cells (partIdx cols)) (extractPlantPart line);
                industry := orElse (cellAt cells (industryIdx cols)) (extractIndustry line);
                source_url := orElse (cellAt cells (sourceIdx cols)) url;
                benefits :=
                  if isEmpty (cellAt cells (benefitsIdx cols)) then None
                  else Some (List.filter (fun b => negb (isEmpty b))
                               (map trim (splitChar comma (cellAt cells (benefitsIdx cols)))));
                technical_specs := None;
                sustainability_aspects := None;
                keywords := None |}
      else None
  | None => None
  end.

(** The part of [scrapeCSV] that follows the download or the reading of the
    file: [data] is the text of the CSV file. *)
Definition scrapeCSVData (data url : string) : list HempProduct :=
  let lines := List.filter nonBlank (splitChar newline data) in
  if (length lines <? 2)%nat then []
  else
    let cols := columnsOf (parseCSVLine (toLowerCase (hd EmptyString lines))) in
    flat_map (fun line => match parseCSVRow cols url line with
                          | Some product => [product]
                          | None => []
                          end)
             (tl lines).

End Scraper.

(* ===================================================================== *)
(** ** Configuration ([src/config.ts])                                     *)
(* ===================================================================== *)

Module Config.
Local Open Scope float_scope.

Record ScoringWeights : Type := mkWeights {
  datasetSize : float;
  licenseWeight : float;
  structure : float;
  freshness : float
}.

Definition scoringWeights : ScoringWeights :=
  {| datasetSize := 0.3; licenseWeight := 0.2; structure := 0.3; freshness := 0.2 |}.

Definition minScoreThreshold : float := 0.6.

Definition batchSize : nat := 500.
End Config.

(* ===================================================================== *)
(** ** [Discovery] ([src/modules/Discovery.ts])                            *)
(* ===================================================================== *)

Module Discovery.
Import JS.
Local Open Scope float_scope.

Definition openLicenses : list string :=
  ["mit"; "apache"; "gpl"; "bsd"; "cc-by"; "cc0"; "public domain";
   "unlicense"; "creative commons"; "open data"; "open government"].

Definition isOpenLicense (license : string) : bool :=
  let lower := toLowerCase license in
  some (fun open => includes lower open) openLicenses.

(** [source.license && this.isOpenLicense(source.license)] *)
Definition hasOpenLicense (source : DataSource) : bool :=
  match license source with
  | Some l => negb (isEmpty l) && isOpenLicense l
  | None => false
  end.

Definition isOfficial (source : DataSource) : bool :=
  includes (url source) ".gov" || includes (url source) ".org".

Definition isGovernmentData (source : DataSource) : bool :=
  includes (url source) "usda" || includes (url source) "europa".

(** The body of the [map] callback of [scoreSources], statement by
    statement. *)
Definition scoreOf (weights : Config.ScoringWeights) (source : DataSource) : float :=
  let score := 0 in
  let score :=
    match type source with
    | csv | json_t => score + Config.structure weights * 1.0
    | html => score + Config.structure weights * 0.5
    | pdf => score + Config.structure weights * 0.3
    end in
  let score :=
    if hasOpenLicense source then score + Config.licenseWeight weights * 1.0
    else score + Config.licenseWeight weights * 0.5 in
  let score := if isOfficial source then score + 0.1 else score in
  let score := if isGovernmentData source then score + 0.15 else score in
  let score := score + Config.datasetSize weights * 0.5 in
  let score := score + Config.freshness weights * 0.5 in
  score.

Definition scoreSource (source : DataSource) : DataSource :=
  {| url := url source;
     type := type source;
     score := scoreOf Config.scoringWeights source;
     license := license source |}.

Definition scoreSources (sources : list DataSource) : list DataSource :=
  map scoreSource sources.

(** The comparator [(a, b) => b.score - a.score]. *)
Definition compareScore (a b : DataSource) : float := score b - score a.

(** [Array.prototype.sort] is stable; with this comparator it yields the
    stable arrangement by decreasing score.  [insertSorted x l] puts [x] in
    front of the first element it need not follow. *)
Fixpoint insertSorted (x : DataSource) (l : list DataSource) : list DataSource :=
  match l with
  | [] => [x]
  | y :: l' => if 0 <? compareScore x y then y :: insertSorted x l' else x :: l
  end.

Definition sortByScore (l : list DataSource) : list DataSource :=
  fold_right insertSorted [] l.

Definition viable (source : DataSource) : bool :=
  Config.minScoreThreshold <=? score source.

(** [findDataSources], from the candidates the strategies have gathered
    ([allSources]) on. *)
Definition findDataSources (allSources : list DataSource) : list DataSource :=
  let scoredSources := scoreSources allSources in
  let filteredSources := List.filter viable scoredSources in
  firstn 10 (sortByScore filteredSources).

End Discovery.

(* ===================================================================== *)
(** ** [DatabaseService] ([src/services/DatabaseService.ts])               *)
(* ===================================================================== *)

Module DatabaseService.

Record SaveResult : Type := mkSave {
  count : nat;
  save_errors : list string
}.

(** The answer of the hosted datastore to one request. *)
Inductive DbReply : Type :=
| Rows (n : nat)                (* no error; [data?.length || 0] is [n] *)
| Refused (message : string)    (* an [error] with this [message] *)
| Raised (error : string).      (* the call throws; [error] is its text *)

(** [products.slice(i, i + batchSize)] for [i = 0, batchSize, ...] *)
Fixpoint batchesOf {A} (fuel size : nat) (l : list A) : list (list A) :=
  match fuel, l with
  | _, [] => []
  | O, _ => []
  | S f, _ => firstn size l :: batchesOf f size (skipn size l)
  end.

Definition saveBatch (upsert : list HempProduct -> DbReply)
           (result : SaveResult) (batch : list HempProduct) : SaveResult :=
  match upsert batch with
  | Rows n => mkSave (count result + n) (save_errors result)
  | Refused message =>
      mkSave (count result) (save_errors result ++ ["Batch insert error: " +:+ message])
  | Raised error =>
      mkSave (count result) (save_errors result ++ ["Batch processing error: " +:+ error])
  end.

Definition saveProducts (upsert : list HempProduct -> DbReply)
           (products : list HempProduct) : SaveResult :=
  match products with
  | [] => mkSave 0 []
  | _ => fold_left (saveBatch upsert)
                   (batchesOf (length products) Config.batchSize products)
                   (mkSave 0 [])
  end.

Definition saveCompanies (upsert : list Company -> DbReply)
           (companies : list Company) : SaveResult :=
  match companies with
  | [] => mkSave 0 []
  | _ =>
      match upsert companies with
      | Rows n => mkSave n []
      | Refused message => mkSave 0 ["Company insert error: " +:+ message]
      | Raised error => mkSave 0 ["Company processing error: " +:+ error]
      end
  end.

End DatabaseService.

(* ===================================================================== *)
(** ** [DataHarvester] ([src/core/DataHarvester.ts])                       *)
(* ===================================================================== *)

Module DataHarvester.
Import DatabaseService.

Inductive RunStatus : Type := running | completed | failed.

(** The fields [updateRun] writes to the run's row. *)
Record RunUpdate : Type := mkUpdate {
  status : RunStatus;
  upd_products_found : option nat;
  upd_products_saved : option nat;
  upd_companies_saved : option nat;
  error_message : option string
}.

(** Everything outside the process that one run talks to.  A request that
    throws is [Some error] for the calls without a result and [inr error]
    for [createRun].  [scrape] gives the [products] of the [ScrapeResult]
    ([scrape] catches the errors of the scraping itself), and [errorText]
    the text the engine gives a [TypeError] under [String(error)]. *)
Record Env : Type := mkEnv {
  verifyConnection : bool;
  ensureSchema : option string;
  createRun : string -> string + string;
  discovered : list DataSource;
  scrape : DataSource -> list Scraped;
  upsertProducts : list HempProduct -> DbReply;
  upsertCompanies : list Company -> DbReply;
  updateRun : string -> RunUpdate -> option string;
  errorText : Json.TypeError -> string;
  startTime : Z;
  endTime : Z
}.

Inductive Outcome : Type :=
| Returned (result : HarvestRunResult)
| Threw (error : string).

(** What one call of [runOnce] leaves behind: how it ended, the updates of
    the run's row the datastore accepted, the records handed to
    [saveProducts], and the [seenHashes] of the harvester's processor. *)
Record Run : Type := mkRun {
  outcome : Outcome;
  updates : list RunUpdate;
  emitted : list HempProduct;
  seenAfter : gset string
}.

Record LoopState : Type := mkLoop {
  result : HarvestRunResult;
  seen : gset string;
  saved : list HempProduct
}.

(** The body of [for (const source of sources)], with its [try] and
    [catch].  Of the calls in the [try] block only [process] can throw
    ([scrape], [saveProducts] and [saveCompanies] catch their own errors):
    then the products found stay counted, the message goes to
    [result.errors], nothing of the source is saved, and the processor
    keeps the hashes it had added. *)
Definition harvestSource (env : Env) (st : LoopState) (source : DataSource) : LoopState :=
  let r := result st in
  let products := scrape env source in
  match DataProcessor.processScraped (seen st) products with
  | (Json.Normal processed, seen') =>
      let savedProducts :=
        saveProducts (upsertProducts env) (DataProcessor.unique processed) in
      let companies := DataProcessor.extractCompanies (DataProcessor.unique processed) in
      let savedCompanies := saveCompanies (upsertCompanies env) companies in
      mkLoop
        {| products_found := products_found r + length products;
           products_saved := products_saved r + count savedProducts;
           companies_saved := companies_saved r + count savedCompanies;
           duplicates_skipped := duplicates_skipped r + DataProcessor.duplicates processed;
           errors := errors r;
           duration_ms := duration_ms r |}
        seen'
        (saved st ++ DataProcessor.unique processed)
  | (Json.Throws error, seen') =>
      mkLoop
        {| products_found := products_found r + length products;
           products_saved := products_saved r;
           companies_saved := companies_saved r;
           duplicates_skipped := duplicates_skipped r;
           errors := errors r
                     ++ ["Failed to process " +:+ url source +:+ ": " +:+ errorText env error];
           duration_ms := duration_ms r |}
        seen'
        (saved st)
  end.

Definition emptyResult : HarvestRunResult :=
  {| products_found := 0; products_saved := 0; companies_saved := 0;
     duplicates_skipped := 0; errors := []; duration_ms := 0 |}.

Definition completedUpdate (r : HarvestRunResult) : RunUpdate :=
  {| status := completed;
     upd_products_found := Some (products_found r);
     upd_products_saved := Some (products_saved r);
     upd_companies_saved := Some (companies_saved r);
     error_message := match errors r with
                      | [] => None
                      | _ => Some (JS.join "; " (errors r))
                      end |}.

Definition failedUpdate (error : string) : RunUpdate :=
  {| status := failed;
     upd_products_found := None;
     upd_products_saved := None;
     upd_companies_saved := None;
     error_message := Some error |}.

(** [runOnce()] on a harvester whose processor has seen [seen0]. *)
Definition runOnce (env : Env) (seen0 : gset string) : Run :=
  if negb (verifyConnection env) then
    mkRun (Threw "Error: Failed to connect to Supabase") [] [] seen0
  else
    match ensureSchema env with
    | Some error => mkRun (Threw error) [] [] seen0
    | None =>
        match createRun env "DataHarvester-Bot" with
        | inr error => mkRun (Threw error) [] [] seen0
        | inl runId =>
            let sources := Discovery.findDataSources (discovered env) in
            let st := fold_left (harvestSource env) sources (mkLoop emptyResult seen0 []) in
            let r := result st in
            let final :=
              {| products_found := products_found r;
                 products_saved := products_saved r;
                 companies_saved := companies_saved r;
                 duplicates_skipped := duplicates_skipped r;
                 errors := errors r;
                 duration_ms := (endTime env - startTime env)%Z |} in
            match updateRun env runId (completedUpdate final) with
            | None => mkRun (Returned final) [completedUpdate final] (saved st) (seen st)
            | Some error =>
                match updateRun env runId (failedUpdate error) with
                | None => mkRun (Threw error) [failedUpdate error] (saved st) (seen st)
                | Some error' => mkRun (Threw error') [] (saved st) (seen st)
                end
            end
        end
    end.

(** A harvester is built with a fresh [DataProcessor]: nothing seen. *)
Definition newHarvester : gset string := ∅.

(** The runs the cron job of [runSchedule] starts, one after the other, on
    the harvester itself ([this.runOnce()]); [envs] gives the outside world
    at each of them. *)
Fixpoint scheduledRuns (seen0 : gset string) (envs : list Env) : list Run :=
  match envs with
  | [] => []
  | env :: rest =>
      let run := runOnce env seen0 in
      run :: scheduledRuns (seenAfter run) rest
  end.

(** [detectSourceType(url)] *)
Definition detectSourceType (url : string) : SourceType :=
  let lower := JS.toLowerCase url in
  if JS.endsWith lower ".csv" then csv
  else if JS.endsWith lower ".json" then json_t
  else if JS.endsWith lower ".pdf" then pdf
  else html.


End DataHarvester.

(* ===================================================================== *)
(** * Properties                                                           *)
(* ===================================================================== *)

(* --------------------------------------------------------------------- *)
(** *** The embedding on known values                                      *)
(* --------------------------------------------------------------------- *)

(** The test vectors of FIPS 180-4 for the empty message and for "abc". *)
Example sha256_empty :
  Sha256.sha256_hex ""
  = "e3b0c44298fc1c149afbf4c8996fb92427ae41e4649b934ca495991b7852b855".
Proof. vm_compute. reflexivity. Qed.

Example sha256_abc :
  Sha256.sha256_hex "abc"
  = "ba7816bf8f01cfea414140de5dae2223b00361a396177a9cb410ff61f20015ad".
Proof. vm_compute. reflexivity. Qed.

(** A message of two blocks. *)
Example sha256_two_blocks :
  Sha256.sha256_hex "abcdbcdecdefdefgefghfghighijhijkijkljklmklmnlmnomnopnopq"
  = "248d6a61d20638b8e5c026930c3e6039a33ce45964ff2167f6ecedd419db06c1".
Proof. vm_compute. reflexivity. Qed.

Example cleanText_example : DataProcessor.cleanText "  - -  hemp   seed  oil " = "hemp seed oil".
Proof. vm_compute. reflexivity. Qed.

Example normalizeText_example : DataProcessor.normalizeText "  whole   PLANT " = "Whole Plant".
Proof. vm_compute. reflexivity. Qed.

(** [benefits?] gives back its [s] when nothing else is left to capture. *)
Example extractBenefits_example :
  DataProcessor.extractBenefits "Benefits: strong, light. Helps soil; advantages."
  = ["strong, light"; "s"; "soil"].
Proof. vm_compute. reflexivity. Qed.

Example extractCompanies_example :
  map name
      (DataProcessor.extractCompanies
         [mkProduct "Hemp Rope" "Fiber" "Textiles" "Made by Acme Hemp Co. for Foo Bar Inc."
                    "https://example.org/a" None None None None])
  = ["Acme Hemp Co"; "for Foo Bar"].
Proof. vm_compute. reflexivity. Qed.

(** A public-domain CSV file of the USDA reaches the score 1 exactly; a page
    without licence or bonus has 0.5 and is not viable. *)
Example score_examples :
  map score
      (Discovery.scoreSources
         [mkSource "https://www.usda.gov/sites/default/files/documents/hemp-report.csv" csv 0
                   (Some "Public Domain");
          mkSource "https://hempindustrydaily.com/data/" html 0 None])
  = [1%float; 0.5%float].
Proof. vm_compute. reflexivity. Qed.

(** Case mapping on the accented letters of the range: [normalizeText] makes
    "Café Hemp" of "CAFÉ hemp" and "SSeta" of "ßeta". *)
Example case_examples :
  DataProcessor.normalizeText ("CAF" +:+ String (ascii_of_N 201) " hemp")
  = "Caf" +:+ String (ascii_of_N 233) " Hemp"
  ∧ DataProcessor.normalizeText (String (ascii_of_N 223) "eta") = "SSeta"
  ∧ JS.toLowerCase (String (ascii_of_N 215) (String (ascii_of_N 222) "Z"))
    = String (ascii_of_N 215) (String (ascii_of_N 254) "z").
Proof. vm_compute. auto. Qed.

(** [String(n)] on integers that binary64 holds exactly and on integers it
    rounds: 2^53 + 1, 2^63, 2^64 - 1, 10^21 - 1, 10^21, 10^23 and a number of
    25 digits. *)
Example numberToString_examples :
  map Json.numberToString
      [0; -5; 1200; 9007199254740993; 9223372036854775808; 18446744073709551615;
       999999999999999999999; 1000000000000000000000; 100000000000000000000000;
       1234567890123456789012345]%Z
  = ["0"; "-5"; "1200"; "9007199254740992"; "9223372036854776000"; "18446744073709552000";
     "1e+21"; "1e+21"; "1e+23"; "1.2345678901234568e+24"].
Proof. vm_compute. reflexivity. Qed.

(** [Object.keys] lists the array indices first, in ascending order; "01" is
    no array index; a name given twice keeps its first place. *)
Example ownKeys_example :
  Json.ownKeys [("b", JNull); ("10", JNull); ("a", JNull); ("2", JNull); ("b", JNum 1);
                ("01", JNull)]
  = ["2"; "10"; "b"; "a"; "01"]
  ∧ Json.member [("b", JNull); ("10", JNull); ("b", JNum 1)] "b" = Some (JNum 1).
Proof. vm_compute. auto. Qed.

Example toStr_examples :
  Json.toStr (JArr [JNum 1; JNull; JArr [JStr "a"; JBool true]; JObj []])
  = Some "1,,a,true,[object Object]"
  ∧ Json.toStr (JObj [("toString", JNull)]) = None.
Proof. vm_compute. auto. Qed.

(* --------------------------------------------------------------------- *)
(** *** Deduplication within one processor                                 *)
(* --------------------------------------------------------------------- *)

Section ProcessFacts.
Import DataProcessor.

Definition hashesOf (ps : list HempProduct) : list string := map generateHash ps.

Lemma generateHash_enrichProduct p : generateHash (enrichProduct p) = generateHash p.
Proof. reflexivity. Qed.

(** The invariant of the loop of [process], relative to the [seenHashes]
    the call started from. *)
Definition loopInv (seen0 : gset string) (st : LoopState) : Prop :=
  NoDup (hashesOf (acc_unique st))
  ∧ seenHashes st = list_to_set (hashesOf (acc_unique st)) ∪ seen0
  ∧ ∀ h, h ∈ hashesOf (acc_unique st) → h ∉ seen0.

Lemma loopInv_init seen0 : loopInv seen0 (mkLoop seen0 [] 0 0).
Proof.
  unfold loopInv; simpl. repeat split.
  - constructor.
  - set_solver.
  - intros h Hh. by apply not_elem_of_nil in Hh.
Qed.

Lemma loopInv_step seen0 st p : loopInv seen0 st → loopInv seen0 (processOne st p).
Proof.
  unfold loopInv. intros (Hnd & Hseen & Hfresh). unfold processOne.
  destruct (isValidProduct p); simpl; [| by repeat split].
  case_bool_decide as Hin; simpl; [by repeat split |].
  unfold hashesOf in *. rewrite map_app. simpl.
  rewrite generateHash_enrichProduct.
  set (h := generateHash (cleanProduct p)) in *.
  assert (Hnew : h ∉ map generateHash (acc_unique st)).
  { intros Hh. apply Hin. rewrite Hseen. set_solver. }
  repeat split.
  - apply NoDup_app. repeat split; [done | | apply NoDup_singleton].
    intros x Hx Hx'. apply list_elem_of_singleton in Hx'. by subst.
  - rewrite Hseen, list_to_set_app_L. set_solver.
  - intros x Hx. apply elem_of_app in Hx as [Hx | Hx]; [by apply Hfresh |].
    apply list_elem_of_singleton in Hx. subst x. rewrite Hseen in Hin. set_solver.
Qed.

Lemma loopInv_fold seen0 ps st :
  loopInv seen0 st → loopInv seen0 (fold_left processOne ps st).
Proof.
  revert st. induction ps as [| p ps IH]; intros st Hst; simpl; [done |].
  by apply IH, loopInv_step.
Qed.

Lemma count_step st p :
  acc_duplicates (processOne st p) + length (acc_unique (processOne st p))
  = acc_duplicates st + length (acc_unique st) + (if isValidProduct p then 1 else 0).
Proof.
  unfold processOne. destruct (isValidProduct p); simpl; [| lia].
  case_bool_decide; simpl; [lia |]. rewrite length_app. simpl. lia.
Qed.

Lemma count_fold ps st :
  acc_duplicates (fold_left processOne ps st)
  + length (acc_unique (fold_left processOne ps st))
  = acc_duplicates st + length (acc_unique st) + length (List.filter isValidProduct ps).
Proof.
  revert st. induction ps as [| p ps IH]; intros st; simpl; [lia |].
  rewrite IH, count_step. destruct (isValidProduct p); simpl; lia.
Qed.

(** What one call of [process] guarantees. *)
Lemma process_facts seen0 ps :
  let r := (process seen0 ps).1 in
  let seen' := (process seen0 ps).2 in
  NoDup (hashesOf (unique r))
  ∧ seen' = list_to_set (hashesOf (unique r)) ∪ seen0
  ∧ (∀ h, h ∈ hashesOf (unique r) → h ∉ seen0)
  ∧ duplicates r + length (unique r) = length (List.filter isValidProduct ps).
Proof.
  simpl. pose proof (loopInv_fold seen0 ps _ (loopInv_init seen0)) as (H1 & H2 & H3).
  repeat split; try done.
  rewrite count_fold. simpl. lia.
Qed.

Lemma processAll_hashes seen0 batches :
  NoDup (hashesOf (flat_map unique (processAll seen0 batches)))
  ∧ ∀ h, h ∈ hashesOf (flat_map unique (processAll seen0 batches)) → h ∉ seen0.
Proof.
  revert seen0. induction batches as [| b rest IH]; intros seen0; cbn [processAll].
  - split; [constructor | intros h Hh; by apply not_elem_of_nil in Hh].
  - pose proof (process_facts seen0 b) as (Hnd & Hseen & Hfresh & _).
    destruct (process seen0 b) as [r seen'] eqn:E. simpl in *.
    destruct (IH seen') as [IHnd IHfresh].
    unfold hashesOf in *. cbn [flat_map]. rewrite map_app. split.
    + apply NoDup_app. split; [done |]. split; [| done].
      intros h Hh Hh'. apply IHfresh in Hh'. apply Hh'. rewrite Hseen. set_solver.
    + intros h Hh. apply elem_of_app in Hh as [Hh | Hh]; [by apply Hfresh |].
      apply IHfresh in Hh. rewrite Hseen in Hh. set_solver.
Qed.

Lemma processAll_counts seen0 batches :
  Forall2 (λ batch r, duplicates r + length (unique r)
                      = length (List.filter isValidProduct batch))
          batches (processAll seen0 batches).
Proof.
  revert seen0. induction batches as [| b rest IH]; intros seen0; cbn [processAll];
    [constructor |].
  pose proof (process_facts seen0 b) as (_ & _ & _ & Hc).
  destruct (process seen0 b) as [r seen'] eqn:E. simpl in *.
  constructor; [done | apply IH].
Qed.
End ProcessFacts.

(** C1. Over the successive calls of [process] on one [DataProcessor] (whose
    [seenHashes] starts empty), no two records emitted in the [unique] outputs
    have the same content hash, and in each call the duplicate count plus the
    number of unique records is the number of input records that pass
    [isValidProduct]. *)
Theorem C1_process_unique_hashes_and_counts (batches : list (list HempProduct)) :
  let results := DataProcessor.processAll ∅ batches in
  NoDup (map DataProcessor.generateHash (flat_map DataProcessor.unique results))
  ∧ Forall2 (λ batch r,
             DataProcessor.duplicates r + length (DataProcessor.unique r)
             = length (List.filter DataProcessor.isValidProduct batch))
            batches results.
Proof.
  cbv zeta. split.
  - apply (processAll_hashes ∅ batches).
  - apply processAll_counts.
Qed.

(* --------------------------------------------------------------------- *)
(** *** Validation on concrete records                                     *)
(* --------------------------------------------------------------------- *)

(** Walks down a chain of [if]s: a test that evaluates is evaluated, any
    other is split in two. *)
Ltac decide_test c :=
  let v := eval vm_compute in c in
  lazymatch v with
  | true => change c with true
  | false => change c with false
  end.

Ltac walk_ifs :=
  repeat lazymatch goal with
    | |- (if ?c then _ else _) = _ => first [decide_test c; cbv iota | destruct c]
    end;
  try reflexivity.

Ltac unfold_validator :=
  unfold DataProcessor.isValidProduct;
  cbn [product_name plant_part industry description source_url].

(** C3. [isValidProduct] rejects a record named "12345", a record named
    "Hemp" with plant part "42", a record of industry "Other", a record with
    plant part "banana" and a record named "AB", whatever the other fields
    hold; and it accepts the record with name "Hemp Seed Oil", description
    "Used in cooking and cosmetics", plant part "seed" and industry
    "Food & Nutrition", whatever its source URL and optional fields. *)
Theorem C3_validator_examples :
  (∀ part ind desc src b t s k,
     DataProcessor.isValidProduct (mkProduct "12345" part ind desc src b t s k) = false)
  ∧ (∀ ind desc src b t s k,
       DataProcessor.isValidProduct (mkProduct "Hemp" "42" ind desc src b t s k) = false)
  ∧ (∀ nm part desc src b t s k,
       DataProcessor.isValidProduct (mkProduct nm part "Other" desc src b t s k) = false)
  ∧ (∀ nm ind desc src b t s k,
       DataProcessor.isValidProduct (mkProduct nm "banana" ind desc src b t s k) = false)
  ∧ (∀ part ind desc src b t s k,
       DataProcessor.isValidProduct (mkProduct "AB" part ind desc src b t s k) = false)
  ∧ (∀ src b t s k,
       DataProcessor.isValidProduct
         (mkProduct "Hemp Seed Oil" "seed" "Food & Nutrition"
                    "Used in cooking and cosmetics" src b t s k) = true).
Proof.
  repeat split; intros; unfold_validator; walk_ifs.
Qed.

(** Two records that pass validation on their raw names only. *)
Definition decoratedRecord : HempProduct :=
  mkProduct " -A" "fiber" "Textiles" "Hemp twine for gardening" "https://example.org/list"
            None None None None.

Definition paddedRecord : HempProduct :=
  mkProduct "  CBD" "flower" "Cosmetics" "" "https://example.org/list"
            None None None None.

(** C10. Validation reads the raw fields, cleaning comes after it.  The name
    " -A" has length 3 only through its leading space and dash: the record is
    accepted and emitted with the cleaned name "A" (length 1).  With a blank
    description the name "  CBD" has length 5 only through its leading
    spaces: the record is accepted and emitted with the name "CBD" (length 3,
    below 5).  Neither record would pass with its cleaned name. *)
Theorem C10_validation_precedes_cleaning :
  (DataProcessor.isValidProduct decoratedRecord = true
   ∧ (3 ≤ String.length (product_name decoratedRecord))%nat
   ∧ map product_name (DataProcessor.unique (DataProcessor.process ∅ [decoratedRecord]).1)
     = ["A"]
   ∧ DataProcessor.cleanText (product_name decoratedRecord) = "A"
   ∧ DataProcessor.isValidProduct (DataProcessor.cleanProduct decoratedRecord) = false)
  ∧ (DataProcessor.isValidProduct paddedRecord = true
     ∧ JS.trim (description paddedRecord) = ""
     ∧ (5 ≤ String.length (product_name paddedRecord))%nat
     ∧ map product_name (DataProcessor.unique (DataProcessor.process ∅ [paddedRecord]).1)
       = ["CBD"]
     ∧ DataProcessor.cleanText (product_name paddedRecord) = "CBD"
     ∧ DataProcessor.isValidProduct (DataProcessor.cleanProduct paddedRecord) = false).
Proof.
  repeat split; try (vm_compute; reflexivity); vm_compute; lia.
Qed.

(* --------------------------------------------------------------------- *)
(** *** The CSV line parser                                                *)
(* --------------------------------------------------------------------- *)

Definition quote : string := String Scraper.dquote EmptyString.

(** The line [Hemp Seed, "High in Omega-3, Omega-6",seed]. *)
Definition sampleLine : string :=
  "Hemp Seed, " +:+ quote +:+ "High in Omega-3, Omega-6" +:+ quote +:+ ",seed".

Definition notQuote (c : ascii) : bool := negb (Ascii.eqb c Scraper.dquote).

Lemma append_cons (x : ascii) (a b : string) : String x a +:+ b = String x (a +:+ b).
Proof. reflexivity. Qed.

Lemma append_assoc (a b c : string) : (a +:+ b) +:+ c = a +:+ (b +:+ c).
Proof.
  induction a as [| x a IH]; [reflexivity |].
  rewrite !append_cons. by f_equal.
Qed.

Lemma append_empty_r (a : string) : a +:+ "" = a.
Proof.
  induction a as [| x a IH]; [reflexivity |].
  rewrite append_cons. by f_equal.
Qed.

(** Inside quotes every character but the quote is appended as it is. *)
Lemma parseCSVLoop_quoted_text (s : string) :
  JS.sall notQuote s = true →
  ∀ result current rest,
    Scraper.parseCSVLoop result current true (s +:+ rest)
    = Scraper.parseCSVLoop result (current +:+ s) true rest.
Proof.
  induction s as [| c s IH]; intros Hs result current rest.
  - by rewrite append_empty_r.
  - simpl in Hs. apply andb_prop in Hs as [Hc Hs].
    unfold notQuote in Hc. apply negb_true_iff in Hc.
    rewrite append_cons. cbn [Scraper.parseCSVLoop]. rewrite Hc, andb_false_r.
    rewrite (IH Hs), append_assoc. reflexivity.
Qed.

Section CsvLines.
Import JS Scraper.

(** The lines the CSV format describes.  A field is written as a sequence
    of pieces: text outside quotes, which holds neither quote nor comma, and
    quoted text, which may hold any character and is written between two
    quotes with each quote of its own doubled.  A quoted piece is not
    followed at once by another quote.  A line is its fields, at least one,
    with a comma between them. *)
Inductive piece : Type :=
| Bare (text : string)
| Quoted (text : string).

Definition field : Type := list piece.

Definition textOf (p : piece) : string :=
  match p with Bare text | Quoted text => text end.

(** The text a field stands for. *)
Fixpoint fieldText (f : field) : string :=
  match f with
  | [] => EmptyString
  | p :: f' => textOf p +:+ fieldText f'
  end.

Fixpoint doubled (text : string) : string :=
  match text with
  | EmptyString => EmptyString
  | String c text' =>
      if Ascii.eqb c dquote then String dquote (String dquote (doubled text'))
      else String c (doubled text')
  end.

Definition writePiece (p : piece) : string :=
  match p with
  | Bare text => text
  | Quoted text => String dquote (doubled text +:+ quote)
  end.

Fixpoint writeField (f : field) : string :=
  match f with
  | [] => EmptyString
  | p :: f' => writePiece p +:+ writeField f'
  end.

Fixpoint writeLine (first : field) (others : list field) : string :=
  match others with
  | [] => writeField first
  | f :: others' => writeField first +:+ String comma (writeLine f others')
  end.

Definition isBare (c : ascii) : bool :=
  negb (Ascii.eqb c dquote) && negb (Ascii.eqb c comma).

Definition opensQuote (s : string) : bool :=
  match s with
  | String c _ => Ascii.eqb c dquote
  | EmptyString => false
  end.

Fixpoint wellWritten (f : field) : bool :=
  match f with
  | [] => true
  | Bare text :: f' => sall isBare text && wellWritten f'
  | Quoted _ :: f' => negb (opensQuote (writeField f')) && wellWritten f'
  end.

(** Outside quotes a text without quote and comma is appended as it is. *)
Lemma parseCSVLoop_bare_text (s : string) :
  sall isBare s = true →
  ∀ result current rest,
    parseCSVLoop result current false (s +:+ rest)
    = parseCSVLoop result (current +:+ s) false rest.
Proof.
  induction s as [| c s IH]; intros Hs result current rest.
  - by rewrite append_empty_r.
  - cbn [sall] in Hs. apply andb_prop in Hs as [Hc Hs].
    unfold isBare in Hc. apply andb_prop in Hc as [Hq Hcomma].
    apply negb_true_iff in Hq. apply negb_true_iff in Hcomma.
    rewrite append_cons. cbn [parseCSVLoop]. rewrite Hq, Hcomma. cbn [andb].
    rewrite (IH Hs), append_assoc. reflexivity.
Qed.

(** A quote outside quotes opens a quoted text, whatever follows. *)
Lemma parseCSVLoop_open result current rest :
  parseCSVLoop result current false (String dquote rest)
  = parseCSVLoop result current true rest.
Proof. cbn [parseCSVLoop]. rewrite Ascii.eqb_refl. by destruct rest. Qed.

(** Inside quotes, a text written with its quotes doubled is read back as
    it was, and the quote after it, when no further quote follows, closes
    the quoted text. *)
Lemma parseCSVLoop_quoted (text : string) :
  ∀ result current rest,
    opensQuote rest = false →
    parseCSVLoop result current true (doubled text +:+ String dquote rest)
    = parseCSVLoop result (current +:+ text) false rest.
Proof.
  induction text as [| c text IH]; intros result current rest Hrest.
  - rewrite append_empty_r. cbn [doubled]. change ("" +:+ String dquote rest)
      with (String dquote rest). cbn [parseCSVLoop]. rewrite Ascii.eqb_refl.
    destruct rest as [| d rest]; [done |]. cbn [opensQuote] in Hrest.
    by rewrite Hrest.
  - cbn [doubled]. destruct (Ascii.eqb c dquote) eqn:Hc.
    + apply Ascii.eqb_eq in Hc. subst c. rewrite !append_cons.
      cbn [parseCSVLoop]. rewrite Ascii.eqb_refl. cbn [andb].
      rewrite (IH _ _ _ Hrest), append_assoc. reflexivity.
    + rewrite append_cons. cbn [parseCSVLoop]. rewrite Hc, andb_false_r.
      rewrite (IH _ _ _ Hrest), append_assoc. reflexivity.
Qed.

Lemma opensQuote_append a b :
  opensQuote a = false → (a = "" → opensQuote b = false) → opensQuote (a +:+ b) = false.
Proof. destruct a as [| c a]; [intros _ H; by apply H | by intros H _]. Qed.

(** A field is read, piece by piece, into the current field of the loop,
    wherever it stands in the line. *)
Lemma parseCSVLoop_field (f : field) :
  wellWritten f = true →
  ∀ result current rest,
    opensQuote rest = false →
    parseCSVLoop result current false (writeField f +:+ rest)
    = parseCSVLoop result (current +:+ fieldText f) false rest.
Proof.
  induction f as [| p f IH]; intros Hf result current rest Hrest.
  - by rewrite append_empty_r.
  - cbn [writeField fieldText]. rewrite append_assoc. destruct p as [text | text].
    + cbn [wellWritten] in Hf. apply andb_prop in Hf as [Htext Hf].
      cbn [writePiece textOf]. rewrite (parseCSVLoop_bare_text text Htext).
      rewrite (IH Hf _ _ _ Hrest), append_assoc. reflexivity.
    + cbn [wellWritten] in Hf. apply andb_prop in Hf as [Hnext Hf].
      apply negb_true_iff in Hnext.
      cbn [writePiece textOf]. rewrite append_cons, parseCSVLoop_open.
      unfold quote. rewrite append_assoc, append_cons.
      change ("" +:+ (writeField f +:+ rest)) with (writeField f +:+ rest).
      rewrite parseCSVLoop_quoted.
      * rewrite (IH Hf _ _ _ Hrest), append_assoc. reflexivity.
      * apply opensQuote_append; [done | by intros _].
Qed.

Lemma parseCSVLoop_line (others : list field) :
  ∀ (first : field) result,
    wellWritten first = true → forallb wellWritten others = true →
    parseCSVLoop result "" false (writeLine first others)
    = result ++ map (λ f, trim (fieldText f)) (first :: others).
Proof.
  induction others as [| f others IH]; intros first result Hfirst Hothers.
  - cbn [writeLine map]. rewrite <- (append_empty_r (writeField first)).
    by rewrite (parseCSVLoop_field first Hfirst result "" "" eq_refl).
  - cbn [forallb] in Hothers. apply andb_prop in Hothers as [Hf Hothers].
    cbn [writeLine].
    rewrite (parseCSVLoop_field first Hfirst result ""
               (String comma (writeLine f others)) eq_refl).
    cbn [parseCSVLoop].
    assert (Hc : Ascii.eqb comma dquote = false) by reflexivity.
    rewrite Hc, Ascii.eqb_refl. cbn [andb negb].
    rewrite (IH f _ Hf Hothers). cbn [map]. by rewrite <- app_assoc.
Qed.
End CsvLines.

(** The sample line, as the CSV format writes its three fields. *)
Definition sampleFields : list field :=
  [[Bare " "; Quoted "High in Omega-3, Omega-6"]; [Bare "seed"]].

(** C7. [parseCSVLine] splits the sample line into the three fields
    "Hemp Seed", "High in Omega-3, Omega-6" and "seed", the comma between the
    quotes staying in its field.  And it reads back every line the format
    describes: whatever the fields, however many, and wherever in the line
    and in its field a quoted text stands, the line written from the fields
    (quoted texts between quotes, their own quotes doubled, commas between
    the fields) is split into exactly these fields, each with the text it
    stands for, trimmed; quotes and commas inside quoted texts included, and
    the last field running to the end of the line. *)
Theorem C7_csv_line_parser :
  Scraper.parseCSVLine sampleLine = ["Hemp Seed"; "High in Omega-3, Omega-6"; "seed"]
  ∧ sampleLine = writeLine [Bare "Hemp Seed"] sampleFields
  ∧ (∀ (first : field) (others : list field),
       wellWritten first = true → forallb wellWritten others = true →
       Scraper.parseCSVLine (writeLine first others)
       = map (λ f, JS.trim (fieldText f)) (first :: others)).
Proof.
  split; [vm_compute; reflexivity |].
  split; [vm_compute; reflexivity |].
  intros first others Hfirst Hothers. unfold Scraper.parseCSVLine.
  by rewrite (parseCSVLoop_line others first [] Hfirst Hothers).
Qed.

(** A line of two fields: the quoted text [say "hemp", twice] between two
    bare spaces, then a field of one letter. *)
Lemma C7_csv_line_parser_witness :
  Scraper.parseCSVLine
    (" " +:+ quote +:+ "say " +:+ quote +:+ quote +:+ "hemp" +:+ quote +:+ quote
     +:+ ", twice" +:+ quote +:+ " ,x")
  = ["say " +:+ quote +:+ "hemp" +:+ quote +:+ ", twice"; "x"].
Proof.
  exact (proj2 (proj2 C7_csv_line_parser)
           [Bare " "; Quoted ("say " +:+ quote +:+ "hemp" +:+ quote +:+ ", twice"); Bare " "]
           [[Bare "x"]] eq_refl eq_refl).
Defined.

(* --------------------------------------------------------------------- *)
(** *** One JSON source, end to end                                        *)
(* --------------------------------------------------------------------- *)

Definition ropeItem : json :=
  JObj [("name", JStr "Hemp Rope");
        ("description", JStr "Sustainable hemp fiber rope, biodegradable");
        ("plant_part", JStr "fiber");
        ("industry", JStr "Textiles")].

(** What [parseJSONItem] makes of [ropeItem] found at [src]. *)
Definition ropeRaw (src : string) : HempProduct :=
  mkProduct "Hemp Rope" "fiber" "Textiles" "Sustainable hemp fiber rope, biodegradable" src
            None None None None.

(** The canonical record of [ropeItem]. *)
Definition ropeRecord (src : string) : HempProduct :=
  {| product_name := "Hemp Rope";
     plant_part := "Fiber";
     industry := "Textiles";
     description := "Sustainable hemp fiber rope, biodegradable";
     source_url := src;
     benefits := Some [];
     technical_specs := None;
     sustainability_aspects := Some ["Sustainable hemp fiber rope, biodegradable"];
     keywords := Some ["hemp"; "rope"; "sustainable"; "fiber"; "biodegradable"; "textiles"] |}.

Lemma ropeRaw_valid (src : string) : DataProcessor.isValidProduct (ropeRaw src) = true.
Proof. unfold ropeRaw. unfold_validator. walk_ifs. Qed.

(** C8. The JSON array holding the one item "Hemp Rope", read from any source
    URL, parsed item by item, validated and deduplicated by a fresh
    processor, gives exactly one canonical record and no duplicate.  The
    record's [sustainability_aspects] is the one sentence of the description,
    which contains "biodegradable"; its [keywords] list is not empty and holds
    no stop word, in particular not "the". *)
Theorem C8_json_end_to_end (src : string) :
  Scraper.typedProducts (Scraper.scrapeJSONData (JArr [ropeItem]) src) = Some [ropeRaw src]
  ∧ (DataProcessor.process ∅ [ropeRaw src]).1
    = DataProcessor.mkProcessResult [ropeRecord src] 0
  ∧ (∃ sentence,
       sustainability_aspects (ropeRecord src) = Some [sentence]
       ∧ JS.includes sentence "biodegradable" = true)
  ∧ (∃ kws,
       keywords (ropeRecord src) = Some kws
       ∧ kws ≠ []
       ∧ Forall (λ w, DataProcessor.isStopWord w = false) kws
       ∧ ¬ In "the" kws).
Proof.
  split; [reflexivity |].
  split.
  - unfold DataProcessor.process. cbn [fold_left]. unfold DataProcessor.processOne.
    rewrite ropeRaw_valid. cbn [negb].
    vm_compute. reflexivity.
  - split.
    + eexists. split; [reflexivity | vm_compute; reflexivity].
    + eexists. split; [reflexivity |]. split; [discriminate |]. split.
      * repeat constructor.
      * cbn [In]. intros H. repeat destruct H as [H | H]; try discriminate; done.
Qed.

(* --------------------------------------------------------------------- *)
(** *** Scores                                                             *)
(* --------------------------------------------------------------------- *)

Section Scores.
Import Discovery.
Local Open Scope float_scope.

(** The score as a function of the four things [scoreOf] reads. *)
Definition scoreCase (t : SourceType) (open official government : bool) : float :=
  scoreOf Config.scoringWeights
    {| url := (if official then ".gov" else "") +:+ (if government then "usda" else "");
       type := t;
       score := 0;
       license := if open then Some "MIT" else None |}.

Lemma scoreOf_case (source : DataSource) :
  scoreOf Config.scoringWeights source
  = scoreCase (type source) (hasOpenLicense source) (isOfficial source)
              (isGovernmentData source).
Proof.
  unfold scoreCase, scoreOf. cbn [type].
  destruct (type source), (hasOpenLicense source), (isOfficial source),
    (isGovernmentData source); reflexivity.
Qed.

Definition allTypes : list SourceType := [html; csv; json_t; pdf].

(** Every score [scoreOf] can produce under the configured weights. *)
Definition scoreValues : list float :=
  flat_map (λ t, flat_map (λ o, flat_map (λ f, map (scoreCase t o f) [true; false])
                                         [true; false])
                          [true; false])
           allTypes.

Lemma scoreCase_in t o f g : In (scoreCase t o f g) scoreValues.
Proof.
  unfold scoreValues. apply in_flat_map. exists t. split; [destruct t; simpl; tauto |].
  apply in_flat_map. exists o. split; [destruct o; simpl; tauto |].
  apply in_flat_map. exists f. split; [destruct f; simpl; tauto |].
  apply in_map. destruct g; simpl; tauto.
Qed.

Lemma score_in_values (source : DataSource) :
  In (score (scoreSource source)) scoreValues.
Proof. cbn [scoreSource score]. rewrite scoreOf_case. apply scoreCase_in. Qed.

(** The facts about binary64 arithmetic the proofs need, each checked on
    the finitely many scores. *)
Definition boundedCheck : bool :=
  forallb (λ x, (0 <=? x) && (x <=? 1)) scoreValues.

Definition comparatorCheck : bool :=
  forallb (λ x, forallb (λ y, if 0 <? y - x then x <=? y else y <=? x) scoreValues)
          scoreValues.

Definition transitiveCheck : bool :=
  forallb (λ x, forallb (λ y, forallb (λ z, implb ((x <=? y) && (y <=? z)) (x <=? z))
                                      scoreValues)
                        scoreValues)
          scoreValues.

Lemma bounded_ok : boundedCheck = true.
Proof. vm_compute. reflexivity. Qed.

Lemma comparator_ok : comparatorCheck = true.
Proof. vm_compute. reflexivity. Qed.

Lemma transitive_ok : transitiveCheck = true.
Proof. vm_compute. reflexivity. Qed.

Lemma score_bounded x : In x scoreValues → (0 <=? x) = true ∧ (x <=? 1) = true.
Proof.
  intros Hx. pose proof bounded_ok as H. unfold boundedCheck in H.
  rewrite forallb_forall in H. apply H in Hx. by apply andb_prop in Hx.
Qed.

Lemma comparator_sound x y :
  In x scoreValues → In y scoreValues →
  if 0 <? y - x then (x <=? y) = true else (y <=? x) = true.
Proof.
  intros Hx Hy. pose proof comparator_ok as H. unfold comparatorCheck in H.
  rewrite forallb_forall in H. specialize (H x Hx).
  rewrite forallb_forall in H. specialize (H y Hy).
  by destruct (0 <? y - x).
Qed.

Lemma leb_trans x y z :
  In x scoreValues → In y scoreValues → In z scoreValues →
  (x <=? y) = true → (y <=? z) = true → (x <=? z) = true.
Proof.
  intros Hx Hy Hz Hxy Hyz. pose proof transitive_ok as H. unfold transitiveCheck in H.
  rewrite forallb_forall in H. specialize (H x Hx).
  rewrite forallb_forall in H. specialize (H y Hy).
  rewrite forallb_forall in H. specialize (H z Hz).
  by rewrite Hxy, Hyz in H.
Qed.
End Scores.

(** C5. Under the configured weights (structure 0.3, license 0.2, datasetSize
    0.3, freshness 0.2) every source leaves [scoreSources] with a score
    between 0 and 1, the official-source and government-data bonuses
    included. *)
Theorem C5_score_within_unit_interval (sources : list DataSource) :
  Forall (λ s, (0 <=? score s)%float = true ∧ (score s <=? 1)%float = true)
         (Discovery.scoreSources sources).
Proof.
  unfold Discovery.scoreSources. apply List.Forall_forall. intros s Hs.
  apply in_map_iff in Hs as (source & <- & _).
  apply score_bounded, score_in_values.
Qed.

(* --------------------------------------------------------------------- *)
(** *** Selection of the sources                                           *)
(* --------------------------------------------------------------------- *)

Section Selection.
Import Discovery.
Local Open Scope float_scope.

(** [a] may stand before [b]: its score is not below that of [b]. *)
Definition precedes (a b : DataSource) : Prop := (score b <=? score a) = true.

Definition valued (s : DataSource) : Prop := In (score s) scoreValues.

Lemma insertSorted_perm x l : Permutation (x :: l) (insertSorted x l).
Proof.
  induction l as [| y l IH]; cbn [insertSorted]; [reflexivity |].
  destruct (0 <? compareScore x y); [| reflexivity].
  rewrite perm_swap. by apply perm_skip.
Qed.

Lemma sortByScore_perm l : Permutation l (sortByScore l).
Proof.
  induction l as [| x l IH]; cbn [sortByScore fold_right]; [reflexivity |].
  rewrite <- insertSorted_perm. by apply perm_skip.
Qed.

Lemma insertSorted_sorted x l :
  valued x → List.Forall valued l →
  StronglySorted precedes l → StronglySorted precedes (insertSorted x l).
Proof.
  intros Hx Hl Hs. induction Hs as [| y l Hs IH Hy]; cbn [insertSorted].
  - repeat constructor.
  - apply List.Forall_cons_iff in Hl as [Hvy Hl].
    pose proof (comparator_sound (score x) (score y) Hx Hvy) as Hc.
    unfold compareScore. destruct (0 <? score y - score x).
    + constructor; [by apply IH |].
      apply List.Forall_forall. intros z Hz.
      apply (Permutation_in _ (Permutation_sym (insertSorted_perm x l))) in Hz.
      destruct Hz as [<- | Hz]; [exact Hc |].
      by apply (proj1 (List.Forall_forall _ _) Hy).
    + constructor; [by constructor |].
      constructor; [exact Hc |].
      apply List.Forall_forall. intros z Hz. unfold precedes.
      pose proof (proj1 (List.Forall_forall _ _) Hy z Hz) as Hyz.
      pose proof (proj1 (List.Forall_forall _ _) Hl z Hz) as Hvz.
      by apply (leb_trans (score z) (score y) (score x)).
Qed.

Lemma sortByScore_sorted l :
  List.Forall valued l → StronglySorted precedes (sortByScore l).
Proof.
  induction l as [| x l IH]; intros Hl; cbn [sortByScore fold_right]; [constructor |].
  apply List.Forall_cons_iff in Hl as [Hx Hl].
  apply insertSorted_sorted; [done | | by apply IH].
  apply List.Forall_forall. intros z Hz.
  apply (Permutation_in _ (Permutation_sym (sortByScore_perm l))) in Hz.
  by apply (proj1 (List.Forall_forall _ _) Hl).
Qed.

Lemma sorted_app_precedes (l1 l2 : list DataSource) :
  StronglySorted precedes (l1 ++ l2) →
  ∀ a b, In a l1 → In b l2 → precedes a b.
Proof.
  induction l1 as [| x l1 IH]; intros Hs a b Ha Hb; [destruct Ha |].
  cbn [app] in Hs. apply StronglySorted_inv in Hs as [Hs Hx].
  destruct Ha as [<- | Ha]; [| by apply IH].
  apply (proj1 (List.Forall_forall _ _) Hx). apply in_or_app. by right.
Qed.

Lemma in_firstn {A} (n : nat) (l : list A) (x : A) : In x (firstn n l) → In x l.
Proof.
  intros Hx. rewrite <- (firstn_skipn n l). apply in_or_app. by left.
Qed.

Lemma sorted_firstn n (l : list DataSource) :
  StronglySorted precedes l → StronglySorted precedes (firstn n l).
Proof.
  revert l. induction n as [| n IH]; intros l Hs; [constructor |].
  destruct Hs as [| x l Hs Hx]; cbn [firstn]; constructor; [by apply IH |].
  apply List.Forall_forall. intros z Hz.
  apply (proj1 (List.Forall_forall _ _) Hx). by apply (in_firstn n).
Qed.

Lemma viable_valued (allSources : list DataSource) :
  List.Forall valued (List.filter viable (scoreSources allSources)).
Proof.
  apply List.Forall_forall. intros s Hs. apply filter_In in Hs as [Hs _].
  apply in_map_iff in Hs as (source & <- & _). apply score_in_values.
Qed.
End Selection.

(** C6. Whatever candidates the strategies have gathered, [findDataSources]
    returns the sources that pass the threshold, cut to the first 10 after
    sorting: as many sources as pass, up to 10, each with a score (bonuses
    included) at or above the configured threshold 0.6, in order of
    decreasing score; and the sources that pass the threshold but are cut off
    by the limit of 10 all score at most as much as every source returned,
    the list being sorted before it is cut. *)
Theorem C6_selection_top_ten (allSources : list DataSource) :
  let returned := Discovery.findDataSources allSources in
  let viableSources := List.filter Discovery.viable (Discovery.scoreSources allSources) in
  length returned = Nat.min 10 (length viableSources)
  ∧ (length returned ≤ 10)%nat
  ∧ List.Forall (λ s, (Config.minScoreThreshold <=? score s)%float = true) returned
  ∧ StronglySorted (λ a b, (score b <=? score a)%float = true) returned
  ∧ ∃ dropped,
      Permutation (returned ++ dropped) viableSources
      ∧ length dropped = length viableSources - 10
      ∧ ∀ a b, In a returned → In b dropped → (score b <=? score a)%float = true.
Proof.
  cbv zeta. unfold Discovery.findDataSources.
  set (viableSources := List.filter Discovery.viable (Discovery.scoreSources allSources)).
  pose proof (sortByScore_sorted viableSources (viable_valued allSources)) as Hsorted.
  pose proof (sortByScore_perm viableSources) as Hperm.
  split; [by rewrite length_firstn, <- (Permutation_length Hperm) |].
  split; [apply firstn_le_length |].
  split.
  { apply List.Forall_forall. intros s Hs. apply in_firstn in Hs.
    apply (Permutation_in _ (Permutation_sym Hperm)) in Hs.
    by apply filter_In in Hs as [_ Hs]. }
  split; [by apply sorted_firstn |].
  exists (skipn 10 (Discovery.sortByScore viableSources)). split; [| split].
  - rewrite firstn_skipn. by apply Permutation_sym.
  - by rewrite length_skipn, <- (Permutation_length Hperm).
  - apply sorted_app_precedes. by rewrite firstn_skipn.
Qed.

(* --------------------------------------------------------------------- *)
(** *** Harvest runs                                                       *)
(* --------------------------------------------------------------------- *)

Section ScrapedFacts.
Import JS Json DataProcessor.

(** What the loop of [process] makes of an element of its array. *)
Definition judge (item : Scraped) : Verdict :=
  match item with
  | Typed p => if isValidProduct p then Valid p else Invalid
  | Untyped raw => examine raw
  end.

Definition raises (item : Scraped) : bool :=
  match judge item with Raises _ => true | _ => false end.

(** The records of the array that pass validation. *)
Definition accepted (items : list Scraped) : list HempProduct :=
  flat_map (λ item, match judge item with Valid p => [p] | _ => [] end) items.

(** A record that [examine] lets through passes [isValidProduct]. *)
Lemma examine_valid raw p : examine raw = Valid p → isValidProduct p = true.
Proof.
  unfold examine.
  destruct (isNumeric (raw_name raw)) eqn:E1; [done |].
  destruct (raw_plant_part raw) as [[| | | part | |] |] eqn:Hpart; cbn [toStrOpt toStr];
    try (repeat (match goal with
                 | |- context [if ?c then _ else _] => destruct c; try done
                 | |- context [match ?x with _ => _ end] => destruct x; try done
                 end); done).
  destruct (isNumeric part) eqn:E2; [done |].
  destruct (isEmpty (raw_name raw) || (String.length (raw_name raw) <? 3)%nat) eqn:E3;
    [done |].
  destruct ((isEmpty (raw_description raw) || String.eqb (trim (raw_description raw)) "")
            && (String.length (raw_name raw) <? 5)%nat) eqn:E4; [done |].
  destruct (negb (includes (toLowerCase (raw_name raw)) "hemp")
            && negb (includes (toLowerCase (raw_name raw)) "cannabis")
            && negb (includes (toLowerCase (raw_name raw)) "cbd")
            && negb (includes (toLowerCase (raw_description raw)) "hemp")) eqn:E5;
    [done |].
  destruct (raw_industry raw) as [[| | | ind | |] |] eqn:Hind;
    cbn [truthy isOther toStrOpt toStr negb orb];
    try (repeat (match goal with
                 | |- context [if ?c then _ else _] => destruct c; try done
                 | |- context [match ?x with _ => _ end] => destruct x; try done
                 end); done).
  destruct (isEmpty ind) eqn:E6; cbn [negb orb]; [done |].
  destruct (String.eqb ind "Other") eqn:E7; [done |]. cbn [orb].
  destruct (isNumeric ind) eqn:E8; [done |].
  destruct (negb (isValidPlantPart (toLowerCase part))) eqn:E9; [done |].
  assert (Hvalid : ∀ b k,
            (if negb (isEmpty (raw_source_url raw))
                && includes (raw_source_url raw) "gist.github"
             then (if isEmpty (raw_description raw)
                      || (String.length (raw_description raw) <? 20)%nat
                   then false else true)
             else true) = true →
            isValidProduct
              {| product_name := raw_name raw; plant_part := part; industry := ind;
                 description := raw_description raw; source_url := raw_source_url raw;
                 benefits := b; technical_specs := raw_technical_specs raw;
                 sustainability_aspects := None; keywords := k |} = true).
  { intros b k Hg. unfold isValidProduct.
    cbn [product_name plant_part industry description source_url].
    by rewrite E1, E2, E3, E4, E5, E6, E7, E8, E9. }
  destruct (negb (isEmpty (raw_source_url raw))
            && includes (raw_source_url raw) "gist.github") eqn:Hgist; cbn [andb].
  - destruct (isEmpty (raw_description raw)
              || (String.length (raw_description raw) <? 20)%nat) eqn:Hd; [done |].
    destruct (rawBenefits (raw_benefits raw)); [| done].
    intros [= <-]. by apply Hvalid.
  - destruct (rawBenefits (raw_benefits raw)); [| done].
    intros [= <-]. by apply Hvalid.
Qed.

Lemma judge_valid item p : judge item = Valid p → isValidProduct p = true.
Proof.
  destruct item as [q | raw]; cbn [judge].
  - destruct (isValidProduct q) eqn:Hq; [| done]. by intros [= <-].
  - apply examine_valid.
Qed.

Lemma accepted_valid items : List.filter isValidProduct (accepted items) = accepted items.
Proof.
  induction items as [| item items IH]; [done |].
  unfold accepted in *. cbn [flat_map]. rewrite List.filter_app, IH. f_equal.
  destruct (judge item) as [| e | p] eqn:Hj; [done | done |].
  cbn. by rewrite (judge_valid item p Hj).
Qed.

Lemma accepted_cons item items : accepted (item :: items) = accepted [item] ++ accepted items.
Proof. unfold accepted. cbn [flat_map]. by rewrite app_nil_r. Qed.

Lemma accepted_typed ps : accepted (map Typed ps) = List.filter isValidProduct ps.
Proof.
  induction ps as [| p ps IH]; [done |].
  unfold accepted in *. cbn [map flat_map List.filter judge]. rewrite IH.
  by destruct (isValidProduct p).
Qed.

(** Two states of the loop that differ in the count of invalid records at
    most. *)
Definition sameCore (a b : LoopState) : Prop :=
  seenHashes a = seenHashes b ∧ acc_unique a = acc_unique b
  ∧ acc_duplicates a = acc_duplicates b.

Lemma processOne_core a b p : sameCore a b → sameCore (processOne a p) (processOne b p).
Proof.
  intros (H1 & H2 & H3). unfold processOne, sameCore.
  destruct (negb (isValidProduct p)); cbn; [done |].
  rewrite H1. case_bool_decide; cbn; by rewrite ?H1, ?H2, ?H3.
Qed.

Lemma processOne_invalid a p :
  isValidProduct p = false → sameCore (processOne a p) a.
Proof. intros Hp. unfold processOne. rewrite Hp. by cbn. Qed.

(** An element that raises nothing is handled like the record it stands
    for, or skipped. *)
Lemma processScrapedOne_step a b item :
  sameCore a b → raises item = false →
  ∃ a', processScrapedOne a item = Normal a'
        ∧ sameCore a' (fold_left processOne (accepted [item]) b).
Proof.
  intros Hab Hr. unfold raises in Hr. unfold accepted. cbn [flat_map]. rewrite app_nil_r.
  destruct item as [p | raw]; cbn [processScrapedOne judge] in *.
  - eexists. split; [done |]. destruct (isValidProduct p) eqn:Hp; cbn [fold_left].
    + by apply processOne_core.
    + destruct Hab as (H1 & H2 & H3). unfold processOne. rewrite Hp. by cbn.
  - destruct (examine raw) as [| e | p]; [| done |].
    + eexists. split; [done |]. exact Hab.
    + eexists. split; [done |]. cbn [fold_left]. by apply processOne_core.
Qed.

(** A call on an array none of whose elements raises is the call on the
    records it stands for. *)
Lemma processLoop_normal items a b :
  sameCore a b → forallb (λ item, negb (raises item)) items = true →
  processLoop a items
  = (Normal (mkProcessResult (acc_unique (fold_left processOne (accepted items) b))
                             (acc_duplicates (fold_left processOne (accepted items) b))),
     seenHashes (fold_left processOne (accepted items) b)).
Proof.
  revert a b. induction items as [| item items IH]; intros a b Hab Hall.
  - destruct Hab as (H1 & H2 & H3). cbn. by rewrite H1, H2, H3.
  - cbn [forallb] in Hall. apply andb_prop in Hall as [Hitem Hall].
    apply negb_true_iff in Hitem.
    destruct (processScrapedOne_step a b item Hab Hitem) as (a' & Hstep & Hcore).
    cbn [processLoop]. rewrite Hstep.
    rewrite accepted_cons, !fold_left_app. apply (IH a' _ Hcore Hall).
Qed.

(** A call on an array with an element that raises throws the error of the
    first such element, and leaves in [seenHashes] what the elements before
    it have put there. *)
Lemma processLoop_raises pre bad rest e a b :
  sameCore a b → forallb (λ item, negb (raises item)) pre = true →
  judge bad = Raises e →
  processLoop a (pre ++ bad :: rest)
  = (Throws e, seenHashes (fold_left processOne (accepted pre) b)).
Proof.
  revert a b. induction pre as [| item pre IH]; intros a b Hab Hall Hbad.
  - destruct Hab as (H1 & _). cbn [app processLoop].
    destruct bad as [p | raw]; cbn [judge processScrapedOne] in *.
    + by destruct (isValidProduct p).
    + rewrite Hbad. by rewrite H1.
  - cbn [forallb] in Hall. apply andb_prop in Hall as [Hitem Hall].
    apply negb_true_iff in Hitem.
    destruct (processScrapedOne_step a b item Hab Hitem) as (a' & Hstep & Hcore).
    cbn [app processLoop]. rewrite Hstep.
    rewrite accepted_cons, fold_left_app. apply (IH a' _ Hcore Hall Hbad).
Qed.

(** The first element that raises, if there is one. *)
Lemma first_raising items :
  forallb (λ item, negb (raises item)) items = false →
  ∃ pre bad rest e, items = pre ++ bad :: rest
                    ∧ forallb (λ item, negb (raises item)) pre = true
                    ∧ judge bad = Raises e.
Proof.
  induction items as [| item items IH]; [done |]. cbn [forallb].
  destruct (raises item) eqn:Hitem; cbn [negb andb].
  - intros _. unfold raises in Hitem. destruct (judge item) as [| e |] eqn:Hj; try done.
    by exists [], item, items, e.
  - intros Hrest. destruct (IH Hrest) as (pre & bad & rest & e & -> & Hpre & Hbad).
    exists (item :: pre), bad, rest, e. cbn [forallb]. by rewrite Hitem, Hpre.
Qed.

Lemma sameCore_refl a : sameCore a a.
Proof. by unfold sameCore. Qed.

(** The two ways a call of [process] on an array can end. *)
Lemma processScraped_cases seen items :
  (forallb (λ item, negb (raises item)) items = true
   ∧ processScraped seen items
     = (Normal (process seen (accepted items)).1, (process seen (accepted items)).2))
  ∨ (∃ pre bad rest e,
       items = pre ++ bad :: rest
       ∧ forallb (λ item, negb (raises item)) items = false
       ∧ judge bad = Raises e
       ∧ processScraped seen items = (Throws e, (process seen (accepted pre)).2)).
Proof.
  destruct (forallb (λ item, negb (raises item)) items) eqn:Hall.
  - left. split; [done |]. unfold processScraped, process. cbn [fst snd].
    by apply processLoop_normal; [apply sameCore_refl |].
  - right. destruct (first_raising items Hall) as (pre & bad & rest & e & -> & Hpre & Hbad).
    exists pre, bad, rest, e. split; [done |]. split; [done |]. split; [done |].
    unfold processScraped, process. cbn [snd].
    by apply processLoop_raises; [apply sameCore_refl | |].
Qed.

(** Records that fail validation leave no trace in what a call returns. *)
Lemma process_valid_only seen ps :
  process seen (List.filter isValidProduct ps) = process seen ps.
Proof.
  assert (Hcore : ∀ ps a b, sameCore a b →
            sameCore (fold_left processOne (List.filter isValidProduct ps) a)
                     (fold_left processOne ps b)).
  { clear. induction ps as [| p ps IH]; intros a b Hab; [done |].
    cbn [List.filter fold_left]. destruct (isValidProduct p) eqn:Hp.
    - cbn [fold_left]. by apply IH, processOne_core.
    - apply IH. destruct Hab as (H1 & H2 & H3). unfold processOne. rewrite Hp.
      by cbn. }
  unfold process.
  destruct (Hcore ps (mkLoop seen [] 0 0) (mkLoop seen [] 0 0) (sameCore_refl _))
    as (H1 & H2 & H3).
  by rewrite H1, H2, H3.
Qed.

Lemma typed_never_raises ps : forallb (λ item, negb (raises item)) (map Typed ps) = true.
Proof.
  induction ps as [| p ps IH]; [done |]. cbn [map forallb]. rewrite IH.
  unfold raises. cbn [judge]. by destruct (isValidProduct p).
Qed.

(** On records of the declared type the call is [process]. *)
Lemma processScraped_typed seen ps :
  processScraped seen (map Typed ps) = (Normal (process seen ps).1, (process seen ps).2).
Proof.
  destruct (processScraped_cases seen (map Typed ps))
    as [[_ ->] | (pre & bad & rest & e & _ & Hall & _)].
  - by rewrite accepted_typed, process_valid_only.
  - by rewrite typed_never_raises in Hall.
Qed.

Lemma rawBenefits_typed v bs : asStringList v = Some bs → rawBenefits v = Normal bs.
Proof.
  destruct v as [[| b | z | t | items | props] |]; cbn; try done; try (by intros [= <-]).
  assert (H : ∀ ts, allStrings items = Some ts → benefitTexts items = Normal ts).
  { induction items as [| item items IH]; intros ts; [by intros [= <-] |].
    destruct item as [| b | z | t | items' | props]; try done. cbn.
    destruct (allStrings items) as [ts' |]; [| done]. cbn. intros [= <-].
    by rewrite (IH ts' eq_refl). }
  destruct (allStrings items) as [ts |]; [| done]. cbn. intros [= <-].
  by rewrite (H ts eq_refl).
Qed.

Lemma Scraper_typed_aspects raw p :
  Scraper.typedProduct raw = Some p → sustainability_aspects p = None.
Proof.
  unfold Scraper.typedProduct.
  destruct (asString (raw_plant_part raw)); [| done].
  destruct (asString (raw_industry raw)); [| done].
  destruct (asStringList (raw_benefits raw)); [| done].
  destruct (asStringList (raw_keywords raw)); [| done].
  by intros [= <-].
Qed.

(** The keywords a record comes with are never read. *)
Lemma processOne_keywords st nm part ind desc src b t sa k k' :
  processOne st (mkProduct nm part ind desc src b t sa k)
  = processOne st (mkProduct nm part ind desc src b t sa k').
Proof.
  unfold processOne, isValidProduct, cleanProduct, generateHash, hashKey, enrichProduct,
    extractKeywords.
  cbn [product_name plant_part industry description source_url benefits technical_specs
       sustainability_aspects keywords].
  reflexivity.
Qed.

(** An object that has the declared type is examined as [isValidProduct]
    judges the record. *)
Lemma examine_typed raw p :
  Scraper.typedProduct raw = Some p →
  examine raw
  = if isValidProduct p
    then Valid (mkProduct (product_name p) (plant_part p) (industry p) (description p)
                          (source_url p) (benefits p) (technical_specs p) None None)
    else Invalid.
Proof.
  unfold Scraper.typedProduct.
  destruct (raw_plant_part raw) as [[| | | part | |] |] eqn:Hpart; try done.
  destruct (raw_industry raw) as [[| | | ind | |] |] eqn:Hind; try done. cbn [asString].
  destruct (asStringList (raw_benefits raw)) as [bs |] eqn:Hb; [| done].
  destruct (asStringList (raw_keywords raw)) as [ks |]; [| done].
  intros [= <-]. unfold examine, isValidProduct.
  rewrite Hpart, Hind, (rawBenefits_typed _ _ Hb).
  cbn [toStrOpt toStr truthy isOther product_name plant_part industry description
       source_url benefits technical_specs].
  destruct (isNumeric (raw_name raw)); [done |].
  destruct (isNumeric part); [done |].
  destruct (isEmpty (raw_name raw) || (String.length (raw_name raw) <? 3)%nat); [done |].
  destruct ((isEmpty (raw_description raw) || String.eqb (trim (raw_description raw)) "")
            && (String.length (raw_name raw) <? 5)%nat); [done |].
  destruct (negb (includes (toLowerCase (raw_name raw)) "hemp")
            && negb (includes (toLowerCase (raw_name raw)) "cannabis")
            && negb (includes (toLowerCase (raw_name raw)) "cbd")
            && negb (includes (toLowerCase (raw_description raw)) "hemp")); [done |].
  destruct (isEmpty ind); [done |]. cbn [negb orb].
  destruct (String.eqb ind "Other"); [done |].
  destruct (isNumeric ind); [done |].
  destruct (negb (isValidPlantPart (toLowerCase part))); [done |].
  destruct (negb (isEmpty (raw_source_url raw))
            && includes (raw_source_url raw) "gist.github"); cbn [andb]; [| done].
  by destruct (isEmpty (raw_description raw)
               || (String.length (raw_description raw) <? 20)%nat).
Qed.

(** So the loop handles it like the record. *)
Lemma processScrapedOne_typed raw p st :
  Scraper.typedProduct raw = Some p →
  processScrapedOne st (Untyped raw) = Normal (processOne st p).
Proof.
  intros Hp. cbn [processScrapedOne]. rewrite (examine_typed raw p Hp).
  destruct (isValidProduct p) eqn:Hv.
  - pose proof (Scraper_typed_aspects raw _ Hp) as Ha.
    destruct p as [nm part ind desc src b t sa k].
    cbn [product_name plant_part industry description source_url benefits
         technical_specs sustainability_aspects] in *.
    subst sa. by rewrite (processOne_keywords st nm part ind desc src b t None None k).
  - unfold processOne. by rewrite Hv.
Qed.
End ScrapedFacts.

Section HarvestFacts.
Import DataHarvester.

(** A source the processing of which ends in the [catch] of the loop. *)
Definition fails (env : Env) (source : DataSource) : bool :=
  negb (forallb (λ item, negb (raises item)) (scrape env source)).

(** The valid records among what the sources of a run yield, the sources
    that fail left aside. *)
Definition validScraped (env : Env) (sources : list DataSource) : nat :=
  length (flat_map (λ source, accepted (scrape env source))
                   (List.filter (λ source, negb (fails env source)) sources)).

Definition harvestInv (env : Env) (seen0 : gset string) (done : list DataSource)
           (st : LoopState) : Prop :=
  NoDup (hashesOf (saved st))
  ∧ list_to_set (hashesOf (saved st)) ∪ seen0 ⊆ seen st
  ∧ (∀ h, h ∈ hashesOf (saved st) → h ∉ seen0)
  ∧ duplicates_skipped (result st) + length (saved st) = validScraped env done
  ∧ length (errors (result st)) = length (List.filter (fails env) done)
  ∧ products_found (result st) = length (flat_map (scrape env) done).

Lemma harvestInv_init env seen0 :
  harvestInv env seen0 [] (mkLoop emptyResult seen0 []).
Proof.
  unfold harvestInv, validScraped. cbn. repeat split.
  - constructor.
  - set_solver.
  - intros h Hh. by apply not_elem_of_nil in Hh.
Qed.

Lemma harvestInv_step env seen0 done st source :
  harvestInv env seen0 done st →
  harvestInv env seen0 (done ++ [source]) (harvestSource env st source).
Proof.
  intros (Hnd & Hseen & Hfresh & Hcount & Herr & Hfound). unfold harvestSource.
  assert (Hfails : fails env source
                   = negb (forallb (λ item, negb (raises item)) (scrape env source)))
    by done.
  unfold harvestInv, validScraped in *.
  rewrite !List.filter_app, !flat_map_app, !length_app. cbn [List.filter flat_map].
  destruct (processScraped_cases (seen st) (scrape env source))
    as [[Hall ->] | (pre & bad & rest & e & Heq & Hall & Hbad & ->)];
    rewrite Hall in Hfails; cbn [negb] in Hfails; rewrite Hfails; cbn [negb].
  - pose proof (process_facts (seen st) (accepted (scrape env source)))
      as (Pnd & Pseen & Pfresh & Pcount).
    rewrite accepted_valid in Pcount.
    destruct (DataProcessor.process (seen st) (accepted (scrape env source)))
      as [processed seen'].
    cbn [fst snd] in *. cbn [saved seen result duplicates_skipped errors products_found].
    unfold hashesOf in *. rewrite map_app, length_app. cbn [flat_map length].
    rewrite !app_nil_r.
    split; [| split; [| split; [| split; [| split]]]].
    + apply NoDup_app. split; [done |]. split; [| done].
      intros h Hh Hh'. apply Pfresh in Hh'. apply Hh'. set_solver.
    + rewrite Pseen, list_to_set_app_L. set_solver.
    + intros h Hh. apply elem_of_app in Hh as [Hh | Hh]; [by apply Hfresh |].
      apply Pfresh in Hh. set_solver.
    + lia.
    + lia.
    + lia.
  - pose proof (process_facts (seen st) (accepted pre)) as (_ & Pseen & _).
    destruct (DataProcessor.process (seen st) (accepted pre)) as [processed seen'].
    cbn [fst snd] in *. cbn [saved seen result duplicates_skipped errors products_found].
    rewrite app_nil_r, !length_app. cbn [flat_map length].
    split; [done |]. split; [| split; [done | split; [lia | split; lia]]].
    rewrite Pseen. set_solver.
Qed.

Lemma harvestInv_fold env seen0 sources done st :
  harvestInv env seen0 done st →
  harvestInv env seen0 (done ++ sources) (fold_left (harvestSource env) sources st).
Proof.
  revert done st. induction sources as [| s sources IH]; intros done st Hst.
  - by rewrite app_nil_r.
  - cbn [fold_left]. replace (done ++ s :: sources) with ((done ++ [s]) ++ sources)
      by (by rewrite <- app_assoc).
    by apply IH, harvestInv_step.
Qed.

(** What a run leaves in the processor of its harvester: the set of seen
    hashes never shrinks, and holds the hash of every record emitted. *)
Lemma runOnce_seen env seen0 :
  let run := runOnce env seen0 in
  NoDup (hashesOf (emitted run))
  ∧ list_to_set (hashesOf (emitted run)) ∪ seen0 ⊆ seenAfter run
  ∧ ∀ h, h ∈ hashesOf (emitted run) → h ∉ seen0.
Proof.
  cbv zeta.
  assert (Hnone : NoDup (hashesOf []) ∧ list_to_set (hashesOf []) ∪ seen0 ⊆ seen0
                  ∧ ∀ h, h ∈ hashesOf [] → h ∉ seen0).
  { cbn. split; [constructor |]. split; [set_solver |].
    intros h Hh. by apply not_elem_of_nil in Hh. }
  pose proof (harvestInv_fold env seen0
                (Discovery.findDataSources (discovered env)) [] _
                (harvestInv_init env seen0)) as (Hnd & Hseen & Hfresh & _).
  unfold runOnce.
  destruct (verifyConnection env); cbn [negb]; [| exact Hnone].
  destruct (ensureSchema env); [exact Hnone |].
  destruct (createRun env "DataHarvester-Bot") as [runId | error]; [| exact Hnone].
  destruct (updateRun env runId _) as [error |]; [| by cbn].
  destruct (updateRun env runId _); by cbn.
Qed.
End HarvestFacts.

(** The surroundings of the examples: every request succeeds, every row
    offered is stored, and the sources give records of the declared type. *)
Definition acceptingEnv (sources : list DataSource)
           (found : DataSource → list HempProduct) : DataHarvester.Env :=
  {| DataHarvester.verifyConnection := true;
     DataHarvester.ensureSchema := None;
     DataHarvester.createRun := λ _, inl "run-1";
     DataHarvester.discovered := sources;
     DataHarvester.scrape := λ source, map Typed (found source);
     DataHarvester.upsertProducts := λ batch, DatabaseService.Rows (length batch);
     DataHarvester.upsertCompanies := λ batch, DatabaseService.Rows (length batch);
     DataHarvester.updateRun := λ _ _, None;
     DataHarvester.errorText := λ _, "TypeError";
     DataHarvester.startTime := 1000;
     DataHarvester.endTime := 1250 |}.

(** Discovery finds one page, without licence or bonus: it scores 0.5. *)
Definition barrenEnv : DataHarvester.Env :=
  acceptingEnv [mkSource "https://hempindustrydaily.com/data/" html 0 None] (λ _, []).

(** C9. When discovery yields no viable source and the datastore accepts the
    update of the run's row, [runOnce] returns: the row is marked
    [completed], and the counts of products found, products saved, companies
    saved and duplicates skipped are all zero, with an empty list of errors. *)
Theorem C9_run_without_sources_completes
        (env : DataHarvester.Env) (seen0 : gset string) (runId : string) :
  DataHarvester.verifyConnection env = true →
  DataHarvester.ensureSchema env = None →
  DataHarvester.createRun env "DataHarvester-Bot" = inl runId →
  Discovery.findDataSources (DataHarvester.discovered env) = [] →
  (∀ update, DataHarvester.updateRun env runId update = None) →
  let run := DataHarvester.runOnce env seen0 in
  let zero := {| products_found := 0; products_saved := 0; companies_saved := 0;
                 duplicates_skipped := 0; errors := [];
                 duration_ms := (DataHarvester.endTime env - DataHarvester.startTime env)%Z |} in
  DataHarvester.outcome run = DataHarvester.Returned zero
  ∧ DataHarvester.updates run
    = [ {| DataHarvester.status := DataHarvester.completed;
           DataHarvester.upd_products_found := Some 0;
           DataHarvester.upd_products_saved := Some 0;
           DataHarvester.upd_companies_saved := Some 0;
           DataHarvester.error_message := None |} ]
  ∧ DataHarvester.emitted run = [].
Proof.
  intros Hconn Hschema Hrun Hnone Hupdate. cbv zeta. unfold DataHarvester.runOnce.
  rewrite Hconn, Hschema, Hrun, Hnone. cbn [negb fold_left]. rewrite Hupdate.
  by cbn.
Qed.

(** The hypotheses hold of [barrenEnv], whose only candidate scores below the
    threshold. *)
Lemma C9_run_without_sources_completes_witness :
  DataHarvester.discovered barrenEnv ≠ []
  ∧ Discovery.findDataSources (DataHarvester.discovered barrenEnv) = []
  ∧ DataHarvester.outcome (DataHarvester.runOnce barrenEnv ∅)
    = DataHarvester.Returned
        {| products_found := 0; products_saved := 0; companies_saved := 0;
           duplicates_skipped := 0; errors := []; duration_ms := 250 |}.
Proof.
  split; [discriminate |]. split; [reflexivity |].
  exact (proj1 (C9_run_without_sources_completes barrenEnv ∅ "run-1"
                  eq_refl eq_refl eq_refl eq_refl (λ _, eq_refl))).
Defined.

(** One government CSV file that holds the record "Hemp Rope". *)
Definition ropeSource : DataSource :=
  mkSource "https://www.usda.gov/sites/default/files/documents/hemp-report.csv" csv 0
           (Some "Public Domain").

Definition ropeEnv : DataHarvester.Env :=
  acceptingEnv [ropeSource] (λ source, [ropeRaw (url source)]).

(** C4, as stated, fails.  A harvester runs twice on [ropeEnv], as the cron job
    of [runSchedule] makes it.  The first run emits the record and reports no
    duplicate; the second run emits nothing and reports the record as a
    duplicate, although a fresh harvester in the same surroundings emits it:
    the record is a duplicate in the second run only through the first. *)
Lemma C4_dedup_state_survives_run :
  let first := DataHarvester.runOnce ropeEnv DataHarvester.newHarvester in
  let second := DataHarvester.runOnce ropeEnv (DataHarvester.seenAfter first) in
  DataHarvester.scheduledRuns DataHarvester.newHarvester [ropeEnv; ropeEnv] = [first; second]
  ∧ DataHarvester.outcome first
    = DataHarvester.Returned
        {| products_found := 1; products_saved := 1; companies_saved := 0;
           duplicates_skipped := 0; errors := []; duration_ms := 250 |}
  ∧ DataHarvester.emitted first = [ropeRecord (url ropeSource)]
  ∧ DataHarvester.outcome second
    = DataHarvester.Returned
        {| products_found := 1; products_saved := 0; companies_saved := 0;
           duplicates_skipped := 1; errors := []; duration_ms := 250 |}
  ∧ DataHarvester.emitted second = []
  ∧ DataHarvester.outcome second
    ≠ DataHarvester.outcome (DataHarvester.runOnce ropeEnv DataHarvester.newHarvester).
Proof.
  cbv zeta.
  assert (H1 : DataHarvester.outcome (DataHarvester.runOnce ropeEnv DataHarvester.newHarvester)
               = DataHarvester.Returned
                   {| products_found := 1; products_saved := 1; companies_saved := 0;
                      duplicates_skipped := 0; errors := []; duration_ms := 250 |})
    by (vm_compute; reflexivity).
  assert (H2 : DataHarvester.outcome
                 (DataHarvester.runOnce ropeEnv
                    (DataHarvester.seenAfter
                       (DataHarvester.runOnce ropeEnv DataHarvester.newHarvester)))
               = DataHarvester.Returned
                   {| products_found := 1; products_saved := 0; companies_saved := 0;
                      duplicates_skipped := 1; errors := []; duration_ms := 250 |})
    by (vm_compute; reflexivity).
  split; [reflexivity |].
  split; [exact H1 |].
  split; [vm_compute; reflexivity |].
  split; [exact H2 |].
  split; [vm_compute; reflexivity |].
  rewrite H1, H2. discriminate.
Qed.

(** C4, amended.  The set of seen hashes belongs to the [DataProcessor] that
    the harvester builds once, in its constructor, and no run resets it.  For
    two runs of one harvester, whatever their surroundings: the hash of every
    record the first run emitted is in the set the second run starts from;
    no record the second run emits has the hash of a record the first run
    emitted; and the second run leaves in the set everything it found there.
    (The company map is a local variable of [extractCompanies], which takes
    the records of one source and keeps nothing.) *)
Theorem C4_dedup_state_lives_with_harvester (env1 env2 : DataHarvester.Env) :
  let first := DataHarvester.runOnce env1 DataHarvester.newHarvester in
  let second := DataHarvester.runOnce env2 (DataHarvester.seenAfter first) in
  (∀ p, In p (DataHarvester.emitted first) →
        DataProcessor.generateHash p ∈ DataHarvester.seenAfter first)
  ∧ (∀ p q, In p (DataHarvester.emitted first) → In q (DataHarvester.emitted second) →
            DataProcessor.generateHash p ≠ DataProcessor.generateHash q)
  ∧ DataHarvester.seenAfter first ⊆ DataHarvester.seenAfter second.
Proof.
  cbv zeta.
  pose proof (runOnce_seen env1 DataHarvester.newHarvester) as (_ & Hseen1 & _).
  set (first := DataHarvester.runOnce env1 DataHarvester.newHarvester) in *.
  pose proof (runOnce_seen env2 (DataHarvester.seenAfter first)) as (_ & Hseen2 & Hfresh2).
  assert (Hin : ∀ p, In p (DataHarvester.emitted first) →
                     DataProcessor.generateHash p ∈ DataHarvester.seenAfter first).
  { intros p Hp. apply Hseen1. apply elem_of_union_l, elem_of_list_to_set.
    apply list_elem_of_In. unfold hashesOf. by apply in_map. }
  split; [exact Hin |]. split.
  - intros p q Hp Hq Heq. apply (Hfresh2 (DataProcessor.generateHash q)).
    + apply list_elem_of_In. unfold hashesOf. by apply in_map.
    + rewrite <- Heq. by apply Hin.
  - set_solver.
Qed.

(* --------------------------------------------------------------------- *)
(** *** The content hash                                                   *)
(* --------------------------------------------------------------------- *)

Section HashFacts.
Import JS DataProcessor.

Lemma smap_app f (a b : string) : smap f (a +:+ b) = smap f a +:+ smap f b.
Proof.
  induction a as [| x a IH]; [reflexivity |].
  rewrite append_cons. cbn [smap]. rewrite append_cons. by f_equal.
Qed.

Lemma sfilter_app p (a b : string) : sfilter p (a +:+ b) = sfilter p a +:+ sfilter p b.
Proof.
  induction a as [| x a IH]; [reflexivity |].
  rewrite append_cons. cbn [sfilter]. destruct (p x); [| exact IH].
  rewrite append_cons. by f_equal.
Qed.

(** Lower-casing moves no character into or out of the classes that
    cleaning looks at. *)
Lemma lowerChar_classes (c : ascii) :
  isSpace (lowerChar c) = isSpace c
  ∧ isControl (lowerChar c) = isControl c
  ∧ isLeadingDecoration (lowerChar c) = isLeadingDecoration c.
Proof. destruct c as [[] [] [] [] [] [] [] []]; vm_compute; auto. Qed.

Section Commute.
Variable f : ascii → ascii.
Variable p : ascii → bool.
Hypothesis p_f : ∀ c, p (f c) = p c.

Lemma dropWhile_smap s : dropWhile p (smap f s) = smap f (dropWhile p s).
Proof.
  induction s as [| c s IH]; [reflexivity |].
  cbn [smap dropWhile]. rewrite p_f. by destruct (p c).
Qed.

Lemma dropWhileEnd_smap s : dropWhileEnd p (smap f s) = smap f (dropWhileEnd p s).
Proof.
  induction s as [| c s IH]; [reflexivity |].
  cbn [smap dropWhileEnd]. rewrite IH, p_f.
  destruct (dropWhileEnd p s); cbn [smap]; [by destruct (p c) | reflexivity].
Qed.

Lemma sfilter_smap s :
  sfilter (λ c, negb (p c)) (smap f s) = smap f (sfilter (λ c, negb (p c)) s).
Proof.
  induction s as [| c s IH]; [reflexivity |].
  cbn [smap sfilter]. rewrite p_f, IH. by destruct (p c).
Qed.
End Commute.

Lemma collapseFrom_lower inRun s :
  collapseFrom inRun (toLowerCase s) = toLowerCase (collapseFrom inRun s).
Proof.
  revert inRun. induction s as [| c s IH]; intros inRun; [reflexivity |].
  unfold toLowerCase in *. cbn [smap collapseFrom].
  rewrite (proj1 (lowerChar_classes c)), !IH.
  destruct (isSpace c), inRun; reflexivity.
Qed.

Lemma trim_lower s : trim (toLowerCase s) = toLowerCase (trim s).
Proof.
  unfold trim, toLowerCase.
  rewrite (dropWhile_smap lowerChar isSpace (λ c, proj1 (lowerChar_classes c))).
  by rewrite (dropWhileEnd_smap lowerChar isSpace (λ c, proj1 (lowerChar_classes c))).
Qed.

(** What [cleanText] does after its first [trim]. *)
Definition cleanTrimmed (s : string) : string :=
  trim (dropWhile isLeadingDecoration
          (sfilter (λ c, negb (isControl c)) (collapseSpaces s))).

Lemma cleanText_trim s : cleanText s = cleanTrimmed (trim s).
Proof. reflexivity. Qed.

Lemma cleanTrimmed_lower s : toLowerCase (cleanTrimmed s) = cleanTrimmed (toLowerCase s).
Proof.
  unfold cleanTrimmed, collapseSpaces. rewrite collapseFrom_lower.
  unfold toLowerCase at 2.
  rewrite (sfilter_smap lowerChar isControl (λ c, proj1 (proj2 (lowerChar_classes c)))).
  rewrite (dropWhile_smap lowerChar isLeadingDecoration
             (λ c, proj2 (proj2 (lowerChar_classes c)))).
  fold (toLowerCase
          (dropWhile isLeadingDecoration
             (sfilter (λ c, negb (isControl c)) (collapseFrom false s)))).
  by rewrite trim_lower.
Qed.

Lemma cleanText_lower s : toLowerCase (cleanText s) = cleanTrimmed (toLowerCase (trim s)).
Proof. by rewrite cleanText_trim, cleanTrimmed_lower. Qed.




(** The three parts of the hashed text. *)
Definition canonical (s : string) : string := removeSpaces (toLowerCase s).

Definition canonName (p : HempProduct) : string := canonical (cleanText (product_name p)).
Definition canonPart (p : HempProduct) : string := canonical (normalizeText (plant_part p)).
Definition canonIndustry (p : HempProduct) : string :=
  canonical (normalizeText (industry p)).

Lemma hashKey_cleanProduct p :
  hashKey (cleanProduct p) = canonName p +:+ "|" +:+ canonPart p +:+ "|" +:+ canonIndustry p.
Proof.
  unfold hashKey, cleanProduct, canonName, canonPart, canonIndustry, canonical.
  cbn [product_name plant_part industry].
  unfold toLowerCase, removeSpaces. by rewrite !smap_app, !sfilter_app.
Qed.




End HashFacts.


Definition seedOilB : HempProduct :=
  mkProduct "Hemp" "Seed|Oil" "Food & Nutrition" "Cold pressed oil" "https://example.org/b"
            None None None None.



(** Two spellings of one record, and a record of another name. *)
Definition ropeShouted : HempProduct :=
  mkProduct "  HEMP Rope " " fiber" "TEXTILES " "as found on a page" "https://example.org/1"
            None None None None.

Definition ropePlain : HempProduct :=
  mkProduct "Hemp rope" "Fiber" "textiles" "as found in a file" "https://example.org/2"
            (Some ["strong"]) None None None.

Definition twinePlain : HempProduct :=
  mkProduct "Hemp twine" "Fiber" "textiles" "as found in a file" "https://example.org/2"
            None None None None.

(** The letter e with acute accent, capital (U+00C9) and small (U+00E9). *)
Definition capitalEAcute : string := String (ascii_of_N 201) "".

(** Two spellings of a record with accented letters in its name and its
    industry. *)
Definition cafeShouted : HempProduct :=
  mkProduct ("HEMP CAF" +:+ capitalEAcute) "SEED" ("CAF" +:+ capitalEAcute +:+ "S")
            "as found on a page" "https://example.org/1" None None None None.



(* ===================================================================== *)
(** * Further properties of the code                                       *)
(* ===================================================================== *)

(* --------------------------------------------------------------------- *)
(** *** Strings and lists                                                  *)
(* --------------------------------------------------------------------- *)

Section StringFacts.
Import JS.

(** The code units on which the case mapping of the embedding is that of
    JavaScript. *)
Definition isAscii (c : ascii) : bool := (JS.code c <? 128)%N.

Lemma sall_impl (p q : ascii → bool) s :
  (∀ c, p c = true → q c = true) → sall p s = true → sall q s = true.
Proof.
  intros Hpq. induction s as [| c s IH]; [done |].
  cbn [sall]. intros H. apply andb_prop in H as [Hc Hs].
  by rewrite (Hpq c Hc), (IH Hs).
Qed.

Lemma sall_dropWhile p q s : sall q s = true → sall q (dropWhile p s) = true.
Proof.
  induction s as [| c s IH]; [done |].
  cbn [dropWhile]. destruct (p c); [| done].
  cbn [sall]. intros H. apply andb_prop in H as [_ Hs]. by apply IH.
Qed.

Lemma sall_dropWhileEnd p q s : sall q s = true → sall q (dropWhileEnd p s) = true.
Proof.
  induction s as [| c s IH]; [done |].
  cbn [sall dropWhileEnd]. intros H. apply andb_prop in H as [Hc Hs].
  specialize (IH Hs). destruct (dropWhileEnd p s) as [| d r].
  - destruct (p c); [done |]. cbn [sall]. by rewrite Hc.
  - cbn [sall] in *. by rewrite Hc, IH.
Qed.

Lemma sall_trim q s : sall q s = true → sall q (trim s) = true.
Proof. intros H. unfold trim. by apply sall_dropWhileEnd, sall_dropWhile. Qed.

Lemma sall_sfilter_self p s : sall p (sfilter p s) = true.
Proof.
  induction s as [| c s IH]; [done |].
  cbn [sfilter]. destruct (p c) eqn:Hc; [| done]. cbn [sall]. by rewrite Hc, IH.
Qed.

Lemma sall_sfilter p q s : sall q s = true → sall q (sfilter p s) = true.
Proof.
  induction s as [| c s IH]; [done |].
  cbn [sall sfilter]. intros H. apply andb_prop in H as [Hc Hs].
  destruct (p c); [| by apply IH]. cbn [sall]. by rewrite Hc, IH.
Qed.

(** The first character of a string, if any, fails [p]. *)
Definition headFails (p : ascii → bool) (s : string) : Prop :=
  match s with
  | EmptyString => True
  | String c _ => p c = false
  end.

Lemma dropWhile_headFails p s : headFails p (dropWhile p s).
Proof.
  induction s as [| c s IH]; [done |].
  cbn [dropWhile]. by destruct (p c) eqn:Hc.
Qed.

Lemma dropWhile_fixed p s : headFails p s → dropWhile p s = s.
Proof. destruct s as [| c s]; [done |]. cbn. by intros ->. Qed.

Lemma dropWhileEnd_cons p c s :
  p c = false → dropWhileEnd p (String c s) = String c (dropWhileEnd p s).
Proof. intros Hc. cbn [dropWhileEnd]. destruct (dropWhileEnd p s); by rewrite ?Hc. Qed.

Lemma dropWhileEnd_headFails p q s :
  headFails p s → headFails q s → headFails q (dropWhileEnd p s).
Proof.
  destruct s as [| c s]; [done |]. cbn [headFails]. intros Hc Hq.
  by rewrite (dropWhileEnd_cons p c s Hc).
Qed.

Lemma dropWhileEnd_idem p s : dropWhileEnd p (dropWhileEnd p s) = dropWhileEnd p s.
Proof.
  induction s as [| c s IH]; [done |].
  cbn [dropWhileEnd]. destruct (dropWhileEnd p s) as [| d r] eqn:E.
  - destruct (p c) eqn:Hc; [done |]. cbn [dropWhileEnd]. by rewrite Hc.
  - cbn [dropWhileEnd]. cbn [dropWhileEnd] in IH. by rewrite IH.
Qed.

Lemma trim_headFails s : headFails isSpace (trim s).
Proof. unfold trim. apply dropWhileEnd_headFails; apply dropWhile_headFails. Qed.

(** [s.trim().trim()] is [s.trim()]. *)
Lemma trim_idem s : trim (trim s) = trim s.
Proof.
  unfold trim at 1. rewrite (dropWhile_fixed isSpace (trim s) (trim_headFails s)).
  unfold trim. apply dropWhileEnd_idem.
Qed.

Lemma existsb_eqb_In (x : string) (xs : list string) :
  existsb (String.eqb x) xs = true ↔ In x xs.
Proof.
  rewrite existsb_exists. split.
  - intros (y & Hy & Heq). apply String.eqb_eq in Heq. by subst.
  - intros Hx. exists x. split; [done | apply String.eqb_refl].
Qed.

Lemma uniqFrom_In seen xs x : In x (uniqFrom seen xs) → In x xs ∧ ¬ In x seen.
Proof.
  revert seen. induction xs as [| y xs IH]; intros seen; [done |].
  cbn [uniqFrom]. destruct (existsb (String.eqb y) seen) eqn:E.
  - intros Hx. destruct (IH seen Hx). split; [by right | done].
  - intros [<- | Hx].
    + split; [by left |]. intros Hin. apply existsb_eqb_In in Hin. congruence.
    + destruct (IH _ Hx) as [H1 H2]. split; [by right |].
      intros Hin. apply H2. by right.
Qed.

Lemma uniqFrom_NoDup seen xs : NoDup (uniqFrom seen xs).
Proof.
  revert seen. induction xs as [| y xs IH]; intros seen; [constructor |].
  cbn [uniqFrom]. destruct (existsb (String.eqb y) seen); [apply IH |].
  apply NoDup_cons. split; [| apply IH].
  intros Hy. apply list_elem_of_In, uniqFrom_In in Hy as [_ Hy]. apply Hy. by left.
Qed.

Lemma uniqFrom_length seen xs : (length (uniqFrom seen xs) ≤ length xs)%nat.
Proof.
  revert seen. induction xs as [| y xs IH]; intros seen; [done |].
  cbn [uniqFrom]. destruct (existsb (String.eqb y) seen); cbn [length].
  - specialize (IH seen). lia.
  - specialize (IH (y :: seen)). lia.
Qed.

Lemma uniq_NoDup xs : NoDup (uniq xs).
Proof. apply uniqFrom_NoDup. Qed.

Lemma uniq_In xs x : In x (uniq xs) → In x xs.
Proof. intros H. by apply uniqFrom_In in H as [H _]. Qed.

Lemma NoDup_firstn {A} n (l : list A) : NoDup l → NoDup (firstn n l).
Proof.
  revert l. induction n as [| n IH]; intros l Hl; [constructor |].
  destruct l as [| x l]; [constructor |]. cbn [firstn].
  apply NoDup_cons in Hl as [Hx Hl]. apply NoDup_cons. split; [| by apply IH].
  intros Hin. apply Hx. apply list_elem_of_In. apply list_elem_of_In in Hin.
  by apply (in_firstn n).
Qed.

(** The pieces of [split] hold no separator and only characters of the
    text. *)
Lemma splitRunsFrom_pieces p q inRun s :
  sall q s = true →
  Forall (λ w, sall (λ c, negb (p c)) w = true ∧ sall q w = true)
         (splitRunsFrom p inRun s).
Proof.
  revert inRun. induction s as [| c s IH]; intros inRun Hs.
  - by repeat constructor.
  - cbn [sall] in Hs. apply andb_prop in Hs as [Hc Hs].
    cbn [splitRunsFrom]. destruct (p c) eqn:Hp.
    + destruct inRun; [by apply IH |]. constructor; [done | by apply IH].
    + specialize (IH false Hs). destruct (splitRunsFrom p false s) as [| w ws].
      * constructor; [| constructor]. cbn [sall]. by rewrite Hp, Hc.
      * apply Forall_cons in IH as [[Hw1 Hw2] Hws]. constructor; [| done].
        cbn [sall]. by rewrite Hp, Hc, Hw1, Hw2.
Qed.

Lemma lowerChar_not_upper c : isUpper (lowerChar c) = false.
Proof. destruct c as [[] [] [] [] [] [] [] []]; vm_compute; reflexivity. Qed.

Lemma lowerChar_upperChar c : lowerChar (upperChar c) = lowerChar c.
Proof. destruct c as [[] [] [] [] [] [] [] []]; vm_compute; reflexivity. Qed.

Lemma lowerChar_idem c : lowerChar (lowerChar c) = lowerChar c.
Proof. destruct c as [[] [] [] [] [] [] [] []]; vm_compute; reflexivity. Qed.

Lemma toLowerCase_no_upper s : sall (λ c, negb (isUpper c)) (toLowerCase s) = true.
Proof.
  induction s as [| c s IH]; [done |].
  unfold toLowerCase in *. cbn [smap sall]. by rewrite lowerChar_not_upper, IH.
Qed.

Lemma smap_smap f g s : smap f (smap g s) = smap (λ c, f (g c)) s.
Proof. induction s as [| c s IH]; [done |]. cbn [smap]. by rewrite IH. Qed.

Lemma smap_ext f g s : (∀ c, f c = g c) → smap f s = smap g s.
Proof. intros H. induction s as [| c s IH]; [done |]. cbn [smap]. by rewrite H, IH. Qed.

Lemma toLowerCase_idem s : toLowerCase (toLowerCase s) = toLowerCase s.
Proof. unfold toLowerCase. rewrite smap_smap. apply smap_ext, lowerChar_idem. Qed.

(** The code units that upper-casing sends to one code unit of the range:
    all but the sharp s, U+00B5 and U+00FF. *)
Definition plainCase (c : ascii) : bool := upperInRange c && negb (isSharpS c).

Lemma isAscii_plainCase c : isAscii c = true → plainCase c = true.
Proof. destruct c as [[] [] [] [] [] [] [] []]; vm_compute; done. Qed.

Lemma sall_ascii_plainCase s : sall isAscii s = true → sall plainCase s = true.
Proof. apply sall_impl, isAscii_plainCase. Qed.

Lemma plainCase_not_sharp c : plainCase c = true → isSharpS c = false.
Proof. unfold plainCase. intros H. apply andb_prop in H as [_ H]. by apply negb_true_iff. Qed.

Lemma toLowerCase_toUpperCase s :
  sall plainCase s = true → toLowerCase (toUpperCase s) = toLowerCase s.
Proof.
  induction s as [| c s IH]; [done |]. cbn [sall]. intros H.
  apply andb_prop in H as [Hc Hs]. cbn [toUpperCase].
  rewrite (plainCase_not_sharp c Hc). unfold toLowerCase in *. cbn [smap].
  by rewrite lowerChar_upperChar, (IH Hs).
Qed.
End StringFacts.

(* --------------------------------------------------------------------- *)
(** *** Cleaning and enrichment                                            *)
(* --------------------------------------------------------------------- *)

Section CleaningFacts.
Import JS DataProcessor.

(** White space that is left after [replace(/\s+/g, ' ')] is the space. *)
Definition plainSpace (c : ascii) : bool := negb (isSpace c) || Ascii.eqb c " ".

Lemma collapseFrom_plain inRun s : sall plainSpace (collapseFrom inRun s) = true.
Proof.
  revert inRun. induction s as [| c s IH]; intros inRun; [done |].
  cbn [collapseFrom]. destruct (isSpace c) eqn:Hc.
  - destruct inRun; [apply IH |]. cbn [sall]. by rewrite IH.
  - cbn [sall]. unfold plainSpace at 1. by rewrite Hc, IH.
Qed.

Lemma decoration_of_space c : isLeadingDecoration c = false → isSpace c = false.
Proof. unfold isLeadingDecoration. intros H. by apply orb_false_elim in H as [H _]. Qed.

Lemma headFails_weaken (p q : ascii → bool) s :
  (∀ c, p c = false → q c = false) → headFails p s → headFails q s.
Proof. intros H. destruct s; [done |]. cbn. apply H. Qed.
End CleaningFacts.

(** X1. The text [cleanText] returns holds no control character, no white
    space other than the space, starts neither with white space nor with a
    hyphen, and has no white space at either end. *)
Theorem X1_cleanText_shape (text : string) :
  let cleaned := DataProcessor.cleanText text in
  JS.sall (λ c, negb (JS.isControl c)) cleaned = true
  ∧ JS.sall plainSpace cleaned = true
  ∧ headFails DataProcessor.isLeadingDecoration cleaned
  ∧ JS.trim cleaned = cleaned.
Proof.
  cbv zeta. unfold DataProcessor.cleanText.
  set (body := JS.dropWhile DataProcessor.isLeadingDecoration
                 (JS.sfilter (λ c, negb (JS.isControl c))
                    (JS.collapseSpaces (JS.trim text)))).
  split; [| split; [| split]].
  - apply sall_trim, sall_dropWhile, sall_sfilter_self.
  - apply sall_trim, sall_dropWhile, sall_sfilter, collapseFrom_plain.
  - assert (Hb : headFails DataProcessor.isLeadingDecoration body)
      by apply dropWhile_headFails.
    unfold JS.trim.
    rewrite (dropWhile_fixed JS.isSpace body
               (headFails_weaken _ _ _ decoration_of_space Hb)).
    apply dropWhileEnd_headFails; [| done].
    by apply (headFails_weaken _ _ _ decoration_of_space).
  - apply trim_idem.
Qed.

(** X2. [extractKeywords] returns at most 20 keywords, no keyword twice; each
    one is longer than three characters, is no stop word, and is made of
    word characters none of which is an upper-case letter. *)
Theorem X2_extractKeywords_shape (product : HempProduct) :
  let kws := DataProcessor.extractKeywords product in
  (length kws ≤ 20)%nat
  ∧ NoDup kws
  ∧ Forall (λ w, (3 < String.length w)%nat
                 ∧ DataProcessor.isStopWord w = false
                 ∧ JS.sall JS.isWord w = true
                 ∧ JS.sall (λ c, negb (JS.isUpper c)) w = true) kws.
Proof.
  cbv zeta. unfold DataProcessor.extractKeywords.
  set (text := product_name product +:+ " " +:+ description product +:+ " "
               +:+ plant_part product +:+ " " +:+ industry product).
  set (words := JS.splitRuns (λ c, negb (JS.isWord c)) (JS.toLowerCase text)).
  split; [apply firstn_le_length |].
  split; [apply NoDup_firstn, uniq_NoDup |].
  apply List.Forall_forall. intros w Hw.
  apply in_firstn, uniq_In, filter_In in Hw as [Hw Hkeep].
  apply andb_prop in Hkeep as [Hlen Hstop].
  pose proof (splitRunsFrom_pieces (λ c, negb (JS.isWord c)) (λ c, negb (JS.isUpper c))
                false (JS.toLowerCase text) (toLowerCase_no_upper text)) as Hpieces.
  apply (proj1 (List.Forall_forall _ _) Hpieces) in Hw as [Hword Hlower].
  split; [by apply Nat.ltb_lt |].
  split; [by apply negb_true_iff |].
  split; [| done].
  apply (sall_impl (λ c, negb (negb (JS.isWord c)))); [| done].
  intros c Hc. by apply negb_true_iff, negb_false_iff in Hc.
Qed.

Section EnrichmentFacts.
Import JS DataProcessor.

Lemma flat_map_length_le {A B} (f : A → list B) (n : nat) (l : list A) :
  (∀ x, length (f x) ≤ n)%nat → (length (flat_map f l) ≤ n * length l)%nat.
Proof.
  intros Hf. induction l as [| x l IH]; cbn [flat_map length]; [lia |].
  rewrite length_app. specialize (Hf x). lia.
Qed.

Definition sentenceOf (text keyword : string) : list string :=
  if includes (toLowerCase text) keyword then
    match find (λ sentence, includes (toLowerCase sentence) keyword)
               (splitRuns isSentenceEnd text) with
    | Some sentence => [cleanText sentence]
    | None => []
    end
  else [].

Lemma sentenceOf_length text keyword : (length (sentenceOf text keyword) ≤ 1)%nat.
Proof.
  unfold sentenceOf. destruct (includes _ keyword); [| cbn; lia].
  destruct (find _ _); cbn; lia.
Qed.

Lemma uniqueCompanies_In keys cs c :
  In c (uniqueCompanies keys cs) → In c cs ∧ ¬ In (toLowerCase (name c)) keys.
Proof.
  revert keys. induction cs as [| d cs IH]; intros keys; [done |].
  cbn [uniqueCompanies]. destruct (existsb _ keys) eqn:E.
  - intros Hc. destruct (IH keys Hc). split; [by right | done].
  - intros [<- | Hc].
    + split; [by left |]. intros Hin. apply existsb_eqb_In in Hin. congruence.
    + destruct (IH _ Hc) as [H1 H2]. split; [by right |].
      intros Hin. apply H2. by right.
Qed.

Lemma uniqueCompanies_NoDup keys cs :
  NoDup (map (λ c, toLowerCase (name c)) (uniqueCompanies keys cs)).
Proof.
  revert keys. induction cs as [| d cs IH]; intros keys; [constructor |].
  cbn [uniqueCompanies]. destruct (existsb _ keys); [apply IH |].
  cbn [map]. apply NoDup_cons. split; [| apply IH].
  intros Hd. apply list_elem_of_In, in_map_iff in Hd as (c & Hc & Hin).
  apply uniqueCompanies_In in Hin as [_ Hin]. apply Hin. rewrite Hc. by left.
Qed.

Lemma companiesOf_shape product c :
  In c (companiesOf product) →
  (2 < String.length (name c))%nat
  ∧ website c = None ∧ company_description c = None
  ∧ primary_focus c = Some (industry product).
Proof.
  unfold companiesOf. intros Hc.
  apply in_flat_map in Hc as (pattern & _ & Hc).
  apply in_flat_map in Hc as (m & _ & Hc).
  destruct (capturedName m) as [g |]; [| done].
  destruct (negb (isEmpty (cleanText g)) && (2 <? String.length (cleanText g))%nat) eqn:E;
    [| done].
  destruct Hc as [<- | []]. cbn. apply andb_prop in E as [_ E].
  by apply Nat.ltb_lt in E.
Qed.
End EnrichmentFacts.

(** X3. The sustainability aspects derived from a text hold no entry twice and
    at most one entry for each of the eleven keywords; each entry is the
    cleaned form of a sentence of the text that contains one of the
    keywords, letter case aside. *)
Theorem X3_extractSustainability_shape (text : string) :
  let aspects := DataProcessor.extractSustainability text in
  NoDup aspects
  ∧ (length aspects ≤ 11)%nat
  ∧ Forall (λ aspect,
            ∃ keyword sentence,
              In keyword DataProcessor.sustainKeywords
              ∧ In sentence (JS.splitRuns DataProcessor.isSentenceEnd text)
              ∧ JS.includes (JS.toLowerCase sentence) keyword = true
              ∧ aspect = DataProcessor.cleanText sentence) aspects.
Proof.
  cbv zeta.
  change (DataProcessor.extractSustainability text)
    with (JS.uniq (flat_map (sentenceOf text) DataProcessor.sustainKeywords)).
  split; [apply uniq_NoDup |]. split.
  - etransitivity; [apply uniqFrom_length |].
    apply (flat_map_length_le (sentenceOf text) 1 DataProcessor.sustainKeywords).
    apply sentenceOf_length.
  - apply List.Forall_forall. intros aspect Ha.
    apply uniq_In, in_flat_map in Ha as (keyword & Hk & Ha).
    unfold sentenceOf in Ha. destruct (JS.includes (JS.toLowerCase text) keyword); [| done].
    destruct (find _ _) as [sentence |] eqn:E; [| done].
    destruct Ha as [<- | []]. apply find_some in E as [Hs Hinc].
    by exists keyword, sentence.
Qed.

(** X4. The companies [extractCompanies] returns have pairwise different names,
    letter case aside; each name is longer than two characters, and each
    company carries the industry of one of the records as its primary focus
    and neither web site nor description. *)
Theorem X4_extractCompanies_shape (products : list HempProduct) :
  let companies := DataProcessor.extractCompanies products in
  NoDup (map (λ c, JS.toLowerCase (name c)) companies)
  ∧ Forall (λ c, (2 < String.length (name c))%nat
                 ∧ website c = None ∧ company_description c = None
                 ∧ ∃ product, In product products
                              ∧ primary_focus c = Some (industry product)) companies.
Proof.
  cbv zeta. unfold DataProcessor.extractCompanies.
  split; [apply uniqueCompanies_NoDup |].
  apply List.Forall_forall. intros c Hc.
  apply uniqueCompanies_In in Hc as [Hc _].
  apply in_flat_map in Hc as (product & Hp & Hc).
  apply companiesOf_shape in Hc as (H1 & H2 & H3 & H4).
  repeat split; try done. by exists product.
Qed.

(* --------------------------------------------------------------------- *)
(** *** Processing a batch                                                 *)
(* --------------------------------------------------------------------- *)

Section BatchFacts.
Import DataProcessor.

(** The canonical form of a raw record. *)
Definition canonicalOf (p : HempProduct) : HempProduct := enrichProduct (cleanProduct p).

Definition hashOf (p : HempProduct) : string := generateHash (cleanProduct p).

Lemma processOne_seen_mono st p h : h ∈ seenHashes st → h ∈ seenHashes (processOne st p).
Proof.
  unfold processOne. destruct (isValidProduct p); cbn; [| done].
  case_bool_decide; cbn; [done | set_solver].
Qed.

Lemma fold_seen_mono ps st h :
  h ∈ seenHashes st → h ∈ seenHashes (fold_left processOne ps st).
Proof.
  revert st. induction ps as [| p ps IH]; intros st Hh; [done |].
  cbn [fold_left]. by apply IH, processOne_seen_mono.
Qed.

Lemma processOne_seen_valid st p :
  isValidProduct p = true → hashOf p ∈ seenHashes (processOne st p).
Proof.
  intros Hv. unfold processOne, hashOf. rewrite Hv. cbn [negb].
  case_bool_decide; cbn; [done | set_solver].
Qed.

Lemma fold_seen_valid ps st p :
  In p ps → isValidProduct p = true →
  hashOf p ∈ seenHashes (fold_left processOne ps st).
Proof.
  revert st. induction ps as [| q ps IH]; intros st Hin Hv; [done |].
  cbn [fold_left]. destruct Hin as [-> | Hin].
  - by apply fold_seen_mono, processOne_seen_valid.
  - by apply IH.
Qed.

(** A batch all of whose valid records are known changes only the
    counters. *)
Lemma fold_all_seen ps st :
  (∀ p, In p ps → isValidProduct p = true → hashOf p ∈ seenHashes st) →
  fold_left processOne ps st
  = mkLoop (seenHashes st) (acc_unique st)
           (acc_duplicates st + length (List.filter isValidProduct ps))
           (acc_invalid st
            + length (List.filter (λ p, negb (isValidProduct p)) ps)).
Proof.
  revert st. induction ps as [| q ps IH]; intros st Hseen.
  - cbn. destruct st. cbn. f_equal; lia.
  - cbn [fold_left List.filter]. rewrite IH.
    + unfold processOne. destruct (isValidProduct q) eqn:Hq; cbn [negb].
      * rewrite bool_decide_eq_true_2 by (apply Hseen; [by left | done]).
        cbn. f_equal; lia.
      * cbn. f_equal; lia.
    + intros p Hp Hv. by apply processOne_seen_mono, Hseen; [right |].
Qed.

(** The records kept by the loop are the canonical forms of valid records
    of the batch, in the order of the batch. *)
Lemma fold_kept ps st :
  ∃ kept, sublist kept (List.filter isValidProduct ps)
          ∧ acc_unique (fold_left processOne ps st)
            = acc_unique st ++ map canonicalOf kept.
Proof.
  revert st. induction ps as [| q ps IH]; intros st.
  - exists []. split; [constructor | by rewrite app_nil_r].
  - cbn [fold_left List.filter]. destruct (IH (processOne st q)) as (kept & Hsub & Heq).
    rewrite Heq. unfold processOne. destruct (isValidProduct q); cbn [negb].
    + case_bool_decide; cbn.
      * exists kept. split; [by apply sublist_cons | done].
      * exists (q :: kept). split; [by apply sublist_skip |].
        by rewrite <- app_assoc.
    + exists kept. by split.
Qed.

(** Valid records with new, pairwise different hashes are all kept. *)
Lemma fold_all_new ps st :
  NoDup (map hashOf (List.filter isValidProduct ps)) →
  (∀ p, In p ps → isValidProduct p = true → hashOf p ∉ seenHashes st) →
  acc_unique (fold_left processOne ps st)
  = acc_unique st ++ map canonicalOf (List.filter isValidProduct ps)
  ∧ acc_duplicates (fold_left processOne ps st) = acc_duplicates st.
Proof.
  revert st. induction ps as [| q ps IH]; intros st Hnd Hnew.
  - cbn. by rewrite app_nil_r.
  - cbn [fold_left List.filter] in *. unfold processOne at 2 4.
    destruct (isValidProduct q) eqn:Hq; cbn [negb].
    + cbn [map] in Hnd. apply NoDup_cons in Hnd as [Hq' Hnd].
      rewrite bool_decide_eq_false_2 by (apply Hnew; [by left | done]).
      destruct (IH (mkLoop ({[generateHash (cleanProduct q)]} ∪ seenHashes st)
                           (acc_unique st ++ [enrichProduct (cleanProduct q)])
                           (acc_duplicates st) (acc_invalid st)) Hnd) as [H1 H2].
      * intros p Hp Hv. cbn. intros Hin. apply elem_of_union in Hin as [Hin | Hin].
        -- apply elem_of_singleton in Hin. apply Hq'. apply list_elem_of_In.
           apply in_map_iff. exists p. split; [done |]. by apply filter_In.
        -- revert Hin. apply Hnew; [by right | done].
      * split; [| done]. rewrite H1. cbn. by rewrite <- app_assoc.
    + destruct (IH (mkLoop (seenHashes st) (acc_unique st) (acc_duplicates st)
                           (S (acc_invalid st))) Hnd) as [H1 H2]; [| by split].
      intros p Hp Hv. cbn. apply Hnew; [by right | done].
Qed.
End BatchFacts.

(** X5. A batch handed to [process] a second time, on the same processor,
    gives no unique record: every valid record of it is counted as a
    duplicate and the set of seen hashes stays as the first pass left it. *)
Theorem X5_process_again_emits_nothing (seen0 : gset string) (products : list HempProduct) :
  let seen1 := (DataProcessor.process seen0 products).2 in
  DataProcessor.process seen1 products
  = (DataProcessor.mkProcessResult
       [] (length (List.filter DataProcessor.isValidProduct products)),
     seen1).
Proof.
  cbv zeta. unfold DataProcessor.process at 1.
  rewrite fold_all_seen; [done |].
  intros p Hp Hv. cbn. by apply fold_seen_valid.
Qed.

(** X6. The unique records of a call of [process] are the cleaned and enriched
    forms of valid records of the batch, in the order of the batch; and the
    hashes the call adds to the set of seen hashes are exactly theirs. *)
Theorem X6_process_emits_canonical_forms
        (seen0 : gset string) (products : list HempProduct) :
  let r := (DataProcessor.process seen0 products).1 in
  let seen1 := (DataProcessor.process seen0 products).2 in
  (∃ kept, sublist kept (List.filter DataProcessor.isValidProduct products)
           ∧ DataProcessor.unique r = map canonicalOf kept)
  ∧ seen1 = list_to_set (map DataProcessor.generateHash (DataProcessor.unique r)) ∪ seen0.
Proof.
  cbv zeta. split.
  - destruct (fold_kept products (DataProcessor.mkLoop seen0 [] 0 0)) as (kept & Hsub & Heq).
    exists kept. split; [done |]. exact Heq.
  - by destruct (process_facts seen0 products) as (_ & H & _).
Qed.

(** X7. When the valid records of a batch have pairwise different hashes,
    none of them seen before, [process] keeps every one of them and counts no
    duplicate. *)
Theorem X7_process_keeps_new_records
        (seen0 : gset string) (products : list HempProduct) :
  NoDup (map hashOf (List.filter DataProcessor.isValidProduct products)) →
  (∀ p, In p products → DataProcessor.isValidProduct p = true → hashOf p ∉ seen0) →
  (DataProcessor.process seen0 products).1
  = DataProcessor.mkProcessResult
      (map canonicalOf (List.filter DataProcessor.isValidProduct products)) 0.
Proof.
  intros Hnd Hnew.
  destruct (fold_all_new products (DataProcessor.mkLoop seen0 [] 0 0) Hnd Hnew) as [H1 H2].
  unfold DataProcessor.process. cbn [fst]. by rewrite H1, H2.
Qed.

(** Three valid records of different names, handed to a fresh processor. *)
Lemma X7_process_keeps_new_records_witness :
  map product_name
      (DataProcessor.unique
         (DataProcessor.process ∅ [ropePlain; seedOilB; twinePlain]).1)
  = ["Hemp rope"; "Hemp"; "Hemp twine"].
Proof.
  assert (Hnd : NoDup (map hashOf (List.filter DataProcessor.isValidProduct
                                     [ropePlain; seedOilB; twinePlain]))).
  { vm_compute. repeat constructor; cbn; intros H; set_solver. }
  assert (Hnew : ∀ p, In p [ropePlain; seedOilB; twinePlain] →
                      DataProcessor.isValidProduct p = true → hashOf p ∉ (∅ : gset string))
    by (intros p _ _; set_solver).
  pose proof (X7_process_keeps_new_records ∅ _ Hnd Hnew) as E.
  apply (f_equal (λ r, map product_name (DataProcessor.unique r))) in E.
  etransitivity; [exact E |]. vm_compute. reflexivity.
Defined.

(* --------------------------------------------------------------------- *)
(** *** Validation and the field heuristics                                *)
(* --------------------------------------------------------------------- *)

(** X8. The plant-part rule of [isValidProduct] tests containment in both
    directions, and every allowed term contains the empty string: a record
    with an empty plant part is accepted or rejected exactly like the same
    record with the plant part "seed". *)
Theorem X8_empty_plant_part_passes
        (nm ind desc src : string) (b : option (list string)) (t : option json)
        (s k : option (list string)) :
  DataProcessor.isValidProduct (mkProduct nm "" ind desc src b t s k)
  = DataProcessor.isValidProduct (mkProduct nm "seed" ind desc src b t s k).
Proof.
  unfold_validator.
  change (JS.isNumeric "") with false. change (JS.isNumeric "seed") with false.
  change (DataProcessor.isValidPlantPart (JS.toLowerCase "")) with true.
  change (DataProcessor.isValidPlantPart (JS.toLowerCase "seed")) with true.
  reflexivity.
Qed.

Section HeuristicFacts.
Import JS Scraper DataProcessor.

Definition plantPartLabels : list string :=
  ["seed"; "fiber"; "flower"; "leaf"; "root"; "stem"; "whole plant"; "unspecified"].

Definition industryLabels : list string :=
  ["Food & Nutrition"; "Textiles"; "Construction"; "Automotive"; "Cosmetics";
   "Pharmaceutical"; "Paper"; "Bioplastics"; "Energy"; "Other"].

Lemma extractPlantPart_label text : In (extractPlantPart text) plantPartLabels.
Proof.
  unfold extractPlantPart, plantPartLabels.
  repeat lazymatch goal with
    | |- In (if ?c then _ else _) _ => destruct c
    end; cbn; tauto.
Qed.

Lemma extractIndustry_label text : In (extractIndustry text) industryLabels.
Proof.
  unfold extractIndustry, industryLabels.
  repeat lazymatch goal with
    | |- In (if ?c then _ else _) _ => destruct c
    end; cbn; tauto.
Qed.

(** The industry rule of the validator. *)
Definition industryPasses (ind : string) : bool :=
  negb (isEmpty ind || String.eqb ind "Other" || isNumeric ind).

Lemma isValidProduct_rules p :
  isValidProduct p = true →
  industryPasses (industry p) = true
  ∧ isValidPlantPart (toLowerCase (plant_part p)) = true.
Proof.
  unfold isValidProduct, industryPasses.
  repeat lazymatch goal with
    | |- (if ?c then _ else _) = true → _ => destruct c eqn:?; [try discriminate |]
    | |- (if ?c then _ else _) = true → _ => destruct c eqn:?
    end; try discriminate; intros _; split; try done.
  all: by apply negb_false_iff.
Qed.
End HeuristicFacts.

(** X9. The two field heuristics and the validator fit together as follows.
    [extractPlantPart] answers with one of eight labels, and the plant-part
    rule of the validator passes each of them but "unspecified";
    [extractIndustry] answers with one of ten labels, and the industry rule
    passes each of them but "Other".  So a record whose plant part or industry
    was guessed from a text without any of the keywords is never valid. *)
Theorem X9_heuristics_meet_validator (text : string) :
  In (Scraper.extractPlantPart text) plantPartLabels
  ∧ In (Scraper.extractIndustry text) industryLabels
  ∧ DataProcessor.isValidPlantPart (JS.toLowerCase (Scraper.extractPlantPart text))
    = negb (String.eqb (Scraper.extractPlantPart text) "unspecified")
  ∧ industryPasses (Scraper.extractIndustry text)
    = negb (String.eqb (Scraper.extractIndustry text) "Other")
  ∧ (∀ nm ind desc src b t s k,
       Scraper.extractPlantPart text = "unspecified" →
       DataProcessor.isValidProduct
         (mkProduct nm (Scraper.extractPlantPart text) ind desc src b t s k) = false)
  ∧ (∀ nm part desc src b t s k,
       Scraper.extractIndustry text = "Other" →
       DataProcessor.isValidProduct
         (mkProduct nm part (Scraper.extractIndustry text) desc src b t s k) = false).
Proof.
  pose proof (extractPlantPart_label text) as Hp.
  pose proof (extractIndustry_label text) as Hi.
  split; [done |]. split; [done |]. split; [| split; [| split]].
  - unfold plantPartLabels in Hp. cbn [In] in Hp.
    repeat (destruct Hp as [<- | Hp]; [vm_compute; reflexivity |]). done.
  - unfold industryLabels in Hi. cbn [In] in Hi.
    repeat (destruct Hi as [<- | Hi]; [vm_compute; reflexivity |]). done.
  - intros nm ind desc src b t s k ->.
    destruct (DataProcessor.isValidProduct _) eqn:E; [| done].
    apply isValidProduct_rules in E as [_ E]. cbn [plant_part] in E.
    vm_compute in E. discriminate.
  - intros nm part desc src b t s k ->.
    destruct (DataProcessor.isValidProduct _) eqn:E; [| done].
    apply isValidProduct_rules in E as [E _]. cbn [industry] in E.
    vm_compute in E. discriminate.
Qed.

(** A list item without any plant-part keyword is guessed "unspecified" and
    rejected. *)
Lemma X9_heuristics_meet_validator_witness :
  DataProcessor.isValidProduct
    (mkProduct "Hemp paper" (Scraper.extractPlantPart "Hemp paper for printing")
               "Paper" "Hemp paper for printing" "" None None None None) = false.
Proof.
  exact (proj1 (proj2 (proj2 (proj2 (proj2
           (X9_heuristics_meet_validator "Hemp paper for printing")))))
           "Hemp paper" "Paper" "Hemp paper for printing" "" None None None None eq_refl).
Defined.

(* --------------------------------------------------------------------- *)
(** *** CSV lines, CSV files and list items                                *)
(* --------------------------------------------------------------------- *)

Section CsvFacts.
Import JS Scraper.

Lemma splitChar_nonempty sep s : splitChar sep s ≠ [].
Proof.
  destruct s as [| c s]; [done |]. cbn [splitChar].
  destruct (Ascii.eqb c sep); [done |]. by destruct (splitChar sep s).
Qed.

(** Outside quotes and without any quote ahead, the loop cuts at the
    commas. *)
Lemma parseCSVLoop_unquoted (s : string) :
  sall notQuote s = true →
  ∀ result current,
    parseCSVLoop result current false s
    = result ++ match splitChar comma s with
                | w :: ws => trim (current +:+ w) :: map trim ws
                | [] => [trim current]
                end.
Proof.
  induction s as [| c s IH]; intros Hs result current.
  - cbn. by rewrite append_empty_r.
  - cbn [sall] in Hs. apply andb_prop in Hs as [Hc Hs].
    unfold notQuote in Hc. apply negb_true_iff in Hc.
    cbn [parseCSVLoop splitChar]. rewrite Hc.
    destruct (Ascii.eqb c comma) eqn:Hcomma; cbn [andb negb].
    + rewrite (IH Hs). pose proof (splitChar_nonempty comma s) as Hne.
      destruct (splitChar comma s) as [| w ws]; [done |].
      rewrite <- app_assoc. cbn [app map]. by rewrite append_empty_r.
    + rewrite (IH Hs). pose proof (splitChar_nonempty comma s) as Hne.
      destruct (splitChar comma s) as [| w ws]; [done |].
      by rewrite append_assoc.
Qed.

Definition trimmed (s : string) : Prop := trim s = s.

(** Whatever the line, the loop adds at least one field and only trimmed
    ones. *)
Lemma parseCSVLoop_fields n :
  ∀ line result current inQuotes,
    (String.length line ≤ n)%nat →
    Forall trimmed result →
    Forall trimmed (parseCSVLoop result current inQuotes line)
    ∧ (length result < length (parseCSVLoop result current inQuotes line))%nat.
Proof.
  induction n as [| n IH]; intros line result current inQuotes Hlen Hres.
  - destruct line; [| cbn in Hlen; lia]. cbn [parseCSVLoop]. split.
    + apply Forall_app. split; [done |]. constructor; [apply trim_idem | constructor].
    + rewrite length_app. cbn. lia.
  - destruct line as [| c rest].
    { cbn [parseCSVLoop]. split.
      + apply Forall_app. split; [done |]. constructor; [apply trim_idem | constructor].
      + rewrite length_app. cbn. lia. }
    cbn [String.length] in Hlen.
    assert (Hgrow : Forall trimmed (result ++ [trim current])).
    { apply Forall_app. split; [done |]. constructor; [apply trim_idem | constructor]. }
    cbn [parseCSVLoop]. destruct (Ascii.eqb c dquote).
    + destruct rest as [| d rest'].
      * apply IH; [cbn; lia | done].
      * destruct (inQuotes && Ascii.eqb d dquote).
        -- apply IH; [cbn in Hlen; lia | done].
        -- apply IH; [lia | done].
    + destruct (Ascii.eqb c comma && negb inQuotes).
      * destruct (IH rest (result ++ [trim current]) EmptyString inQuotes) as [H1 H2];
          [lia | done |]. split; [done |]. rewrite length_app in H2. cbn in H2. lia.
      * apply IH; [lia | done].
Qed.
End CsvFacts.

(** X10. A line without any double quote is cut at its commas and each piece
    is trimmed: [parseCSVLine] gives the trimmed pieces of [line.split(',')],
    one more than there are commas. *)
Theorem X10_parseCSVLine_unquoted (line : string) :
  JS.sall notQuote line = true →
  Scraper.parseCSVLine line = map JS.trim (JS.splitChar Scraper.comma line).
Proof.
  intros Hline. unfold Scraper.parseCSVLine.
  rewrite (parseCSVLoop_unquoted line Hline).
  pose proof (splitChar_nonempty Scraper.comma line) as Hne.
  by destruct (JS.splitChar Scraper.comma line).
Qed.

Lemma X10_parseCSVLine_unquoted_witness :
  Scraper.parseCSVLine "Hemp Fiber Rope , Used in textiles,,fiber "
  = ["Hemp Fiber Rope"; "Used in textiles"; ""; "fiber"].
Proof.
  exact (X10_parseCSVLine_unquoted "Hemp Fiber Rope , Used in textiles,,fiber " eq_refl).
Defined.

(** X11. Whatever the line, quotes balanced or not, [parseCSVLine] returns at
    least one field, and no field it returns has white space at either
    end. *)
Theorem X11_parseCSVLine_fields (line : string) :
  Scraper.parseCSVLine line ≠ []
  ∧ Forall (λ field, JS.trim field = field) (Scraper.parseCSVLine line).
Proof.
  destruct (parseCSVLoop_fields (String.length line) line [] EmptyString false)
    as [H1 H2]; [lia | constructor |].
  split; [| exact H1].
  unfold Scraper.parseCSVLine. intros E. rewrite E in H2. cbn in H2. lia.
Qed.

(** X12. A quote that is never closed takes the rest of the line, commas
    included, into one field. *)
Theorem X12_parseCSVLine_open_quote (text : string) :
  JS.sall notQuote text = true →
  Scraper.parseCSVLine (quote +:+ text) = [JS.trim text].
Proof.
  intros Htext. unfold Scraper.parseCSVLine.
  assert (Hopen : Scraper.parseCSVLoop [] "" false (quote +:+ text)
                  = Scraper.parseCSVLoop [] "" true text).
  { unfold quote. rewrite append_cons. cbn [Scraper.parseCSVLoop].
    rewrite Ascii.eqb_refl. by destruct text. }
  rewrite Hopen. rewrite <- (append_empty_r text) at 1.
  by rewrite (parseCSVLoop_quoted_text text Htext).
Qed.

Lemma X12_parseCSVLine_open_quote_witness :
  Scraper.parseCSVLine (quote +:+ "High in Omega-3, Omega-6,seed")
  = ["High in Omega-3, Omega-6,seed"].
Proof.
  exact (X12_parseCSVLine_open_quote "High in Omega-3, Omega-6,seed" eq_refl).
Defined.

Section CsvFileFacts.
Import JS Scraper.

Lemma parseCSVRow_shape cols url line p :
  parseCSVRow cols url line = Some p →
  product_name p ≠ "" ∧ trim (product_name p) = product_name p
  ∧ (sourceIdx cols = None → source_url p = url).
Proof.
  unfold parseCSVRow. destruct (nameIdx cols) as [n |]; [| done].
  destruct (n <? length (parseCSVLine line))%nat eqn:Hn; [| done].
  destruct (isEmpty (nth n (parseCSVLine line) "")) eqn:He; [done |].
  cbn [andb negb]. intros [= <-]. cbn [product_name source_url].
  assert (Hname : orElse (nth n (parseCSVLine line) "") "Unknown"
                  = nth n (parseCSVLine line) "")
    by (unfold orElse; by rewrite He).
  rewrite Hname. split; [| split].
  - intros E. by rewrite E in He.
  - apply Nat.ltb_lt in Hn.
    destruct (parseCSVLoop_fields (String.length line) line [] "" false)
      as [Hfields _]; [lia | constructor |].
    apply (proj1 (List.Forall_forall _ _) Hfields). by apply nth_In.
  - by intros ->.
Qed.

Lemma flat_map_option_length {A B} (f : A → option B) (l : list A) :
  (length (flat_map (λ x, match f x with Some y => [y] | None => [] end) l)
   ≤ length l)%nat.
Proof.
  induction l as [| x l IH]; [done |]. cbn [flat_map length].
  rewrite length_app. destruct (f x); cbn; lia.
Qed.
End CsvFileFacts.

(** X13. What [scrapeCSV] makes of the text of a file: nothing when the file
    has fewer than two lines that are not blank, and nothing when no cell of
    the header row contains "product" or "name"; otherwise at most one record
    for each line after the header, each with a name that is not empty and
    has no white space at its ends, and, when no header cell contains
    "source" or "url", with the URL of the file as its source. *)
Theorem X13_scrapeCSV_records (data url : string) :
  let lines := List.filter Scraper.nonBlank (JS.splitChar Scraper.newline data) in
  let cols := Scraper.columnsOf (Scraper.parseCSVLine (JS.toLowerCase (hd "" lines))) in
  let records := Scraper.scrapeCSVData data url in
  ((length lines < 2)%nat → records = [])
  ∧ (Scraper.nameIdx cols = None → records = [])
  ∧ (length records ≤ length lines - 1)%nat
  ∧ Forall (λ p, product_name p ≠ "" ∧ JS.trim (product_name p) = product_name p
                 ∧ (Scraper.sourceIdx cols = None → source_url p = url)) records.
Proof.
  cbv zeta. unfold Scraper.scrapeCSVData.
  set (lines := List.filter Scraper.nonBlank (JS.splitChar Scraper.newline data)).
  set (cols := Scraper.columnsOf (Scraper.parseCSVLine (JS.toLowerCase (hd "" lines)))).
  destruct (length lines <? 2)%nat eqn:Hfew.
  { split; [done |]. split; [done |]. split; [cbn; lia | constructor]. }
  apply Nat.ltb_ge in Hfew. split; [lia |]. split; [| split].
  - intros Hnone. assert (Hrow : ∀ line, Scraper.parseCSVRow cols url line = None)
      by (intros line; unfold Scraper.parseCSVRow; by rewrite Hnone).
    induction (tl lines) as [| l ls IH]; [done |]. cbn [flat_map]. by rewrite Hrow, IH.
  - etransitivity; [apply (flat_map_option_length (Scraper.parseCSVRow cols url)) |].
    destruct lines; cbn; lia.
  - apply List.Forall_forall. intros p Hp.
    apply in_flat_map in Hp as (line & _ & Hp).
    destruct (Scraper.parseCSVRow cols url line) as [q |] eqn:E; [| done].
    destruct Hp as [<- | []]. by apply (parseCSVRow_shape cols url line).
Qed.

(** A file of a header and two rows, the second without a name. *)
Definition sampleCsv : string :=
  "Product Name,Use Case,Plant Part" +:+ String Scraper.newline
    ("Hemp Fiber Rope,Used in textiles,fiber" +:+ String Scraper.newline
       ",Used in cooking,seed").

Lemma X13_scrapeCSV_records_witness :
  map product_name (Scraper.scrapeCSVData sampleCsv "file:///sample.csv") = ["Hemp Fiber Rope"]
  ∧ Scraper.scrapeCSVData "name,use" "file:///sample.csv" = []
  ∧ Scraper.scrapeCSVData
      ("Use Case,Plant Part" +:+ String Scraper.newline "Used in textiles,fiber")
      "file:///sample.csv" = [].
Proof.
  split; [vm_compute; reflexivity |]. split.
  - exact (proj1 (X13_scrapeCSV_records "name,use" "file:///sample.csv")
             (le_n 2)).
  - exact (proj1 (proj2 (X13_scrapeCSV_records
                           ("Use Case,Plant Part" +:+ String Scraper.newline
                              "Used in textiles,fiber")
                           "file:///sample.csv")) eq_refl).
Defined.

Section TextFacts.
Import JS Scraper.

Lemma splitAt_pieces p s : Forall (λ w, sall (λ c, negb (p c)) w = true) (splitAt p s).
Proof.
  induction s as [| c s IH]; [by repeat constructor |].
  cbn [splitAt]. destruct (p c) eqn:Hp; [by constructor |].
  destruct (splitAt p s) as [| w ws].
  - constructor; [| constructor]. cbn [sall]. by rewrite Hp.
  - apply Forall_cons in IH as [Hw Hws]. constructor; [| done].
    cbn [sall]. by rewrite Hp, Hw.
Qed.

Lemma splitAt_nonempty p s : splitAt p s ≠ [].
Proof.
  destruct s as [| c s]; [done |]. cbn [splitAt].
  destruct (p c); [done |]. by destruct (splitAt p s).
Qed.
End TextFacts.

(** X14. When [parseTextToProduct] returns a record, its name has at least
    three characters, no white space at its ends and neither hyphen nor
    colon; its description is not empty (the name stands in for a missing
    one); plant part and industry are guessed from the whole text, and the
    source is the URL given. *)
Theorem X14_parseTextToProduct_record (text sourceUrl : string) (p : HempProduct) :
  Scraper.parseTextToProduct text sourceUrl = Some p →
  (3 ≤ String.length (product_name p))%nat
  ∧ JS.trim (product_name p) = product_name p
  ∧ JS.sall (λ c, negb (Scraper.isNameSeparator c)) (product_name p) = true
  ∧ description p ≠ ""
  ∧ plant_part p = Scraper.extractPlantPart text
  ∧ industry p = Scraper.extractIndustry text
  ∧ source_url p = sourceUrl.
Proof.
  unfold Scraper.parseTextToProduct.
  set (parts := JS.splitAt Scraper.isNameSeparator text).
  set (nm := JS.trim (hd "" parts)).
  set (desc := JS.trim (JS.join " " (tl parts))).
  destruct (JS.isEmpty nm) eqn:Hempty; [done |].
  destruct (String.length nm <? 3)%nat eqn:Hlen; [done |].
  cbn [orb]. intros [= <-]. cbn.
  apply Nat.ltb_ge in Hlen. split; [done |]. split; [apply trim_idem |].
  split; [| split; [| done]].
  - apply sall_trim. pose proof (splitAt_pieces Scraper.isNameSeparator text) as Hp.
    pose proof (splitAt_nonempty Scraper.isNameSeparator text) as Hne.
    fold parts in Hp, Hne. destruct parts as [| w ws]; [done |].
    by apply Forall_cons in Hp as [Hw _].
  - destruct (JS.isEmpty desc) eqn:Hd.
    + intros E. by rewrite E in Hempty.
    + intros E. by rewrite E in Hd.
Qed.

(** The list item "Hemp oil - cold pressed: food use". *)
Definition oilItem : HempProduct :=
  mkProduct "Hemp oil" "seed" "Food & Nutrition" "cold pressed  food use" "https://example.org"
            None None None None.

Lemma X14_parseTextToProduct_record_witness :
  Scraper.parseTextToProduct "Hemp oil - cold pressed: food use" "https://example.org"
  = Some oilItem
  ∧ (3 ≤ String.length (product_name oilItem))%nat.
Proof.
  assert (E : Scraper.parseTextToProduct "Hemp oil - cold pressed: food use"
                "https://example.org" = Some oilItem) by (vm_compute; reflexivity).
  split; [exact E |].
  exact (proj1 (X14_parseTextToProduct_record _ _ _ E)).
Defined.

(* --------------------------------------------------------------------- *)
(** *** JSON items                                                         *)
(* --------------------------------------------------------------------- *)

Section JsonFacts.
Import JS Json Scraper.

Lemma truthy_string s : truthy (Some (JStr s)) = true → s ≠ "".
Proof. cbn. by destruct s. Qed.

(** A field read as [a || b || guess] is truthy when the guess is. *)
Lemma por_truthy a b c : truthy c = true → truthy (por a (por b c)) = true.
Proof.
  intros Hc. unfold por. destruct (truthy a) eqn:Ha; [done |].
  by destruct (truthy b) eqn:Hb.
Qed.

Lemma label_nonempty (labels : list string) l :
  forallb (λ x, negb (isEmpty x)) labels = true → In l labels → l ≠ "".
Proof.
  intros Hall Hin. rewrite forallb_forall in Hall. specialize (Hall l Hin).
  intros ->. done.
Qed.

Lemma label_truthy (labels : list string) l :
  forallb (λ x, negb (isEmpty x)) labels = true → In l labels →
  truthy (Some (JStr l)) = true.
Proof.
  intros Hall Hin. rewrite forallb_forall in Hall. exact (Hall l Hin).
Qed.

(** The shape of an object [parseJSONItem] builds. *)
Definition built (url : string) (raw : RawProduct) : Prop :=
  raw_source_url raw = url
  ∧ truthy (raw_plant_part raw) = true
  ∧ truthy (raw_industry raw) = true.

Lemma parseJSONItem_shape item url raw :
  parseJSONItem item url = Normal (Some raw) → built url raw.
Proof.
  unfold parseJSONItem.
  set (nm := por (prop item "product")
                 (por (prop item "name") (por (prop item "title") (prop item "item")))).
  set (desc := por (prop item "description")
                   (por (prop item "details") (por (prop item "use") (Some (JStr ""))))).
  assert (Hshape :
    (if negb (truthy nm) then Normal None
     else match toStrOpt nm, toStrOpt desc with
          | Some nameText, Some descriptionText =>
              Normal
                (Some
                   {| raw_name := nameText;
                      raw_description := descriptionText;
                      raw_plant_part :=
                        por (prop item "plant_part")
                            (por (prop item "part")
                                 (Some (JStr (extractPlantPart
                                                (nameText +:+ " " +:+ descriptionText)))));
                      raw_industry :=
                        por (prop item "industry")
                            (por (prop item "sector")
                                 (Some (JStr (extractIndustry
                                                (nameText +:+ " " +:+ descriptionText)))));
                      raw_source_url := url;
                      raw_benefits := por (prop item "benefits") (prop item "advantages");
                      raw_technical_specs :=
                        por (prop item "specifications") (prop item "specs");
                      raw_keywords := por (prop item "keywords") (prop item "tags") |})
          | _, _ => Throws NotPrimitive
          end) = Normal (Some raw) → built url raw).
  { destruct (negb (truthy nm)); [done |].
    destruct (toStrOpt nm) as [nameText |]; [| done].
    destruct (toStrOpt desc) as [descriptionText |]; [| done].
    intros [= <-]. unfold built. cbn [raw_source_url raw_plant_part raw_industry].
    split; [done |]. split; apply por_truthy.
    - apply (label_truthy plantPartLabels _ eq_refl (extractPlantPart_label _)).
    - apply (label_truthy industryLabels _ eq_refl (extractIndustry_label _)). }
  destruct item; try done; exact Hshape.
Qed.

Lemma parseItems_shape items url raws :
  parseItems items url = Normal raws → Forall (built url) raws.
Proof.
  revert raws. induction items as [| item items IH]; intros raws.
  - cbn. intros [= <-]. constructor.
  - cbn [parseItems]. unfold bind.
    destruct (parseJSONItem item url) as [parsed | e] eqn:Hitem; [| done].
    destruct (parseItems items url) as [rest | e]; [| done].
    intros [= <-]. specialize (IH rest eq_refl).
    destruct parsed as [raw |]; [| done].
    constructor; [by apply (parseJSONItem_shape item) | done].
Qed.

Lemma scrapeJSONData_shape data url raws :
  scrapeJSONData data url = Normal raws → Forall (built url) raws.
Proof.
  destruct data as [| b | z | s | items | props]; cbn [scrapeJSONData];
    try (intros [= <-]; constructor); try done; apply parseItems_shape.
Qed.

Lemma typedProduct_shape url raw p :
  built url raw → typedProduct raw = Some p →
  source_url p = url ∧ plant_part p ≠ "" ∧ industry p ≠ ""
  ∧ sustainability_aspects p = None.
Proof.
  intros (Hurl & Hpart & Hind). unfold typedProduct.
  destruct (raw_plant_part raw) as [[| | | part | |] |]; try done.
  destruct (raw_industry raw) as [[| | | ind | |] |]; try done. cbn [asString].
  destruct (asStringList (raw_benefits raw)); [| done].
  destruct (asStringList (raw_keywords raw)); [| done].
  intros [= <-]. cbn. split; [done |]. split; [| split; [| done]].
  - by apply truthy_string.
  - by apply truthy_string.
Qed.

Lemma allTyped_shape url raws ps :
  Forall (built url) raws → allTyped raws = Some ps →
  Forall (λ p, source_url p = url ∧ plant_part p ≠ "" ∧ industry p ≠ ""
               ∧ sustainability_aspects p = None) ps.
Proof.
  intros Hraws. revert ps. induction Hraws as [| raw raws Hraw Hraws IH]; intros ps.
  - cbn. intros [= <-]. constructor.
  - cbn [allTyped]. destruct (typedProduct raw) as [p |] eqn:Hp; [| done].
    destruct (allTyped raws) as [qs |]; [| done]. intros [= <-].
    constructor; [by apply (typedProduct_shape url raw) | by apply IH].
Qed.
End JsonFacts.

(** X15. Every object [scrapeJSON] builds out of a parsed JSON body, be it an
    array or an object with arrays among its properties, has the URL of the
    source as its source and a plant part and an industry that are truthy
    (the item's own value, of whatever type, or else the guess from its name
    and description); when these objects have the declared type, plant part
    and industry are strings that are not empty, and there are no
    sustainability aspects yet.  A body that is [null] makes [scrapeJSON]
    throw; a boolean, a number or a string gives no record. *)
Theorem X15_scrapeJSON_records (data : json) (url : string) :
  (∀ raws, Scraper.scrapeJSONData data url = Json.Normal raws →
           Forall (λ raw, raw_source_url raw = url
                          ∧ Json.truthy (raw_plant_part raw) = true
                          ∧ Json.truthy (raw_industry raw) = true) raws)
  ∧ (∀ records, Scraper.typedProducts (Scraper.scrapeJSONData data url) = Some records →
                Forall (λ p, source_url p = url ∧ plant_part p ≠ "" ∧ industry p ≠ ""
                             ∧ sustainability_aspects p = None) records)
  ∧ match data with
    | JNull => Scraper.scrapeJSONData data url = Json.Throws Json.NullToObject
    | JBool _ | JNum _ | JStr _ => Scraper.scrapeJSONData data url = Json.Normal []
    | JArr _ | JObj _ => True
    end.
Proof.
  split; [| split].
  - intros raws Hraws. by apply (scrapeJSONData_shape data url).
  - intros records. unfold Scraper.typedProducts.
    destruct (Scraper.scrapeJSONData data url) as [raws | e] eqn:Hraws; [| done].
    apply allTyped_shape. by apply (scrapeJSONData_shape data url).
  - by destruct data.
Qed.

(** An object whose property "products" holds the rope and a nameless item,
    and whose property "1" holds nothing that is an array. *)
Lemma X15_scrapeJSON_records_witness :
  Scraper.typedProducts
    (Scraper.scrapeJSONData
       (JObj [("count", JNum 2);
              ("products", JArr [ropeItem; JObj [("description", JStr "no name")]]);
              ("1", JStr "page")])
       "https://example.org/data.json")
  = Some [ropeRaw "https://example.org/data.json"]
  ∧ plant_part (ropeRaw "https://example.org/data.json") ≠ "".
Proof.
  assert (E : Scraper.typedProducts
                (Scraper.scrapeJSONData
                   (JObj [("count", JNum 2);
                          ("products",
                           JArr [ropeItem; JObj [("description", JStr "no name")]]);
                          ("1", JStr "page")])
                   "https://example.org/data.json")
              = Some [ropeRaw "https://example.org/data.json"])
    by (vm_compute; reflexivity).
  split; [exact E |].
  pose proof (proj1 (proj2 (X15_scrapeJSON_records _ _)) _ E) as H.
  apply Forall_cons in H as [(_ & H & _) _]. exact H.
Defined.

(* --------------------------------------------------------------------- *)
(** *** Scoring and selection                                              *)
(* --------------------------------------------------------------------- *)

Section ViabilityFacts.
Import Discovery.
Local Open Scope float_scope.

(** Which combinations reach the threshold 0.6. *)
Definition viableCase (t : SourceType) (open official government : bool) : bool :=
  match t with
  | csv | json_t => true
  | html => open || official || government
  | pdf => (open && official) || (open && government) || (official && government)
  end.

Lemma viable_case t o f g :
  (Config.minScoreThreshold <=? scoreCase t o f g) = viableCase t o f g.
Proof. destruct t, o, f, g; vm_compute; reflexivity. Qed.

(** Structured formats score above pages, pages above PDF files. *)
Definition formatRank (t : SourceType) : nat :=
  match t with
  | csv | json_t => 2
  | html => 1
  | pdf => 0
  end.

Lemma format_order t1 t2 o f g :
  (formatRank t2 < formatRank t1)%nat →
  (scoreCase t2 o f g <? scoreCase t1 o f g) = true.
Proof.
  destruct t1, t2; cbn; try lia; intros _; destruct o, f, g; vm_compute; reflexivity.
Qed.

Lemma licence_order t f g : (scoreCase t false f g <? scoreCase t true f g) = true.
Proof. destruct t, f, g; vm_compute; reflexivity. Qed.

Lemma isOpenLicense_case l :
  JS.sall isAscii l = true → isOpenLicense (JS.toUpperCase l) = isOpenLicense l.
Proof.
  intros Hl. unfold isOpenLicense.
  by rewrite (toLowerCase_toUpperCase l (sall_ascii_plainCase l Hl)).
Qed.
End ViabilityFacts.

(** X16. Which sources pass the threshold 0.6 under the configured weights:
    every CSV or JSON source, whatever its licence and URL; a page when it
    has an open licence or one of the two URL bonuses; a PDF file when it has
    two of these three. *)
Theorem X16_viable_sources (source : DataSource) :
  Discovery.viable (Discovery.scoreSource source)
  = match type source with
    | csv | json_t => true
    | html => Discovery.hasOpenLicense source || Discovery.isOfficial source
              || Discovery.isGovernmentData source
    | pdf => (Discovery.hasOpenLicense source && Discovery.isOfficial source)
             || (Discovery.hasOpenLicense source && Discovery.isGovernmentData source)
             || (Discovery.isOfficial source && Discovery.isGovernmentData source)
    end.
Proof.
  unfold Discovery.viable. cbn [Discovery.scoreSource score].
  rewrite scoreOf_case, viable_case. reflexivity.
Qed.

(** X17. With the same URL, a source scores strictly higher the more
    structured its format (CSV or JSON above a page, a page above a PDF file)
    when the licences are equally open, and strictly higher with an open
    licence than without one when the formats are the same. *)
Theorem X17_score_order (a b : DataSource) :
  url a = url b →
  ((formatRank (type b) < formatRank (type a))%nat →
   Discovery.hasOpenLicense a = Discovery.hasOpenLicense b →
   (score (Discovery.scoreSource b) <? score (Discovery.scoreSource a))%float = true)
  ∧ (type a = type b →
     Discovery.hasOpenLicense a = true → Discovery.hasOpenLicense b = false →
     (score (Discovery.scoreSource b) <? score (Discovery.scoreSource a))%float = true).
Proof.
  intros Hurl. cbn [Discovery.scoreSource score]. rewrite !scoreOf_case.
  unfold Discovery.isOfficial, Discovery.isGovernmentData. rewrite Hurl. split.
  - intros Hrank ->. by apply format_order.
  - intros -> -> ->. apply licence_order.
Qed.

(** A page gains by the MIT licence, and a CSV file under that licence scores
    above the page, at the same address. *)
Lemma X17_score_order_witness :
  (score (Discovery.scoreSource (mkSource "https://example.com/hemp" html 0 None))
   <? score (Discovery.scoreSource (mkSource "https://example.com/hemp" html 0 (Some "MIT"))))%float
  = true
  ∧ (score (Discovery.scoreSource (mkSource "https://example.com/hemp" html 0 (Some "MIT")))
     <? score (Discovery.scoreSource (mkSource "https://example.com/hemp" csv 0 (Some "MIT"))))%float
    = true.
Proof.
  split.
  - exact (proj2 (X17_score_order
                    (mkSource "https://example.com/hemp" html 0 (Some "MIT"))
                    (mkSource "https://example.com/hemp" html 0 None) eq_refl)
             eq_refl eq_refl eq_refl).
  - exact (proj1 (X17_score_order
                    (mkSource "https://example.com/hemp" csv 0 (Some "MIT"))
                    (mkSource "https://example.com/hemp" html 0 (Some "MIT")) eq_refl)
             (le_n 2) eq_refl).
Defined.

(** X18. The licence of a source counts the same in upper case: for a licence
    text of ASCII characters, the score does not change when the text is
    upper-cased. *)
Theorem X18_licence_case_insensitive (source : DataSource) :
  (∀ l, license source = Some l → JS.sall isAscii l = true) →
  score (Discovery.scoreSource
           (mkSource (url source) (type source) (score source)
                     (option_map JS.toUpperCase (license source))))
  = score (Discovery.scoreSource source).
Proof.
  intros Hascii.
  cbn [Discovery.scoreSource score]. rewrite !scoreOf_case. cbn [type].
  unfold Discovery.isOfficial, Discovery.isGovernmentData, Discovery.hasOpenLicense.
  cbn [url license]. destruct (license source) as [l |]; [| done].
  cbn [option_map]. rewrite (isOpenLicense_case l (Hascii l eq_refl)).
  destruct l as [| c l]; [done |]. cbn [JS.toUpperCase].
  by destruct (JS.isSharpS c).
Qed.

(** A page under the licence written "mit" or "MIT". *)
Lemma X18_licence_case_insensitive_witness :
  score (Discovery.scoreSource (mkSource "https://example.com/hemp" html 0 (Some "MIT")))
  = score (Discovery.scoreSource (mkSource "https://example.com/hemp" html 0 (Some "mit"))).
Proof.
  apply (X18_licence_case_insensitive
           (mkSource "https://example.com/hemp" html 0 (Some "mit"))).
  intros l [= <-]. reflexivity.
Defined.

(** X19. [findDataSources] returns as many sources as pass the threshold, up
    to 10; when at most 10 pass, it returns all of them, rearranged. *)
Theorem X19_selection_loses_nothing_below_ten (allSources : list DataSource) :
  let viableSources := List.filter Discovery.viable (Discovery.scoreSources allSources) in
  length (Discovery.findDataSources allSources) = Nat.min 10 (length viableSources)
  ∧ ((length viableSources ≤ 10)%nat →
     Permutation (Discovery.findDataSources allSources) viableSources).
Proof.
  cbv zeta. unfold Discovery.findDataSources.
  set (viableSources := List.filter Discovery.viable (Discovery.scoreSources allSources)).
  pose proof (sortByScore_perm viableSources) as Hperm.
  split.
  - by rewrite length_firstn, <- (Permutation_length Hperm).
  - intros Hle. rewrite firstn_all2; [by apply Permutation_sym |].
    by rewrite <- (Permutation_length Hperm).
Qed.

Lemma X19_selection_loses_nothing_below_ten_witness :
  Permutation
    (Discovery.findDataSources
       [mkSource "https://hempindustrydaily.com/data/" html 0 None; ropeSource])
    [Discovery.scoreSource ropeSource].
Proof.
  exact (proj2 (X19_selection_loses_nothing_below_ten
                  [mkSource "https://hempindustrydaily.com/data/" html 0 None; ropeSource])
           (le_S _ _ (le_S _ _ (le_S _ _ (le_S _ _ (le_S _ _ (le_S _ _
              (le_S _ _ (le_S _ _ (le_S _ _ (le_n 1))))))))))).
Defined.

(* --------------------------------------------------------------------- *)
(** *** Saving in batches                                                  *)
(* --------------------------------------------------------------------- *)

Section BatchingFacts.
Import DatabaseService.

Lemma batchesOf_spec {A} (size : nat) :
  (0 < size)%nat →
  ∀ fuel (l : list A),
    (length l ≤ fuel)%nat →
    concat (batchesOf fuel size l) = l
    ∧ Forall (λ b, (1 ≤ length b ≤ size)%nat) (batchesOf fuel size l).
Proof.
  intros Hsize. induction fuel as [| fuel IH]; intros l Hlen.
  - destruct l; [by split; [| constructor] | cbn in Hlen; lia].
  - destruct l as [| x l]; [by split; [| constructor] |].
    cbn [batchesOf]. destruct (IH (skipn size (x :: l))) as [H1 H2].
    { rewrite length_skipn. cbn [length] in *. lia. }
    split.
    + cbn [concat]. by rewrite H1, firstn_skipn.
    + constructor; [| done]. rewrite length_firstn. cbn [length]. lia.
Qed.

(** The rows a reply counts for, and whether it is a failure. *)
Definition rowsOf (reply : DbReply) : nat :=
  match reply with
  | Rows n => n
  | Refused _ | Raised _ => 0
  end.

Definition isFailure (reply : DbReply) : bool :=
  match reply with
  | Rows _ => false
  | Refused _ | Raised _ => true
  end.

Lemma saveBatch_fold upsert batches result :
  let final := fold_left (saveBatch upsert) batches result in
  count final = count result + list_sum (map (λ b, rowsOf (upsert b)) batches)
  ∧ length (save_errors final)
    = length (save_errors result)
      + length (List.filter (λ b, isFailure (upsert b)) batches).
Proof.
  cbv zeta. revert result. induction batches as [| b bs IH]; intros result.
  - cbn. lia.
  - cbn [fold_left map list_sum List.filter]. destruct (IH (saveBatch upsert result b))
      as [H1 H2]. rewrite H1, H2. unfold saveBatch.
    unfold list_sum. destruct (upsert b); cbn; rewrite ?length_app; cbn; lia.
Qed.
Lemma saveProducts_facts upsert (products : list HempProduct) :
  let batches := batchesOf (length products) Config.batchSize products in
  let saved := saveProducts upsert products in
  concat batches = products
  ∧ Forall (λ b, (1 ≤ length b ≤ 500)%nat) batches
  ∧ count saved = list_sum (map (λ b, rowsOf (upsert b)) batches)
  ∧ length (save_errors saved) = length (List.filter (λ b, isFailure (upsert b)) batches).
Proof.
  cbv zeta.
  destruct (batchesOf_spec Config.batchSize ltac:(unfold Config.batchSize; lia)
              (length products) products (le_n _)) as [H1 H2].
  split; [done |]. split; [done |].
  unfold saveProducts. destruct products as [| p ps]; [by cbn |].
  destruct (saveBatch_fold upsert
              (batchesOf (length (p :: ps)) Config.batchSize (p :: ps))
              (mkSave 0 [])) as [H3 H4].
  by rewrite H3, H4.
Qed.

Lemma saveProducts_stored upsert (products : list HempProduct) :
  (∀ batch, upsert batch = Rows (length batch)) →
  saveProducts upsert products = mkSave (length products) [].
Proof.
  intros Hstore.
  destruct (saveProducts_facts upsert products) as (H1 & _ & H3 & H4).
  destruct (saveProducts upsert products) as [n errs].
  cbn [count save_errors] in *.
  remember (batchesOf (length products) Config.batchSize products) as bs eqn:Hbs.
  clear Hbs. subst products. f_equal.
  - rewrite H3. clear H3 H4. induction bs as [| b bs IH]; [done |].
    cbn [map concat]. rewrite length_app, Hstore. cbn [rowsOf].
    unfold list_sum in *. cbn [foldr]. by rewrite IH.
  - apply length_zero_iff_nil. rewrite H4. clear H3 H4.
    induction bs as [| b bs IH]; [done |].
    cbn [List.filter]. by rewrite Hstore.
Qed.
End BatchingFacts.

(** X20. [saveProducts] offers the records to the datastore in consecutive
    batches of 1 to 500 records that together are the list it was given, in
    order.  Every batch is tried, whatever happened to the ones before: the
    count returned is the sum of the rows of the batches that were accepted,
    and there is one error message for each batch refused or failed. *)
Theorem X20_saveProducts_batches
        (upsert : list HempProduct → DatabaseService.DbReply) (products : list HempProduct) :
  let batches := DatabaseService.batchesOf (length products) Config.batchSize products in
  let saved := DatabaseService.saveProducts upsert products in
  concat batches = products
  ∧ Forall (λ b, (1 ≤ length b ≤ 500)%nat) batches
  ∧ DatabaseService.count saved = list_sum (map (λ b, rowsOf (upsert b)) batches)
  ∧ length (DatabaseService.save_errors saved)
    = length (List.filter (λ b, isFailure (upsert b)) batches).
Proof. apply saveProducts_facts. Qed.

(** X21. With a datastore that stores every row it is offered, [saveProducts]
    reports as many rows as it was given records, and no error. *)
Theorem X21_saveProducts_all_stored
        (upsert : list HempProduct → DatabaseService.DbReply) (products : list HempProduct) :
  (∀ batch, upsert batch = DatabaseService.Rows (length batch)) →
  DatabaseService.saveProducts upsert products
  = DatabaseService.mkSave (length products) [].
Proof. apply saveProducts_stored. Qed.

(** Seven hundred records go in two batches, of 500 and of 200. *)
Lemma X21_saveProducts_all_stored_witness :
  DatabaseService.saveProducts (λ batch, DatabaseService.Rows (length batch))
                               (repeat twinePlain 700)
  = DatabaseService.mkSave 700 [].
Proof.
  pose proof (X21_saveProducts_all_stored
                (λ batch, DatabaseService.Rows (length batch))
                (repeat twinePlain 700) (λ _, eq_refl)) as E.
  rewrite repeat_length in E. exact E.
Defined.

(* --------------------------------------------------------------------- *)
(** *** The bookkeeping of a run                                           *)
(* --------------------------------------------------------------------- *)

Section RunFacts.
Import DataHarvester.

Lemma saved_fold env sources st :
  (∀ batch, upsertProducts env batch = DatabaseService.Rows (length batch)) →
  products_saved (result st) = length (saved st) →
  products_saved (result (fold_left (harvestSource env) sources st))
  = length (saved (fold_left (harvestSource env) sources st)).
Proof.
  intros Hstore. revert st. induction sources as [| s sources IH]; intros st Hst; [done |].
  cbn [fold_left]. apply IH. unfold harvestSource.
  destruct (DataProcessor.processScraped (seen st) (scrape env s))
    as [[processed | e] seen']; [| done].
  cbn. rewrite (saveProducts_stored _ _ Hstore), length_app. cbn. lia.
Qed.

(** What the loop over [sources] has done when the run ends. *)
Definition harvested (env : Env) (seen0 : gset string) (sources : list DataSource)
  : LoopState :=
  fold_left (harvestSource env) sources (mkLoop emptyResult seen0 []).

(** The shape shared by [runOnce] and [runTrigger] once the run's row
    exists. *)
Definition finish (env : Env) (runId : string) (st : LoopState) : Run :=
  let r := result st in
  let final :=
    {| products_found := products_found r;
       products_saved := products_saved r;
       companies_saved := companies_saved r;
       duplicates_skipped := duplicates_skipped r;
       errors := errors r;
       duration_ms := (endTime env - startTime env)%Z |} in
  match updateRun env runId (completedUpdate final) with
  | None => mkRun (Returned final) [completedUpdate final] (saved st) (seen st)
  | Some error =>
      match updateRun env runId (failedUpdate error) with
      | None => mkRun (Threw error) [failedUpdate error] (saved st) (seen st)
      | Some error' => mkRun (Threw error') [] (saved st) (seen st)
      end
  end.


(** Either a run stops before its row exists, or it is the loop over its
    sources followed by the update of the row. *)
Lemma runOnce_cases env seen0 :
  (∃ error, runOnce env seen0 = mkRun (Threw error) [] [] seen0)
  ∨ (∃ runId, runOnce env seen0
              = finish env runId
                  (harvested env seen0 (Discovery.findDataSources (discovered env)))).
Proof.
  unfold runOnce. destruct (verifyConnection env); cbn [negb]; [| by left; eexists].
  destruct (ensureSchema env); [by left; eexists |].
  destruct (createRun env "DataHarvester-Bot") as [runId | error]; [| by left; eexists].
  right. by exists runId.
Qed.


(** The books of a run that returns. *)
Definition balanced (env : Env) (sources : list DataSource) (run : Run)
           (r : HarvestRunResult) : Prop :=
  updates run = [completedUpdate r]
  ∧ products_found r = length (flat_map (scrape env) sources)
  ∧ length (errors r) = length (List.filter (fails env) sources)
  ∧ duplicates_skipped r + length (emitted run) = validScraped env sources.

Lemma finish_facts env runId seen0 sources :
  let run := finish env runId (harvested env seen0 sources) in
  (length (updates run) ≤ 1)%nat
  ∧ (∀ r, outcome run = Returned r → balanced env sources run r)
  ∧ (∀ error, outcome run = Threw error →
              Forall (λ u, status u = failed) (updates run)).
Proof.
  cbv zeta. unfold finish, harvested, balanced.
  pose proof (harvestInv_fold env seen0 sources [] _ (harvestInv_init env seen0))
    as (_ & _ & _ & Hcount & Herr & Hfound).
  cbn [app] in Hcount, Herr, Hfound.
  destruct (updateRun env runId (completedUpdate _)) as [error |].
  - destruct (updateRun env runId (failedUpdate error)); cbn.
    + split; [lia |]. split; [done |]. intros _ _. constructor.
    + split; [lia |]. split; [done |]. intros _ _. by repeat constructor.
  - cbn. split; [lia |]. split; [| done]. intros r [= <-]. by cbn.
Qed.

Lemma finish_stored env runId seen0 sources r :
  (∀ batch, upsertProducts env batch = DatabaseService.Rows (length batch)) →
  outcome (finish env runId (harvested env seen0 sources)) = Returned r →
  products_saved r = length (emitted (finish env runId (harvested env seen0 sources))).
Proof.
  intros Hstore. unfold finish, harvested.
  pose proof (saved_fold env sources (mkLoop emptyResult seen0 []) Hstore eq_refl) as Hs.
  destruct (updateRun env runId (completedUpdate _)) as [error |].
  - by destruct (updateRun env runId (failedUpdate error)).
  - cbn. by intros [= <-].
Qed.

Lemma accepted_length items : (length (accepted items) ≤ length items)%nat.
Proof.
  induction items as [| item items IH]; [done |].
  rewrite accepted_cons, length_app. unfold accepted at 1. cbn [flat_map length].
  rewrite app_nil_r. destruct (judge item); cbn [length]; lia.
Qed.

Lemma validScraped_le env sources :
  (validScraped env sources ≤ length (flat_map (scrape env) sources))%nat.
Proof.
  unfold validScraped. induction sources as [| s sources IH]; [done |].
  cbn [List.filter flat_map]. rewrite length_app.
  pose proof (accepted_length (scrape env s)).
  destruct (negb (fails env s)); cbn [flat_map]; rewrite ?length_app; lia.
Qed.
End RunFacts.

(** X22. [runOnce] writes at most one update to the row of its run.  When it
    returns, that update is the one marking the run [completed] with the
    counts it returns; the products found are all the objects the selected
    sources gave; there is one error message for each source on which
    [process] threw, and every valid record of the other sources was either
    emitted or counted as a duplicate.  When it throws, no update marks the
    run [completed]. *)
Theorem X22_runOnce_bookkeeping (env : DataHarvester.Env) (seen0 : gset string) :
  let run := DataHarvester.runOnce env seen0 in
  let sources := Discovery.findDataSources (DataHarvester.discovered env) in
  (length (DataHarvester.updates run) ≤ 1)%nat
  ∧ (∀ r, DataHarvester.outcome run = DataHarvester.Returned r →
          DataHarvester.updates run = [DataHarvester.completedUpdate r]
          ∧ products_found r = length (flat_map (DataHarvester.scrape env) sources)
          ∧ length (errors r) = length (List.filter (fails env) sources)
          ∧ duplicates_skipped r + length (DataHarvester.emitted run)
            = validScraped env sources)
  ∧ (∀ error, DataHarvester.outcome run = DataHarvester.Threw error →
              Forall (λ u, DataHarvester.status u = DataHarvester.failed)
                     (DataHarvester.updates run)).
Proof.
  cbv zeta. destruct (runOnce_cases env seen0) as [[error ->] | [runId ->]].
  - cbn. split; [lia |]. split; [done |]. intros _ _. constructor.
  - apply finish_facts.
Qed.

(** Three items of a JSON file: the rope, an oil whose plant part is the
    boolean [true], and a twine. *)
Definition oilJson : json :=
  JObj [("name", JStr "Hemp Oil");
        ("description", JStr "Cold pressed hemp oil");
        ("plant_part", JBool true);
        ("industry", JStr "Food")].

Definition twineJson : json :=
  JObj [("name", JStr "Hemp Twine");
        ("description", JStr "Twine of hemp fiber");
        ("plant_part", JStr "fiber");
        ("industry", JStr "Textiles")].



(** One government JSON file that holds the three items, in surroundings
    where every request succeeds. *)
Definition mixedEnv : DataHarvester.Env :=
  {| DataHarvester.verifyConnection := true;
     DataHarvester.ensureSchema := None;
     DataHarvester.createRun := λ _, inl "run-1";
     DataHarvester.discovered := [mkSource "https://www.usda.gov/hemp.json" json_t 0 None];
     DataHarvester.scrape :=
       λ source, Scraper.scrapeJSONSource (JArr [ropeItem; oilJson; twineJson]) (url source);
     DataHarvester.upsertProducts := λ batch, DatabaseService.Rows (length batch);
     DataHarvester.upsertCompanies := λ batch, DatabaseService.Rows (length batch);
     DataHarvester.updateRun := λ _ _, None;
     DataHarvester.errorText :=
       λ _, "TypeError: product.plant_part.toLowerCase is not a function";
     DataHarvester.startTime := 1000;
     DataHarvester.endTime := 1450 |}.

(** The run on [mixedEnv] returns: three products found, none saved, no
    duplicate, one error, and the row marked [completed] with the message. *)
Lemma X22_runOnce_bookkeeping_witness :
  DataHarvester.outcome (DataHarvester.runOnce mixedEnv ∅)
  = DataHarvester.Returned
      {| products_found := 3; products_saved := 0; companies_saved := 0;
         duplicates_skipped := 0;
         errors := ["Failed to process https://www.usda.gov/hemp.json: "
                    +:+ "TypeError: product.plant_part.toLowerCase is not a function"];
         duration_ms := 450 |}
  ∧ DataHarvester.updates (DataHarvester.runOnce mixedEnv ∅)
    = [ {| DataHarvester.status := DataHarvester.completed;
           DataHarvester.upd_products_found := Some 3;
           DataHarvester.upd_products_saved := Some 0;
           DataHarvester.upd_companies_saved := Some 0;
           DataHarvester.error_message :=
             Some ("Failed to process https://www.usda.gov/hemp.json: "
                   +:+ "TypeError: product.plant_part.toLowerCase is not a function") |} ].
Proof.
  assert (E : DataHarvester.outcome (DataHarvester.runOnce mixedEnv ∅)
              = DataHarvester.Returned
                  {| products_found := 3; products_saved := 0; companies_saved := 0;
                     duplicates_skipped := 0;
                     errors := ["Failed to process https://www.usda.gov/hemp.json: "
                                +:+ "TypeError: product.plant_part.toLowerCase is not a function"];
                     duration_ms := 450 |})
    by (vm_compute; reflexivity).
  split; [exact E |].
  exact (proj1 (proj1 (proj2 (X22_runOnce_bookkeeping mixedEnv ∅)) _ E)).
Defined.

(** X23. With a datastore that stores every row it is offered, a run that
    returns reports as saved exactly the records it emitted: products saved
    plus duplicates skipped is the number of valid records scraped from the
    sources on which [process] did not throw, which is at most the number of
    products found. *)
Theorem X23_runOnce_saved_count
        (env : DataHarvester.Env) (seen0 : gset string) (r : HarvestRunResult) :
  (∀ batch, DataHarvester.upsertProducts env batch
            = DatabaseService.Rows (length batch)) →
  DataHarvester.outcome (DataHarvester.runOnce env seen0) = DataHarvester.Returned r →
  products_saved r = length (DataHarvester.emitted (DataHarvester.runOnce env seen0))
  ∧ products_saved r + duplicates_skipped r
    = validScraped env (Discovery.findDataSources (DataHarvester.discovered env))
  ∧ (products_saved r + duplicates_skipped r ≤ products_found r)%nat.
Proof.
  intros Hstore. destruct (runOnce_cases env seen0) as [[error ->] | [runId ->]]; [done |].
  intros Hr. pose proof (finish_stored env runId seen0 _ r Hstore Hr) as Hsaved.
  destruct (finish_facts env runId seen0
              (Discovery.findDataSources (DataHarvester.discovered env)))
    as (_ & Hret & _). destruct (Hret r Hr) as (_ & Hfound & _ & Hcount).
  pose proof (validScraped_le env (Discovery.findDataSources (DataHarvester.discovered env))).
  split; [done |]. split; lia.
Qed.

Lemma X23_runOnce_saved_count_witness :
  length (DataHarvester.emitted (DataHarvester.runOnce ropeEnv ∅)) = 1
  ∧ length (DataHarvester.emitted (DataHarvester.runOnce mixedEnv ∅)) = 0.
Proof.
  assert (E : DataHarvester.outcome (DataHarvester.runOnce ropeEnv ∅)
              = DataHarvester.Returned
                  {| products_found := 1; products_saved := 1; companies_saved := 0;
                     duplicates_skipped := 0; errors := []; duration_ms := 250 |})
    by (vm_compute; reflexivity).
  assert (E' : DataHarvester.outcome (DataHarvester.runOnce mixedEnv ∅)
               = DataHarvester.Returned
                   {| products_found := 3; products_saved := 0; companies_saved := 0;
                      duplicates_skipped := 0;
                      errors := ["Failed to process https://www.usda.gov/hemp.json: "
                                 +:+ "TypeError: product.plant_part.toLowerCase is not a function"];
                      duration_ms := 450 |})
    by (vm_compute; reflexivity).
  split.
  - symmetry. exact (proj1 (X23_runOnce_saved_count ropeEnv ∅ _ (λ _, eq_refl) E)).
  - symmetry. exact (proj1 (X23_runOnce_saved_count mixedEnv ∅ _ (λ _, eq_refl) E')).
Defined.




Section ScheduleFacts.
Import DataHarvester.

Lemma scheduledRuns_hashes seen0 envs :
  NoDup (hashesOf (flat_map emitted (scheduledRuns seen0 envs)))
  ∧ ∀ h, h ∈ hashesOf (flat_map emitted (scheduledRuns seen0 envs)) → h ∉ seen0.
Proof.
  revert seen0. induction envs as [| env envs IH]; intros seen0.
  - cbn. split; [constructor | intros h Hh; by apply not_elem_of_nil in Hh].
  - cbn [scheduledRuns flat_map].
    pose proof (runOnce_seen env seen0) as (Hnd & Hseen & Hfresh).
    destruct (IH (seenAfter (runOnce env seen0))) as [IHnd IHfresh].
    unfold hashesOf in *. rewrite map_app. split.
    + apply NoDup_app. split; [done |]. split; [| done].
      intros h Hh Hh'. apply IHfresh in Hh'. apply Hh'. set_solver.
    + intros h Hh. apply elem_of_app in Hh as [Hh | Hh]; [by apply Hfresh |].
      apply IHfresh in Hh. set_solver.
Qed.
End ScheduleFacts.

(** X25. Over all the runs the scheduler starts on one harvester, however
    many and whatever their surroundings, no two emitted records have the
    same content hash: a record is handed to the datastore by at most one
    run. *)
Theorem X25_scheduled_runs_emit_once (envs : list DataHarvester.Env) :
  NoDup (map DataProcessor.generateHash
             (flat_map DataHarvester.emitted
                       (DataHarvester.scheduledRuns DataHarvester.newHarvester envs))).
Proof. apply (scheduledRuns_hashes DataHarvester.newHarvester envs). Qed.

(* --------------------------------------------------------------------- *)
(** *** Ties in the selection, and the type of a triggered URL             *)
(* --------------------------------------------------------------------- *)

Section StabilityFacts.
Import Discovery.
Local Open Scope float_scope.

(** On the scores that occur, two sources of one and the same score are
    never swapped by the comparator. *)
Definition tieCheck : bool :=
  forallb (λ x, forallb (λ y, forallb (λ v, implb ((x =? v) && (y =? v))
                                                  (negb (0 <? y - x)))
                                      scoreValues)
                        scoreValues)
          scoreValues.

Lemma tie_ok : tieCheck = true.
Proof. vm_compute. reflexivity. Qed.

Lemma tie_kept x y v :
  In x scoreValues → In y scoreValues → In v scoreValues →
  (x =? v) = true → (y =? v) = true → (0 <? y - x) = false.
Proof.
  intros Hx Hy Hv Hxv Hyv. pose proof tie_ok as H. unfold tieCheck in H.
  rewrite forallb_forall in H. specialize (H x Hx).
  rewrite forallb_forall in H. specialize (H y Hy).
  rewrite forallb_forall in H. specialize (H v Hv).
  rewrite Hxv, Hyv in H. cbn in H. by apply negb_true_iff in H.
Qed.

Definition scoresAs (v : float) (s : DataSource) : bool := score s =? v.

Lemma insertSorted_ties v x l :
  In v scoreValues → valued x → List.Forall valued l →
  List.filter (scoresAs v) (insertSorted x l)
  = List.filter (scoresAs v) (x :: l).
Proof.
  intros Hv Hx Hl. induction l as [| y l IH]; [done |].
  apply List.Forall_cons_iff in Hl as [Hy Hl]. specialize (IH Hl).
  cbn [insertSorted]. unfold compareScore.
  destruct (0 <? score y - score x) eqn:Hcmp; [| done].
  cbn [List.filter] in *. rewrite IH.
  destruct (scoresAs v x) eqn:Px, (scoresAs v y) eqn:Py; try done.
  unfold scoresAs in Px, Py.
  by rewrite (tie_kept _ _ _ Hx Hy Hv Px Py) in Hcmp.
Qed.

Lemma sortByScore_valued l : List.Forall valued l → List.Forall valued (sortByScore l).
Proof.
  intros Hl. apply List.Forall_forall. intros z Hz.
  apply (Permutation_in _ (Permutation_sym (sortByScore_perm l))) in Hz.
  by apply (proj1 (List.Forall_forall _ _) Hl).
Qed.

Lemma sortByScore_ties v l :
  In v scoreValues → List.Forall valued l →
  List.filter (scoresAs v) (sortByScore l) = List.filter (scoresAs v) l.
Proof.
  intros Hv. induction l as [| x l IH]; intros Hl; [done |].
  apply List.Forall_cons_iff in Hl as [Hx Hl].
  change (sortByScore (x :: l)) with (insertSorted x (sortByScore l)).
  rewrite (insertSorted_ties v x _ Hv Hx (sortByScore_valued l Hl)).
  cbn [List.filter]. by rewrite (IH Hl).
Qed.
End StabilityFacts.

(** X26. The sort of [findDataSources] keeps ties in place: among the viable
    sources, those that score the same as any given source stand in the
    sorted list in the order in which the strategies found them.  (The list
    returned is the first ten of that sorted list.) *)
Theorem X26_selection_keeps_ties (allSources : list DataSource) (reference : DataSource) :
  let viableSources := List.filter Discovery.viable (Discovery.scoreSources allSources) in
  let sameScore := λ s, (score s =? score (Discovery.scoreSource reference))%float in
  Discovery.findDataSources allSources = firstn 10 (Discovery.sortByScore viableSources)
  ∧ List.filter sameScore (Discovery.sortByScore viableSources)
    = List.filter sameScore viableSources.
Proof.
  cbv zeta. split; [reflexivity |].
  apply (sortByScore_ties (score (Discovery.scoreSource reference))).
  - apply score_in_values.
  - apply viable_valued.
Qed.

Section SuffixFacts.
Import JS.

Lemma eqb_length a b : String.eqb a b = true → String.length a = String.length b.
Proof. intros H. apply String.eqb_eq in H. by subst. Qed.

Lemma length_append a b : String.length (a +:+ b) = String.length a + String.length b.
Proof.
  induction a as [| c a IH]; [done |]. rewrite append_cons. cbn [String.length].
  by rewrite IH.
Qed.

(** A suffix no longer than [s] is looked for in [s] alone. *)
Lemma endsWith_append x s suffix :
  (String.length suffix ≤ String.length s)%nat →
  endsWith (x +:+ s) suffix = endsWith s suffix.
Proof.
  intros Hlen. induction x as [| c x IH]; [done |].
  rewrite append_cons. cbn [endsWith]. rewrite IH.
  destruct (String.eqb (String c (x +:+ s)) suffix) eqn:E; [| done].
  apply eqb_length in E. cbn [String.length] in E. rewrite length_append in E. lia.
Qed.

Lemma string_snoc s : s = "" ∨ ∃ s' c, s = s' +:+ String c "".
Proof.
  induction s as [| c s IH]; [by left |]. right.
  destruct IH as [-> | (s' & d & ->)].
  - by exists "", c.
  - by exists (String c s'), d.
Qed.

Lemma endsWith_pdf_json x : endsWith (x +:+ ".pdf") ".json" = false.
Proof.
  destruct (string_snoc x) as [-> | (x' & c & ->)]; [done |].
  rewrite append_assoc. change (String c "" +:+ ".pdf") with (String c ".pdf").
  rewrite endsWith_append by (cbn; lia).
  cbn [endsWith].
  replace (String.eqb (String c ".pdf") ".json") with false; [done |].
  symmetry. apply String.eqb_neq. intros [= _ H].
Qed.
End SuffixFacts.

(** X27. [detectSourceType] goes by the end of the URL, letter case aside: a
    URL ending in ".csv", ".json" or ".pdf" is of that type, and the type of
    a URL of ASCII characters does not change when the URL is written in
    upper case. *)
Theorem X27_detectSourceType_by_extension (stem : string) :
  DataHarvester.detectSourceType (stem +:+ ".csv") = csv
  ∧ DataHarvester.detectSourceType (stem +:+ ".json") = json_t
  ∧ DataHarvester.detectSourceType (stem +:+ ".pdf") = pdf
  ∧ (JS.sall isAscii stem = true →
     DataHarvester.detectSourceType (JS.toUpperCase stem)
     = DataHarvester.detectSourceType stem).
Proof.
  unfold DataHarvester.detectSourceType.
  split; [| split; [| split]].
  - unfold JS.toLowerCase. rewrite smap_app.
    by rewrite endsWith_append by (cbn; lia).
  - unfold JS.toLowerCase. rewrite smap_app.
    by rewrite !endsWith_append by (cbn; lia).
  - unfold JS.toLowerCase. rewrite smap_app.
    change (JS.smap JS.lowerChar ".pdf") with ".pdf".
    rewrite endsWith_pdf_json. by rewrite !endsWith_append by (cbn; lia).
  - intros Hstem. by rewrite (toLowerCase_toUpperCase stem (sall_ascii_plainCase stem Hstem)).
Qed.

(* --------------------------------------------------------------------- *)
(** *** Cleaning a record that is clean already                            *)
(* --------------------------------------------------------------------- *)

Section RecleaningFacts.
Import JS DataProcessor.

(** [s.split(' ').join(' ')] is [s]. *)
Lemma join_splitChar (sep : ascii) s :
  join (String sep "") (splitChar sep s) = s.
Proof.
  induction s as [| c s IH]; [done |].
  cbn [splitChar]. destruct (Ascii.eqb c sep) eqn:Hc.
  - apply Ascii.eqb_eq in Hc. subst c.
    pose proof (splitChar_nonempty sep s) as Hne.
    destruct (splitChar sep s) as [| w ws]; [done |].
    cbn [join] in *. by rewrite IH.
  - destruct (splitChar sep s) as [| w ws] eqn:E.
    { by destruct (splitChar_nonempty sep s). }
    destruct ws as [| w' ws'].
    + cbn [join] in *. by rewrite IH.
    + cbn [join] in *. rewrite append_cons. by rewrite IH.
Qed.

Lemma toLowerCase_join sep ws :
  toLowerCase (join sep ws) = join (toLowerCase sep) (map toLowerCase ws).
Proof.
  induction ws as [| w ws IH]; [done |].
  destruct ws as [| w' ws']; [done |].
  cbn [join map] in *. unfold toLowerCase in *. by rewrite !smap_app, IH.
Qed.

Lemma toLowerCase_capitalize w :
  sall plainCase w = true → toLowerCase (capitalize w) = toLowerCase w.
Proof.
  destruct w as [| c w]; [done |]. cbn [sall]. intros H.
  apply andb_prop in H as [Hc _]. cbn [capitalize].
  rewrite (plainCase_not_sharp c Hc). unfold toLowerCase. cbn [smap].
  by rewrite lowerChar_upperChar.
Qed.

Lemma lowerChar_plainCase c : plainCase c = true → plainCase (lowerChar c) = true.
Proof. destruct c as [[] [] [] [] [] [] [] []]; vm_compute; done. Qed.

Lemma upperChar_plainCase c : plainCase c = true → plainCase (upperChar c) = true.
Proof. destruct c as [[] [] [] [] [] [] [] []]; vm_compute; done. Qed.

Lemma sall_smap p f s :
  (∀ c, p c = true → p (f c) = true) → sall p s = true → sall p (smap f s) = true.
Proof.
  intros Hf. induction s as [| c s IH]; [done |]. cbn [sall smap]. intros H.
  apply andb_prop in H as [Hc Hs]. by rewrite (Hf c Hc), (IH Hs).
Qed.

Lemma sall_app p a b : sall p (a +:+ b) = sall p a && sall p b.
Proof.
  induction a as [| c a IH]; [done |]. rewrite append_cons. cbn [sall].
  by rewrite IH, andb_assoc.
Qed.

Lemma sall_splitChar p sep s :
  sall p s = true → Forall (λ w, sall p w = true) (splitChar sep s).
Proof.
  induction s as [| c s IH]; [by repeat constructor |]. cbn [sall]. intros H.
  apply andb_prop in H as [Hc Hs]. specialize (IH Hs). cbn [splitChar].
  destruct (Ascii.eqb c sep); [by constructor |].
  destruct (splitChar sep s) as [| w ws].
  - constructor; [| constructor]. cbn [sall]. by rewrite Hc.
  - apply Forall_cons in IH as [Hw Hws]. constructor; [| done].
    cbn [sall]. by rewrite Hc, Hw.
Qed.

Lemma sall_join p sep ws :
  sall p sep = true → Forall (λ w, sall p w = true) ws → sall p (join sep ws) = true.
Proof.
  intros Hsep Hws. induction Hws as [| w ws Hw Hws IH]; [done |].
  destruct ws as [| w' ws']; [done |].
  cbn [join] in *. by rewrite !sall_app, Hw, Hsep, IH.
Qed.

Lemma sfilter_id p s : sall p s = true → sfilter p s = s.
Proof.
  induction s as [| c s IH]; [done |]. cbn [sall sfilter].
  intros H. apply andb_prop in H as [Hc Hs]. by rewrite Hc, IH.
Qed.

Lemma sall_collapseFrom q inRun s :
  q " "%char = true → sall q s = true → sall q (collapseFrom inRun s) = true.
Proof.
  intros Hq. revert inRun. induction s as [| c s IH]; intros inRun; [done |].
  cbn [sall collapseFrom]. intros H. apply andb_prop in H as [Hc Hs].
  destruct (isSpace c).
  - destruct inRun; [by apply IH |]. cbn [sall]. by rewrite Hq, IH.
  - cbn [sall]. by rewrite Hc, IH.
Qed.

Lemma sall_cleanText p s :
  p " "%char = true → sall p s = true → sall p (cleanText s) = true.
Proof.
  intros Hspace Hs. unfold cleanText.
  apply sall_trim, sall_dropWhile, sall_sfilter, sall_collapseFrom; [done |].
  by apply sall_trim.
Qed.

Lemma capitalize_plainCase w : sall plainCase w = true → sall plainCase (capitalize w) = true.
Proof.
  destruct w as [| c w]; [done |]. cbn [sall]. intros H.
  apply andb_prop in H as [Hc Hw]. cbn [capitalize].
  rewrite (plainCase_not_sharp c Hc). cbn [sall].
  by rewrite (upperChar_plainCase c Hc), Hw.
Qed.

(** The lower-cased words of a cleaned text, as [normalizeText] capitalises
    them. *)
Lemma words_plainCase s :
  sall plainCase s = true →
  Forall (λ w, sall plainCase w = true) (splitChar " " (toLowerCase (cleanText s))).
Proof.
  intros Hs. apply sall_splitChar. unfold toLowerCase.
  apply sall_smap; [apply lowerChar_plainCase |]. by apply sall_cleanText.
Qed.

Lemma normalizeText_plainCase s :
  sall plainCase s = true → sall plainCase (normalizeText s) = true.
Proof.
  intros Hs. unfold normalizeText. apply sall_join; [done |].
  apply Forall_map. eapply Forall_impl; [apply (words_plainCase s Hs) |].
  intros w. apply capitalize_plainCase.
Qed.

(** Lower-cased, [normalizeText] is the lower-cased [cleanText]. *)
Lemma normalizeText_lower s :
  sall plainCase s = true → toLowerCase (normalizeText s) = toLowerCase (cleanText s).
Proof.
  intros Hs. unfold normalizeText. rewrite toLowerCase_join, map_map.
  rewrite (List.map_ext_Forall (λ w, toLowerCase (capitalize w)) toLowerCase)
    by (eapply Forall_impl; [apply (words_plainCase s Hs) | apply toLowerCase_capitalize]).
  rewrite <- (toLowerCase_join " "), join_splitChar. apply toLowerCase_idem.
Qed.

Lemma removeSpaces_collapseFrom inRun s :
  removeSpaces (collapseFrom inRun s) = removeSpaces s.
Proof.
  revert inRun. induction s as [| c s IH]; intros inRun; [done |].
  unfold removeSpaces in *. cbn [collapseFrom sfilter].
  destruct (isSpace c) eqn:Hc; cbn [negb].
  - destruct inRun; [apply IH |]. cbn [sfilter]. apply IH.
  - cbn [sfilter]. by rewrite Hc, IH.
Qed.

Lemma removeSpaces_dropWhile s : removeSpaces (dropWhile isSpace s) = removeSpaces s.
Proof.
  induction s as [| c s IH]; [done |]. unfold removeSpaces in *.
  cbn [dropWhile sfilter]. destruct (isSpace c) eqn:Hc; [done |].
  cbn [sfilter]. by rewrite Hc.
Qed.

Lemma removeSpaces_dropWhileEnd s : removeSpaces (dropWhileEnd isSpace s) = removeSpaces s.
Proof.
  induction s as [| c s IH]; [done |]. unfold removeSpaces in *.
  cbn [dropWhileEnd sfilter]. destruct (dropWhileEnd isSpace s) as [| d r].
  - cbn [sfilter] in IH. rewrite <- IH.
    destruct (isSpace c) eqn:Hc; cbn [sfilter negb]; by rewrite ?Hc.
  - rewrite <- IH. by cbn [sfilter].
Qed.

Lemma removeSpaces_trim s : removeSpaces (trim s) = removeSpaces s.
Proof. unfold trim. by rewrite removeSpaces_dropWhileEnd, removeSpaces_dropWhile. Qed.

Lemma collapse_headFails p s :
  (∀ c, p c = false → isSpace c = false) → headFails p s → headFails p (collapseSpaces s).
Proof.
  intros Hp. destruct s as [| c s]; [done |]. cbn [headFails]. intros Hc.
  unfold collapseSpaces. cbn [collapseFrom]. by rewrite (Hp c Hc).
Qed.

(** A text of the shape [cleanText] gives loses nothing but spaces when it
    is cleaned again. *)
Lemma recleaned s :
  sall (λ c, negb (isControl c)) s = true →
  headFails isLeadingDecoration s →
  trim s = s →
  removeSpaces (cleanText s) = removeSpaces s.
Proof.
  intros Hctl Hhead Htrim. unfold cleanText. rewrite Htrim.
  rewrite (sfilter_id _ (collapseSpaces s))
    by (by apply sall_collapseFrom).
  rewrite (dropWhile_fixed _ (collapseSpaces s))
    by (by apply collapse_headFails; [apply decoration_of_space |]).
  rewrite removeSpaces_trim. apply removeSpaces_collapseFrom.
Qed.

Lemma cleanText_shape s :
  sall (λ c, negb (isControl c)) (cleanText s) = true
  ∧ headFails isLeadingDecoration (cleanText s)
  ∧ trim (cleanText s) = cleanText s.
Proof.
  unfold cleanText.
  set (body := dropWhile isLeadingDecoration
                 (sfilter (λ c, negb (isControl c)) (collapseSpaces (trim s)))).
  split; [| split].
  - apply sall_trim, sall_dropWhile, sall_sfilter_self.
  - assert (Hb : headFails isLeadingDecoration body) by apply dropWhile_headFails.
    unfold trim.
    rewrite (dropWhile_fixed isSpace body
               (headFails_weaken _ _ _ decoration_of_space Hb)).
    apply dropWhileEnd_headFails; [| done].
    by apply (headFails_weaken _ _ _ decoration_of_space).
  - apply trim_idem.
Qed.

Lemma cleanText_toLowerCase s : cleanText (toLowerCase s) = toLowerCase (cleanText s).
Proof. by rewrite cleanText_lower, cleanText_trim, trim_lower. Qed.

Lemma removeSpaces_lower s : removeSpaces (toLowerCase s) = toLowerCase (removeSpaces s).
Proof.
  unfold removeSpaces, toLowerCase.
  apply (sfilter_smap lowerChar isSpace (λ c, proj1 (lowerChar_classes c))).
Qed.

Lemma canonical_cleanText_again s : canonical (cleanText (cleanText s)) = canonical (cleanText s).
Proof.
  unfold canonical. rewrite !removeSpaces_lower. f_equal.
  destruct (cleanText_shape s) as (H1 & H2 & H3). by apply recleaned.
Qed.

Lemma canonical_normalizeText s :
  sall plainCase s = true → canonical (normalizeText s) = canonical (cleanText s).
Proof. intros Hs. unfold canonical. by rewrite normalizeText_lower. Qed.

Lemma canonical_normalizeText_again s :
  sall plainCase s = true →
  canonical (normalizeText (normalizeText s)) = canonical (normalizeText s).
Proof.
  intros Hs.
  rewrite (canonical_normalizeText (normalizeText s) (normalizeText_plainCase s Hs)),
    (canonical_normalizeText s Hs).
  unfold canonical at 1. rewrite <- cleanText_toLowerCase, (normalizeText_lower s Hs).
  rewrite cleanText_toLowerCase. fold (canonical (cleanText (cleanText s))).
  apply canonical_cleanText_again.
Qed.
End RecleaningFacts.

(** X28. On a text of ASCII characters [normalizeText] changes the case of
    letters and nothing else: lower-cased, its result is the lower-cased
    result of [cleanText].  (It splits at the spaces, capitalises and joins
    again, and [s.split(' ').join(' ')] is [s].) *)
Theorem X28_normalizeText_changes_case_only (text : string) :
  JS.sall isAscii text = true →
  JS.toLowerCase (DataProcessor.normalizeText text)
  = JS.toLowerCase (DataProcessor.cleanText text)
  ∧ JS.join " " (JS.splitChar " " text) = text.
Proof.
  intros Hascii. split; [| apply join_splitChar].
  apply normalizeText_lower. by apply sall_ascii_plainCase.
Qed.

(** A plant part written carelessly. *)
Lemma X28_normalizeText_changes_case_only_witness :
  DataProcessor.normalizeText "  hemp   SEED oil " = "Hemp Seed Oil"
  ∧ JS.toLowerCase (DataProcessor.normalizeText "  hemp   SEED oil ")
    = JS.toLowerCase (DataProcessor.cleanText "  hemp   SEED oil ").
Proof.
  split; [vm_compute; reflexivity |].
  apply (X28_normalizeText_changes_case_only "  hemp   SEED oil "). reflexivity.
Defined.

Section RecleaningBatch.
Import JS DataProcessor.

(** The records whose plant part and industry are capitalised letter for
    letter within the range: they hold no sharp s, no U+00B5 and no
    U+00FF. *)
Definition plainFields (p : HempProduct) : Prop :=
  sall plainCase (plant_part p) = true ∧ sall plainCase (industry p) = true.

Lemma hashOf_canonicalOf p : plainFields p → hashOf (canonicalOf p) = hashOf p.
Proof.
  intros [Hpart Hind]. unfold hashOf, canonicalOf, generateHash. f_equal.
  rewrite !hashKey_cleanProduct. unfold canonName, canonPart, canonIndustry.
  cbn [product_name plant_part industry enrichProduct cleanProduct].
  by rewrite canonical_cleanText_again, (canonical_normalizeText_again _ Hpart),
       (canonical_normalizeText_again _ Hind).
Qed.

Lemma process_known seen ps :
  (∀ p, In p ps → isValidProduct p = true → hashOf p ∈ seen) →
  process seen ps = (mkProcessResult [] (length (List.filter isValidProduct ps)), seen).
Proof. intros H. unfold process. by rewrite fold_all_seen. Qed.

Lemma emitted_known seen0 products u :
  Forall plainFields products →
  In u (unique (process seen0 products).1) → hashOf u ∈ (process seen0 products).2.
Proof.
  intros Hplain.
  destruct (fold_kept products (mkLoop seen0 [] 0 0)) as (kept & Hsub & Heq).
  unfold process. cbn [fst snd unique]. rewrite Heq. cbn [acc_unique app].
  intros Hu. apply in_map_iff in Hu as (p & <- & Hp).
  assert (Hf : In p (List.filter isValidProduct products)).
  { apply list_elem_of_In. eapply elem_of_sublist; [apply list_elem_of_In, Hp | done]. }
  apply filter_In in Hf as [Hin Hv].
  rewrite hashOf_canonicalOf by (by apply (proj1 (List.Forall_forall _ _) Hplain)).
  by apply fold_seen_valid.
Qed.
End RecleaningBatch.

(** X29. The content hash does not change when a record is cleaned again: the
    canonical record that [process] emits for a raw record has, computed the
    way [process] computes it, the hash of that raw record.  So the unique
    records of a call, handed back to the same processor, give no unique
    record and leave the set of seen hashes as it is.  Stated for records
    whose plant part and industry hold no sharp s, U+00B5 or U+00FF. *)
Theorem X29_emitted_records_are_known
        (seen0 : gset string) (products : list HempProduct) :
  Forall plainFields products →
  Forall (λ p, hashOf (canonicalOf p) = hashOf p) products
  ∧ let r := (DataProcessor.process seen0 products).1 in
    let seen1 := (DataProcessor.process seen0 products).2 in
    DataProcessor.unique (DataProcessor.process seen1 (DataProcessor.unique r)).1 = []
    ∧ (DataProcessor.process seen1 (DataProcessor.unique r)).2 = seen1.
Proof.
  intros Hplain. split.
  - eapply Forall_impl; [exact Hplain | apply hashOf_canonicalOf].
  - cbv zeta. rewrite process_known by (intros u Hu _; by apply emitted_known).
    done.
Qed.

(** The rope, shouted and plain, the twine and a record with accented
    letters: the three records emitted are all known when handed back. *)
Lemma X29_emitted_records_are_known_witness :
  length (DataProcessor.unique
            (DataProcessor.process ∅ [ropeShouted; ropePlain; twinePlain; cafeShouted]).1) = 3
  ∧ DataProcessor.unique
      (DataProcessor.process
         (DataProcessor.process ∅ [ropeShouted; ropePlain; twinePlain; cafeShouted]).2
         (DataProcessor.unique
            (DataProcessor.process ∅ [ropeShouted; ropePlain; twinePlain; cafeShouted]).1)).1
    = [].
Proof.
  assert (Hplain : Forall plainFields [ropeShouted; ropePlain; twinePlain; cafeShouted])
    by (repeat constructor).
  split; [vm_compute; reflexivity |].
  exact (proj1 (proj2 (X29_emitted_records_are_known ∅ _ Hplain))).
Defined.

(* --------------------------------------------------------------------- *)
(** *** A source with an object of another type                            *)
(* --------------------------------------------------------------------- *)


